(** * pf-sqldb: the ledger synchronisation script [transaction_feed.py]

    A shallow embedding of the ingestion script and the properties its
    specification states about it.

    Conventions of the embedding.
    - A Python [str] is the list of its code points ([pystr]); [bytes] is a
      list of numbers below 256.
    - A parsed JSON document is a [json] value.  Numbers are integers: the
      ledger interface sends decimal quantities as strings, so a JSON
      number with a fraction is outside the model.  An object keeps its
      members as an association list read from the front, the way a
      Python [dict] answers [get] and [in].
    - A Python exception is a value of [exn]; code that may raise returns a
      [result], and [x <- c ;; k] sequences two such computations.
    - Library routines the script calls ([bytes.fromhex],
      [base64.b64decode], [bytes.decode], [float], [int],
      [datetime.utcfromtimestamp]) are written out after CPython 3. *)

From Stdlib Require Import ZArith NArith String Ascii List Bool Lia.
Import ListNotations.

Local Open Scope Z_scope.
Local Set Warnings "-register-all".

(* ------------------------------------------------------------------ *)
(** ** Python values                                                    *)
(* ------------------------------------------------------------------ *)

Definition pystr := list N.
Definition bytes := list N.

Definition str (s : string) : pystr :=
  map N_of_ascii (list_ascii_of_string s).

Fixpoint pystr_eqb (a b : pystr) : bool :=
  match a, b with
  | [], [] => true
  | x :: a', y :: b' => N.eqb x y && pystr_eqb a' b'
  | _, _ => false
  end.

Inductive json : Type :=
| JNull
| JBool (b : bool)
| JNum (n : Z)
| JStr (s : pystr)
| JArr (items : list json)
| JObj (members : list (pystr * json)).

Inductive exn : Type :=
| AttributeError
| TypeError
| ValueError
| OverflowError
| OSError
| RequestException
| KeyError
| DatabaseError
| Exception (response_json : json).

Inductive result (A : Type) : Type :=
| Ok (a : A)
| Raise (e : exn).
Arguments Ok {A} a.
Arguments Raise {A} e.

Definition bind {A B : Type} (c : result A) (k : A -> result B) : result B :=
  match c with
  | Ok a => k a
  | Raise e => Raise e
  end.

Notation "x <- c ;; k" := (bind c (fun x => k))
  (at level 61, c at next level, right associativity).

(** [d.get(key)] on a dictionary's members. *)
Fixpoint lookup (key : pystr) (members : list (pystr * json)) : option json :=
  match members with
  | [] => None
  | (k, v) :: rest => if pystr_eqb key k then Some v else lookup key rest
  end.

(** [obj.get(key, default)]: only a [dict] has the method. *)
Definition py_get (obj : json) (key : pystr) (default : json) : result json :=
  match obj with
  | JObj members =>
      Ok (match lookup key members with Some v => v | None => default end)
  | _ => Raise AttributeError
  end.

(** Truth value of an object, as [if x:] and [not x] take it. *)
Definition py_truthy (v : json) : bool :=
  match v with
  | JNull => false
  | JBool b => b
  | JNum n => negb (n =? 0)
  | JStr s => match s with [] => false | _ => true end
  | JArr l => match l with [] => false | _ => true end
  | JObj m => match m with [] => false | _ => true end
  end.

(** [v == s] for a string [s]: only an equal string is equal to it. *)
Definition py_eq_str (v : json) (s : pystr) : bool :=
  match v with
  | JStr t => pystr_eqb t s
  | _ => false
  end.

Definition isinstance_dict (v : json) : bool :=
  match v with
  | JObj _ => true
  | _ => false
  end.

(** [v > h] for an integer [h]: integers and booleans compare by value,
    anything else is a [TypeError]. *)
Definition int_value (v : json) : option Z :=
  match v with
  | JNum n => Some n
  | JBool b => Some (if b then 1 else 0)
  | _ => None
  end.

Definition py_gt_int (v : json) (h : Z) : result bool :=
  match int_value v with
  | Some n => Ok (h <? n)
  | None => Raise TypeError
  end.

(** [for x in v]: the items of a list, the keys of a dictionary, the
    characters of a string; other values are not iterable. *)
Definition py_iter (v : json) : result (list json) :=
  match v with
  | JArr l => Ok l
  | JObj m => Ok (map (fun kv => JStr (fst kv)) m)
  | JStr s => Ok (map (fun c => JStr [c]) s)
  | _ => Raise TypeError
  end.

(** [s in t] for strings: [s] occurs in [t] as a substring. *)
Fixpoint is_prefix (s t : pystr) : bool :=
  match s, t with
  | [], _ => true
  | x :: s', y :: t' => N.eqb x y && is_prefix s' t'
  | _ :: _, [] => false
  end.

Fixpoint is_substring (s t : pystr) : bool :=
  is_prefix s t ||
  match t with
  | [] => false
  | _ :: t' => is_substring s t'
  end.

(** [key in v] for a string [key]. *)
Definition py_contains (key : pystr) (v : json) : result bool :=
  match v with
  | JObj m => Ok (match lookup key m with Some _ => true | None => false end)
  | JArr l => Ok (existsb (fun x => py_eq_str x key) l)
  | JStr t => Ok (is_substring key t)
  | _ => Raise TypeError
  end.

(** [v[key]] for a string [key]. *)
Definition py_getitem (v : json) (key : pystr) : result json :=
  match v with
  | JObj m =>
      match lookup key m with
      | Some x => Ok x
      | None => Raise KeyError
      end
  | _ => Raise TypeError
  end.

(* ------------------------------------------------------------------ *)
(** ** Configuration                                                    *)
(* ------------------------------------------------------------------ *)

Definition CURRENCY_CODE : pystr := str "PFT".
Definition ISSUER_ADDRESS : pystr := str "rnQUEEg8yyjrwk9FhyXpKavHyCRJM9BDMW".
Definition ACCOUNT_TO_CHECK : pystr := ISSUER_ADDRESS.

(* ------------------------------------------------------------------ *)
(** ** The payment filter                                               *)
(* ------------------------------------------------------------------ *)

Definition is_token_payment (tx : json) (currency_code issuer : pystr)
  : result bool :=
  ty <- py_get tx (str "TransactionType") JNull ;;
  if negb (py_eq_str ty (str "Payment")) then Ok false
  else
    amount <- py_get tx (str "Amount") JNull ;;
    if isinstance_dict amount then
      iss <- py_get amount (str "issuer") JNull ;;
      cur <- py_get amount (str "currency") JNull ;;
      if py_eq_str iss issuer && py_eq_str cur currency_code
      then Ok true else Ok false
    else Ok false.

(* ------------------------------------------------------------------ *)
(** ** Memo decoding                                                    *)
(* ------------------------------------------------------------------ *)

Local Open Scope N_scope.

(** ASCII white space as [Py_ISSPACE] has it: tab, line feed, vertical
    tab, form feed, carriage return, space. *)
Definition py_isspace (c : N) : bool :=
  ((9 <=? c) && (c <=? 13)) || (c =? 32).

Definition hex_digit (c : N) : option N :=
  if (48 <=? c) && (c <=? 57) then Some (c - 48)
  else if (97 <=? c) && (c <=? 102) then Some (c - 87)
  else if (65 <=? c) && (c <=? 70) then Some (c - 55)
  else None.

(** [bytes.fromhex(s)]: two hexadecimal digits per byte, white space
    allowed between bytes only; [None] stands for its [ValueError]. *)
Fixpoint fromhex (s : pystr) : option bytes :=
  match s with
  | [] => Some []
  | c :: rest =>
      if py_isspace c then fromhex rest
      else
        match hex_digit c, rest with
        | Some top, d :: rest' =>
            match hex_digit d with
            | Some bot =>
                match fromhex rest' with
                | Some out => Some (16 * top + bot :: out)
                | None => None
                end
            | None => None
            end
        | _, _ => None
        end
  end.

(** Value of a character of the base64 alphabet. *)
Definition b64_value (c : N) : option N :=
  if (65 <=? c) && (c <=? 90) then Some (c - 65)
  else if (97 <=? c) && (c <=? 122) then Some (c - 71)
  else if (48 <=? c) && (c <=? 57) then Some (c + 4)
  else if c =? 43 then Some 62
  else if c =? 47 then Some 63
  else None.

(** [binascii.a2b_base64] without strict mode: characters outside the
    alphabet are skipped, a complete pad sequence ends the input, and a
    quad left open at the end is an error ([None]).  [quad_pos] counts the
    characters of the current quad, [leftchar] holds its pending bits and
    [pads] the pad characters seen since the last data character. *)
Fixpoint a2b_base64 (s : pystr) (quad_pos leftchar pads : N) : option bytes :=
  match s with
  | [] => if quad_pos =? 0 then Some [] else None
  | c :: rest =>
      if c =? 61 then
        if 2 <=? quad_pos then
          if 4 <=? quad_pos + (pads + 1) then Some []
          else a2b_base64 rest quad_pos leftchar (pads + 1)
        else a2b_base64 rest quad_pos leftchar pads
      else
        match b64_value c with
        | None => a2b_base64 rest quad_pos leftchar pads
        | Some v =>
            if quad_pos =? 0 then a2b_base64 rest 1 v 0
            else
              let emit (byte left qp : N) :=
                match a2b_base64 rest qp left 0 with
                | Some out => Some (byte :: out)
                | None => None
                end in
              if quad_pos =? 1 then
                emit (N.lor (N.shiftl leftchar 2) (N.shiftr v 4))
                     (N.land v 15) 2
              else if quad_pos =? 2 then
                emit (N.lor (N.shiftl leftchar 4) (N.shiftr v 2))
                     (N.land v 3) 3
              else
                emit (N.lor (N.shiftl leftchar 6) v) 0 0
        end
  end.

(** [base64.b64decode(s)] on a string: the string is first encoded as
    ASCII, which fails on any other character. *)
Definition b64decode (s : pystr) : option bytes :=
  if forallb (fun c => c <? 128) s then a2b_base64 s 0 0 0 else None.

Definition REPLACEMENT : N := 65533.

Definition is_cont (b : N) : bool := (128 <=? b) && (b <=? 191).

(** Allowed range of the second byte after a three- or four-byte lead. *)
Definition second_lo (lead : N) : N :=
  if lead =? 224 then 160 else if lead =? 240 then 144 else 128.
Definition second_hi (lead : N) : N :=
  if lead =? 237 then 159 else if lead =? 244 then 143 else 191.
Definition second_ok (lead b : N) : bool :=
  (second_lo lead <=? b) && (b <=? second_hi lead).

(** [b.decode('utf-8', errors='replace')]: every ill-formed sequence is
    replaced, as far as it is a prefix of a well-formed one, by one
    U+FFFD, and decoding goes on after it. *)
Fixpoint utf8_decode_replace (b : bytes) : pystr :=
  match b with
  | [] => []
  | b0 :: r =>
      if b0 <? 128 then b0 :: utf8_decode_replace r
      else if (194 <=? b0) && (b0 <=? 223) then
        match r with
        | b1 :: r1 =>
            if is_cont b1
            then (b0 - 192) * 64 + (b1 - 128) :: utf8_decode_replace r1
            else REPLACEMENT :: utf8_decode_replace r
        | [] => [REPLACEMENT]
        end
      else if (224 <=? b0) && (b0 <=? 239) then
        match r with
        | b1 :: r1 =>
            if second_ok b0 b1 then
              match r1 with
              | b2 :: r2 =>
                  if is_cont b2
                  then (b0 - 224) * 4096 + (b1 - 128) * 64 + (b2 - 128)
                       :: utf8_decode_replace r2
                  else REPLACEMENT :: utf8_decode_replace r1
              | [] => [REPLACEMENT]
              end
            else REPLACEMENT :: utf8_decode_replace r
        | [] => [REPLACEMENT]
        end
      else if (240 <=? b0) && (b0 <=? 244) then
        match r with
        | b1 :: r1 =>
            if second_ok b0 b1 then
              match r1 with
              | b2 :: r2 =>
                  if is_cont b2 then
                    match r2 with
                    | b3 :: r3 =>
                        if is_cont b3
                        then (b0 - 240) * 262144 + (b1 - 128) * 4096
                             + (b2 - 128) * 64 + (b3 - 128)
                             :: utf8_decode_replace r3
                        else REPLACEMENT :: utf8_decode_replace r2
                    | [] => [REPLACEMENT]
                    end
                  else REPLACEMENT :: utf8_decode_replace r1
              | [] => [REPLACEMENT]
              end
            else REPLACEMENT :: utf8_decode_replace r
        | [] => [REPLACEMENT]
        end
      else REPLACEMENT :: utf8_decode_replace r
  end.

Local Close Scope N_scope.

(** The [try]/[except ValueError] chain of the source.  A value that is
    not a string and not falsy reaches [bytes.fromhex], which refuses it
    with a [TypeError] that nothing catches. *)
Definition decode_hex_or_base64 (encoded_str : json) : result pystr :=
  if negb (py_truthy encoded_str) then Ok []
  else
    match encoded_str with
    | JStr s =>
        match fromhex s with
        | Some decoded_bytes => Ok (utf8_decode_replace decoded_bytes)
        | None =>
            match b64decode s with
            | Some decoded_bytes => Ok (utf8_decode_replace decoded_bytes)
            | None => Ok s
            end
        end
    | _ => Raise TypeError
    end.

(** ["\n".join(parts)] *)
Fixpoint join_newline (parts : list pystr) : pystr :=
  match parts with
  | [] => []
  | [p] => p
  | p :: rest => p ++ 10%N :: join_newline rest
  end.

Fixpoint decode_memos (entries : list json) : result (list pystr) :=
  match entries with
  | [] => Ok []
  | memo_entry :: rest =>
      memo <- py_get memo_entry (str "Memo") (JObj []) ;;
      memo_data_raw <- py_get memo (str "MemoData") (JStr []) ;;
      memo_data <- decode_hex_or_base64 memo_data_raw ;;
      decoded_memos <- decode_memos rest ;;
      Ok (memo_data :: decoded_memos)
  end.

Definition extract_memos (transaction : json) : result pystr :=
  memos <- py_get transaction (str "Memos") (JArr []) ;;
  if negb (py_truthy memos) then Ok []
  else
    entries <- py_iter memos ;;
    decoded_memos <- decode_memos entries ;;
    Ok (join_newline decoded_memos).

(* ------------------------------------------------------------------ *)
(** ** Date and time                                                    *)
(* ------------------------------------------------------------------ *)

(** A naive [datetime.datetime]. *)
Record datetime : Type := mk_datetime {
  year : Z; month : Z; day : Z;
  hour : Z; minute : Z; second : Z; microsecond : Z
}.

Definition is_leap (y : Z) : bool :=
  (y mod 4 =? 0) && (negb (y mod 100 =? 0) || (y mod 400 =? 0)).

(** Days before the first of a month in a common year. *)
Definition DAYS_BEFORE_MONTH (m : Z) : Z :=
  nth (Z.to_nat m) [0; 0; 31; 59; 90; 120; 151; 181; 212; 243; 273; 304; 334] 0.

Definition DAYS_IN_MONTH (m : Z) : Z :=
  nth (Z.to_nat m) [0; 31; 28; 31; 30; 31; 30; 31; 31; 30; 31; 30; 31] 0.

Definition DI400Y : Z := 146097.
Definition DI100Y : Z := 36524.
Definition DI4Y : Z := 1461.

(** The date with proleptic Gregorian ordinal [n], 1 being 0001-01-01;
    the algorithm of the [datetime] module. *)
Definition ord2ymd (n : Z) : Z * Z * Z :=
  let n := n - 1 in
  let n400 := n / DI400Y in
  let n := n mod DI400Y in
  let n100 := n / DI100Y in
  let n := n mod DI100Y in
  let n4 := n / DI4Y in
  let n := n mod DI4Y in
  let n1 := n / 365 in
  let n := n mod 365 in
  let y := n400 * 400 + 1 + n100 * 100 + n4 * 4 + n1 in
  if (n1 =? 4) || (n100 =? 4) then (y - 1, 12, 31)
  else
    let leapyear := (n1 =? 3) && (negb (n4 =? 24) || (n100 =? 3)) in
    let mth := Z.shiftr (n + 50) 5 in
    let preceding :=
      DAYS_BEFORE_MONTH mth + (if (2 <? mth) && leapyear then 1 else 0) in
    if n <? preceding then
      let mth' := mth - 1 in
      let preceding' :=
        preceding
        - (DAYS_IN_MONTH mth' + (if (mth' =? 2) && leapyear then 1 else 0)) in
      (y, mth', n - preceding' + 1)
    else (y, mth, n - preceding + 1).

(** Ordinal of the Unix epoch, 1970-01-01. *)
Definition EPOCH_ORDINAL : Z := 719163.

(** [datetime.datetime.utcfromtimestamp(ts)] for an integer: a value
    outside the platform's [time_t] is an [OverflowError], a year the C
    library cannot hold an [OSError], a year outside 1..9999 a
    [ValueError]. *)
Definition utcfromtimestamp (ts : Z) : result datetime :=
  if (ts <? - 2 ^ 63) || (2 ^ 63 <=? ts) then Raise OverflowError
  else
    let days := ts / 86400 in
    let secs := ts mod 86400 in
    let '(y, m, d) := ord2ymd (days + EPOCH_ORDINAL) in
    if (y - 1900 <? - 2 ^ 31) || (2 ^ 31 <=? y - 1900) then Raise OSError
    else if (y <? 1) || (9999 <? y) then Raise ValueError
    else Ok (mk_datetime y m d (secs / 3600) (secs mod 3600 / 60) (secs mod 60) 0).

(** [ripple_time + 946684800]: defined on integers (and booleans, which
    are integers); other operands are a [TypeError]. *)
Definition ripple_to_unix_time (ripple_time : json) : result Z :=
  match int_value ripple_time with
  | Some t => Ok (t + 946684800)
  | None => Raise TypeError
  end.

Definition get_ripple_datetime (ripple_time : json) : result datetime :=
  unix_ts <- ripple_to_unix_time ripple_time ;;
  utcfromtimestamp unix_ts.

(* ------------------------------------------------------------------ *)
(** ** Storage                                                          *)
(* ------------------------------------------------------------------ *)

(** Modelled from the spec: the table [pft_transactions], whose
    declaration is not part of the sources.  Its columns and their types
    are those of the specification's data model; [transaction_hash]
    carries the unique index that [ON CONFLICT (transaction_hash)] needs,
    and [amount] is the BIGINT the script's comment names. *)
Record row : Type := mk_row {
  ledger_index : Z;
  transaction_hash : pystr;
  from_address : pystr;
  to_address : pystr;
  memo : pystr;
  amount : Z;
  transaction_timestamp : option datetime
}.

Definition table := list row.

(** A connection with [autocommit] off: what is committed, and what the
    open transaction sees. *)
Record connection : Type := mk_connection {
  committed : table;
  session : table
}.

Definition connect (storage : table) : connection :=
  mk_connection storage storage.

Definition commit (conn : connection) : connection :=
  mk_connection (session conn) (session conn).

Definition rollback (conn : connection) : connection :=
  mk_connection (committed conn) (committed conn).

(** [SELECT MAX(ledger_index)]: NULL on no rows. *)
Fixpoint select_max_ledger_index (t : table) : option Z :=
  match t with
  | [] => None
  | r :: rest =>
      match select_max_ledger_index rest with
      | None => Some (ledger_index r)
      | Some m => Some (Z.max (ledger_index r) m)
      end
  end.

Definition get_last_stored_ledger_index (conn : connection) : Z :=
  match select_max_ledger_index (session conn) with
  | Some m => m
  | None => -1
  end.

(** Modelled from the spec: how a parameter reaches a column of the table
    above.  An integer column takes an integer, a text column a string
    the database can store (no NUL, no lone surrogate); a parameter of
    another Python type, or an amount beyond BIGINT, makes the statement
    fail. *)
Definition sql_integer (v : json) : option Z :=
  match v with
  | JNum n => Some n
  | _ => None
  end.

Definition storable_char (c : N) : bool :=
  negb (c =? 0)%N && negb ((55296 <=? c)%N && (c <=? 57343)%N).

Definition sql_text (v : json) : option pystr :=
  match v with
  | JStr s => if forallb storable_char s then Some s else None
  | _ => None
  end.

Definition bigint (n : Z) : bool := (- 2 ^ 63 <=? n) && (n <? 2 ^ 63).

Definition bind_row (ledger_index tx_hash from_address to_address : json)
    (memo : pystr) (amount_int : Z) (tx_datetime : option datetime)
  : option row :=
  match sql_integer ledger_index, sql_text tx_hash,
        sql_text from_address, sql_text to_address, sql_text (JStr memo) with
  | Some li, Some h, Some f, Some t, Some m =>
      if bigint amount_int then Some (mk_row li h f t m amount_int tx_datetime)
      else None
  | _, _, _, _, _ => None
  end.

Definition has_hash (h : pystr) (t : table) : bool :=
  existsb (fun r => pystr_eqb (transaction_hash r) h) t.

(** [INSERT ... ON CONFLICT (transaction_hash) DO NOTHING], inside the
    open transaction; nothing is committed here. *)
Definition insert_transaction (conn : connection)
    (ledger_index tx_hash from_address to_address : json)
    (memo : pystr) (amount_int : Z) (tx_datetime : option datetime)
  : result connection :=
  match bind_row ledger_index tx_hash from_address to_address
                 memo amount_int tx_datetime with
  | None => Raise DatabaseError
  | Some r =>
      if has_hash (transaction_hash r) (session conn) then Ok conn
      else Ok (mk_connection (committed conn) (session conn ++ [r]))
  end.

(* ------------------------------------------------------------------ *)
(** ** Floating point, as far as [int(float(value_str))] needs it      *)
(* ------------------------------------------------------------------ *)

(** A binary64 value: a finite one is [m * 2^e], kept exactly. *)
Inductive pyfloat : Type :=
| FFinite (m e : Z)
| FInf (negative : bool)
| FNaN.

(** The binary64 value nearest to [num / den] (ties to even), for
    [0 <= num] and [0 < den]; a magnitude that rounds to [2^1024] or more
    is an infinity. *)
Definition round_binary64 (negative : bool) (num den : Z) : pyfloat :=
  if num =? 0 then FFinite 0 0
  else
    let e0 := Z.log2 num - Z.log2 den in
    let above :=
      if 0 <=? e0 then den * 2 ^ e0 <=? num else den <=? num * 2 ^ (- e0) in
    let e := if above then e0 else e0 - 1 in
    let q := Z.max (e - 52) (-1074) in
    let n' := if 0 <=? q then num else num * 2 ^ (- q) in
    let d' := if 0 <=? q then den * 2 ^ q else den in
    let fl := n' / d' in
    let rem := n' mod d' in
    let m :=
      if 2 * rem <? d' then fl
      else if d' <? 2 * rem then fl + 1
      else if Z.even fl then fl else fl + 1 in
    if (971 <? q) || ((q =? 971) && (2 ^ 53 <=? m)) then FInf negative
    else FFinite (if negative then - m else m) q.

Section Interpreter.

(** The interpreter's Unicode database: the decimal digit value of a
    character outside ASCII, if it has one ([Py_UNICODE_TODECIMAL]). *)
Variable unicode_decimal : N -> option N.

Local Open Scope N_scope.

(** [Py_UNICODE_ISSPACE] above ASCII. *)
Definition unicode_isspace (c : N) : bool :=
  (c =? 133) || (c =? 160) || (c =? 5760)
  || ((8192 <=? c) && (c <=? 8202))
  || (c =? 8232) || (c =? 8233) || (c =? 8239) || (c =? 8287)
  || (c =? 12288).

(** What [float] does to a character before parsing: ASCII stays, other
    white space becomes a space, another decimal digit its ASCII digit,
    anything else a question mark (which no number contains). *)
Definition to_ascii_char (c : N) : N :=
  if c <? 128 then c
  else if unicode_isspace c then 32
  else
    match unicode_decimal c with
    | Some d => if d <? 10 then 48 + d else 63
    | None => 63
    end.

Definition is_digit (c : N) : bool := (48 <=? c) && (c <=? 57).

(** Underscores may only stand between two digits; [prev] is the
    character before. The result is the text without them. *)
Fixpoint strip_underscores (prev : N) (s : pystr) : option pystr :=
  match s with
  | [] => if prev =? 95 then None else Some []
  | c :: rest =>
      if c =? 95 then
        if is_digit prev then strip_underscores c rest else None
      else if (prev =? 95) && negb (is_digit c) then None
      else
        match strip_underscores c rest with
        | Some out => Some (c :: out)
        | None => None
        end
  end.

Fixpoint lstrip (s : pystr) : pystr :=
  match s with
  | c :: rest => if py_isspace c then lstrip rest else s
  | [] => []
  end.

Definition strip (s : pystr) : pystr := rev (lstrip (rev (lstrip s))).

(** Leading decimal digits, most significant first, and what follows. *)
Fixpoint take_digits (s : pystr) : list N * pystr :=
  match s with
  | c :: rest =>
      if is_digit c
      then let (ds, tl) := take_digits rest in (c - 48 :: ds, tl)
      else ([], s)
  | [] => ([], [])
  end.

Definition take_sign (s : pystr) : bool * pystr :=
  match s with
  | 45 :: rest => (true, rest)
  | 43 :: rest => (false, rest)
  | _ => (false, s)
  end.

Definition digits_value (ds : list N) : Z :=
  fold_left (fun acc d => (10 * acc + Z.of_N d)%Z) ds 0%Z.

Definition to_lower (c : N) : N :=
  if (65 <=? c) && (c <=? 90) then c + 32 else c.

Local Close Scope N_scope.

(** A decimal literal: digits with at most one point and at least one
    digit, then an optional exponent that has digits. *)
Definition parse_decimal (s : pystr) : option pyfloat :=
  let (negative, s1) := take_sign s in
  let (int_part, s2) := take_digits s1 in
  let (frac_part, s3) :=
    match s2 with
    | 46%N :: after => take_digits after
    | _ => ([], s2)
    end in
  match int_part ++ frac_part with
  | [] => None
  | mantissa =>
      let exponent :=
        match s3 with
        | [] => Some 0
        | c :: s4 =>
            if (c =? 101)%N || (c =? 69)%N then
              let (eneg, s5) := take_sign s4 in
              match take_digits s5 with
              | ([], _) => None
              | (ds, []) =>
                  Some (if eneg then - digits_value ds else digits_value ds)
              | (_, _ :: _) => None
              end
            else None
        end in
      match exponent with
      | None => None
      | Some x =>
          let d := digits_value mantissa in
          let e10 := x - Z.of_nat (List.length frac_part) in
          Some (if 0 <=? e10
                then round_binary64 negative (d * 10 ^ e10) 1
                else round_binary64 negative d (10 ^ (- e10)))
      end
  end.

(** [inf], [infinity] and [nan], signed, in any letter case. *)
Definition parse_inf_or_nan (s : pystr) : option pyfloat :=
  let (negative, s1) := take_sign s in
  let low := map to_lower s1 in
  if pystr_eqb low (str "inf") || pystr_eqb low (str "infinity")
  then Some (FInf negative)
  else if pystr_eqb low (str "nan") then Some FNaN
  else None.

(** [float(s)] for a string; [None] is its [ValueError]. *)
Definition float_of_str (s : pystr) : option pyfloat :=
  match strip_underscores 0%N (map to_ascii_char s) with
  | None => None
  | Some t =>
      let body := strip t in
      match parse_decimal body with
      | Some f => Some f
      | None => parse_inf_or_nan body
      end
  end.

(** [float(v)] *)
Definition py_float (v : json) : result pyfloat :=
  match v with
  | JStr s =>
      match float_of_str s with
      | Some f => Ok f
      | None => Raise ValueError
      end
  | JNum n =>
      match round_binary64 (n <? 0) (Z.abs n) 1 with
      | FInf _ => Raise OverflowError
      | f => Ok f
      end
  | JBool b => Ok (FFinite (if b then 1 else 0) 0)
  | _ => Raise TypeError
  end.

(** [int(f)]: the fraction is cut off, towards zero. *)
Definition py_int (f : pyfloat) : result Z :=
  match f with
  | FFinite m e => Ok (if 0 <=? e then m * 2 ^ e else Z.quot m (2 ^ (- e)))
  | FInf _ => Raise OverflowError
  | FNaN => Raise ValueError
  end.

(** The [try: int(float(value_str)) except ValueError: 0] of [main]. *)
Definition convert_amount (value_str : json) : result Z :=
  match (f <- py_float value_str ;; py_int f) with
  | Raise ValueError => Ok 0
  | r => r
  end.

(* ------------------------------------------------------------------ *)
(** ** Fetching and the main loop                                       *)
(* ------------------------------------------------------------------ *)

(** The remote ledger interface: [requests.post(XRPL_RPC_URL,
    json=request_body, timeout=20).json()], the parsed reply to a request
    or the exception the HTTP layer raises. *)
Variable post : json -> result json.

Definition request_body (account : pystr) (ledger_index_min limit : Z)
    (marker : json) : json :=
  let params :=
    [ (str "account", JStr account);
      (str "ledger_index_min", JNum ledger_index_min);
      (str "ledger_index_max", JNum (-1));
      (str "limit", JNum limit) ] in
  JObj [ (str "method", JStr (str "account_tx"));
         (str "params",
          JArr [ JObj (if py_truthy marker
                       then params ++ [(str "marker", marker)]
                       else params) ]) ].

Definition fetch_account_transactions (account : pystr)
    (ledger_index_min limit : Z) (marker : json) : result (json * json) :=
  response_json <- post (request_body account ledger_index_min limit marker) ;;
  present <- py_contains (str "result") response_json ;;
  if negb present then Raise (Exception response_json)
  else
    res <- py_getitem response_json (str "result") ;;
    txs <- py_get res (str "transactions") (JArr []) ;;
    next_marker <- py_get res (str "marker") JNull ;;
    Ok (txs, next_marker).

(** The body of [for entry in transactions_batch]. *)
Definition main_entry (conn : connection) (highest_ledger_this_run : Z)
    (entry : json) : result (connection * Z) :=
  tx <- py_get entry (str "tx") (JObj []) ;;
  meta <- py_get entry (str "meta") (JObj []) ;;
  ledger_index_tx <- py_get tx (str "ledger_index") (JNum 0) ;;
  higher <- py_gt_int ledger_index_tx highest_ledger_this_run ;;
  let highest_ledger_this_run :=
    if higher then
      match int_value ledger_index_tx with
      | Some n => n
      | None => highest_ledger_this_run
      end
    else highest_ledger_this_run in
  matches <- is_token_payment tx CURRENCY_CODE ISSUER_ADDRESS ;;
  if matches then
    from_addr <- py_get tx (str "Account") (JStr []) ;;
    to_addr <- py_get tx (str "Destination") (JStr []) ;;
    tx_hash <- py_get tx (str "hash") (JStr []) ;;
    amount <- py_get tx (str "Amount") (JObj []) ;;
    value_str <- (if isinstance_dict amount
                  then py_get amount (str "value") (JStr (str "0"))
                  else Ok amount) ;;
    amount_int <- convert_amount value_str ;;
    ripple_time <- py_get tx (str "date") JNull ;;
    tx_datetime <- match ripple_time with
                   | JNull => Ok None
                   | _ => dt <- get_ripple_datetime ripple_time ;; Ok (Some dt)
                   end ;;
    memo_str <- extract_memos tx ;;
    conn <- insert_transaction conn ledger_index_tx tx_hash from_addr to_addr
                               memo_str amount_int tx_datetime ;;
    Ok (conn, highest_ledger_this_run)
  else Ok (conn, highest_ledger_this_run).

Fixpoint main_batch (conn : connection) (highest_ledger_this_run : Z)
    (entries : list json) : result (connection * Z) :=
  match entries with
  | [] => Ok (conn, highest_ledger_this_run)
  | entry :: rest =>
      st <- main_entry conn highest_ledger_this_run entry ;;
      main_batch (fst st) (snd st) rest
  end.

(** State of a run between two pages. *)
Record loop_state : Type := mk_state {
  conn : connection;
  marker : json;
  highest_ledger_this_run : Z;
  posted : list json
}.

Inductive outcome : Type :=
| Completed
| Aborted (e : exn)
| Unfinished.

Definition DEFAULT_LIMIT : Z := 1000.

(** The [while True] loop, for at most [fuel] pages.  An exception ends
    the process: what the open transaction held is lost, what earlier
    pages committed stays. *)
Fixpoint main_loop (fuel : nat) (ledger_index_min : Z) (st : loop_state)
  : outcome * loop_state :=
  match fuel with
  | O => (Unfinished, st)
  | S fuel' =>
      let req :=
        request_body ACCOUNT_TO_CHECK ledger_index_min DEFAULT_LIMIT
                     (marker st) in
      let failed e :=
        (Aborted e,
         mk_state (rollback (conn st)) (marker st)
                  (highest_ledger_this_run st) (posted st ++ [req])) in
      match fetch_account_transactions ACCOUNT_TO_CHECK ledger_index_min
                                       DEFAULT_LIMIT (marker st) with
      | Raise e => failed e
      | Ok (transactions_batch, next_marker) =>
          match (entries <- py_iter transactions_batch ;;
                 main_batch (conn st) (highest_ledger_this_run st) entries) with
          | Raise e => failed e
          | Ok (conn', highest') =>
              let st' :=
                mk_state (commit conn') next_marker highest'
                         (posted st ++ [req]) in
              if negb (py_truthy next_marker) then (Completed, st')
              else main_loop fuel' ledger_index_min st'
          end
      end
  end.

Definition main (fuel : nat) (storage : table) : outcome * loop_state :=
  let conn := connect storage in
  let last_ledger_index := get_last_stored_ledger_index conn in
  let ledger_index_min := last_ledger_index + 1 in
  main_loop fuel ledger_index_min
            (mk_state conn JNull ledger_index_min []).

(** What the database holds once the process has ended. *)
Definition storage_after (r : outcome * loop_state) : table :=
  committed (conn (snd r)).

(* ------------------------------------------------------------------ *)
(** ** The loop body, read as a function of the entry alone            *)
(* ------------------------------------------------------------------ *)

(** The row the matched branch of [main_entry] hands to the database:
    the same steps in the same order, up to the binding of parameters. *)
Definition tx_row (tx : json) : result row :=
  ledger_index_tx <- py_get tx (str "ledger_index") (JNum 0) ;;
  from_addr <- py_get tx (str "Account") (JStr []) ;;
  to_addr <- py_get tx (str "Destination") (JStr []) ;;
  tx_hash <- py_get tx (str "hash") (JStr []) ;;
  amount <- py_get tx (str "Amount") (JObj []) ;;
  value_str <- (if isinstance_dict amount
                then py_get amount (str "value") (JStr (str "0"))
                else Ok amount) ;;
  amount_int <- convert_amount value_str ;;
  ripple_time <- py_get tx (str "date") JNull ;;
  tx_datetime <- match ripple_time with
                 | JNull => Ok None
                 | _ => dt <- get_ripple_datetime ripple_time ;; Ok (Some dt)
                 end ;;
  memo_str <- extract_memos tx ;;
  match bind_row ledger_index_tx tx_hash from_addr to_addr
                 memo_str amount_int tx_datetime with
  | Some r => Ok r
  | None => Raise DatabaseError
  end.

(** What an entry asks of the database: nothing, or the insertion of a
    row; or the exception it ends the run with. *)
Definition entry_effect (entry : json) : result (option row) :=
  tx <- py_get entry (str "tx") (JObj []) ;;
  meta <- py_get entry (str "meta") (JObj []) ;;
  ledger_index_tx <- py_get tx (str "ledger_index") (JNum 0) ;;
  higher <- py_gt_int ledger_index_tx 0 ;;
  matches <- is_token_payment tx CURRENCY_CODE ISSUER_ADDRESS ;;
  if matches then r <- tx_row tx ;; Ok (Some r) else Ok None.

Definition insert_row (conn : connection) (r : row) : connection :=
  if has_hash (transaction_hash r) (session conn) then conn
  else mk_connection (committed conn) (session conn ++ [r]).

Definition apply_effect (conn : connection) (eff : option row) : connection :=
  match eff with
  | Some r => insert_row conn r
  | None => conn
  end.

(** The entries a run with lower bound [ledger_index_min] is served,
    page after page from [marker] on, for at most [fuel] pages. *)
Fixpoint fetched (fuel : nat) (ledger_index_min : Z) (marker : json)
  : list json :=
  match fuel with
  | O => []
  | S fuel' =>
      match fetch_account_transactions ACCOUNT_TO_CHECK ledger_index_min
                                       DEFAULT_LIMIT marker with
      | Raise _ => []
      | Ok (transactions_batch, next_marker) =>
          match py_iter transactions_batch with
          | Raise _ => []
          | Ok entries =>
              entries ++
              (if py_truthy next_marker
               then fetched fuel' ledger_index_min next_marker
               else [])
          end
      end
  end.

(** The lower bound a run started on [storage] uses. *)
Definition lower_bound (storage : table) : Z :=
  get_last_stored_ledger_index (connect storage) + 1.

(* ------------------------------------------------------------------ *)
(** ** Vocabulary of the properties                                     *)
(* ------------------------------------------------------------------ *)

(** The three conditions of the filter, on the transaction's members. *)
Definition token_payment (tx : json) (currency_code issuer : pystr) : Prop :=
  exists members amount,
    tx = JObj members /\
    lookup (str "TransactionType") members = Some (JStr (str "Payment")) /\
    lookup (str "Amount") members = Some (JObj amount) /\
    lookup (str "issuer") amount = Some (JStr issuer) /\
    lookup (str "currency") amount = Some (JStr currency_code).

Definition new_highest (h : Z) (entry : json) : Z :=
  match (tx <- py_get entry (str "tx") (JObj []) ;;
         py_get tx (str "ledger_index") (JNum 0)) with
  | Ok v =>
      match int_value v with
      | Some n => if h <? n then n else h
      | None => h
      end
  | Raise _ => h
  end.

Definition synced (st : loop_state) : Prop :=
  session (conn st) = committed (conn st).

(** Where the rows of a table come from: the table before, or a served
    entry whose transaction passes the filter. *)
Definition provenance (es : list json) (t t' : table) : Prop :=
  forall r, In r t' ->
    In r t \/
    exists e tx,
      In e es /\ py_get e (str "tx") (JObj []) = Ok tx /\
      token_payment tx CURRENCY_CODE ISSUER_ADDRESS /\ tx_row tx = Ok r.

Definition unique_hashes (t : table) : Prop :=
  NoDup (map transaction_hash t).

Definition hashless (r : row) : bool := pystr_eqb (transaction_hash r) [].

(** An entry is absorbed by a table when it is processed without error
    and the row it asks for, if any, has its hash in the table. *)
Definition absorbed (t : table) (e : json) : Prop :=
  exists eff, entry_effect e = Ok eff /\
    forall r, eff = Some r -> has_hash (transaction_hash r) t = true.

(** The steps of [tx_row], named. *)
Definition value_of (am : json) : result json :=
  if isinstance_dict am then py_get am (str "value") (JStr (str "0"))
  else Ok am.

Definition datetime_of (rt : json) : result (option datetime) :=
  match rt with
  | JNull => Ok None
  | _ => dt <- get_ripple_datetime rt ;; Ok (Some dt)
  end.

(** The fallback chain in the specification's words: hexadecimal first,
    then base64, then the string itself. *)
Definition decoded_text (s : pystr) : pystr :=
  match fromhex s with
  | Some b => utf8_decode_replace b
  | None =>
      match b64decode s with
      | Some b => utf8_decode_replace b
      | None => s
      end
  end.

(** A memo entry that carries the data string [s]. *)
Definition memo_entry_with (e : json) (s : pystr) : Prop :=
  exists em mm,
    e = JObj em /\ lookup (str "Memo") em = Some (JObj mm) /\
    lookup (str "MemoData") mm = Some (JStr s).

(** [a] is the finite binary64 value [m * 2^e] with its fraction cut
    off: equal to it when it is whole, else the integer next to it on the
    side of zero. *)
Definition truncation_of (m e a : Z) : Prop :=
  (0 <= e -> a = m * 2 ^ e) /\
  (e < 0 ->
   Z.abs a * 2 ^ (- e) <= Z.abs m < (Z.abs a + 1) * 2 ^ (- e) /\
   0 <= a * m).

(** The calendar read backwards: the ordinal of a date, and from it the
    seconds a datetime lies after 1970-01-01T00:00:00 UTC. *)
Definition days_before_year (y : Z) : Z :=
  (y - 1) * 365 + (y - 1) / 4 - (y - 1) / 100 + (y - 1) / 400.

Definition days_before_month (y m : Z) : Z :=
  DAYS_BEFORE_MONTH m + (if (2 <? m) && is_leap y then 1 else 0).

Definition days_in_month (y m : Z) : Z :=
  if (m =? 2) && is_leap y then 29 else DAYS_IN_MONTH m.

Definition ymd2ord (y m d : Z) : Z :=
  days_before_year y + days_before_month y m + d.

Definition unix_seconds (dt : datetime) : Z :=
  (ymd2ord (year dt) (month dt) (day dt) - EPOCH_ORDINAL) * 86400
  + hour dt * 3600 + minute dt * 60 + second dt.

Definition valid_datetime (dt : datetime) : Prop :=
  1 <= month dt <= 12 /\
  1 <= day dt <= days_in_month (year dt) (month dt) /\
  0 <= hour dt < 24 /\ 0 <= minute dt < 60 /\ 0 <= second dt < 60 /\
  microsecond dt = 0.

Fixpoint all_from (k : nat) (z : Z) (p : Z -> bool) : bool :=
  match k with
  | O => true
  | S k' => p z && all_from k' (z + 1) p
  end.

(** One day of the 400-year cycle that starts at ordinal 1. *)
Definition cycle_day_ok (r : Z) : bool :=
  let '(y, m, d) := ord2ymd (r + 1) in
  (ymd2ord y m d =? r + 1) && (1 <=? m) && (m <=? 12) && (1 <=? d)
  && (d <=? days_in_month y m).

(** One turn of the loop: fetch a page, process it, commit. *)
Definition main_page (lo : Z) (st : loop_state) : result loop_state :=
  page <- fetch_account_transactions ACCOUNT_TO_CHECK lo DEFAULT_LIMIT
                                     (marker st) ;;
  entries <- py_iter (fst page) ;;
  done <- main_batch (conn st) (highest_ledger_this_run st) entries ;;
  Ok (mk_state (commit (fst done)) (snd page) (snd done)
        (posted st ++
         [request_body ACCOUNT_TO_CHECK lo DEFAULT_LIMIT (marker st)])).

Definition failed_state (lo : Z) (st : loop_state) : loop_state :=
  mk_state (rollback (conn st)) (marker st) (highest_ledger_this_run st)
    (posted st ++
     [request_body ACCOUNT_TO_CHECK lo DEFAULT_LIMIT (marker st)]).

(** The loop goes through [n] pages from a state and stops in another:
    every page but the last comes with a truthy marker, the last with a
    falsy one. *)
Inductive paginates (lo : Z) : loop_state -> nat -> loop_state -> Prop :=
| paginates_last (st st' : loop_state) :
    main_page lo st = Ok st' ->
    py_truthy (marker st') = false ->
    paginates lo st 1 st'
| paginates_more (st st1 : loop_state) (n : nat) (st' : loop_state) :
    main_page lo st = Ok st1 ->
    py_truthy (marker st1) = true ->
    paginates lo st1 n st' ->
    paginates lo st (S n) st'.

(** A reply that brings a continuation marker: its result has a
    [marker] member that is not null. *)
Definition carries_marker (reply : json) : Prop :=
  exists members res v,
    reply = JObj members /\
    lookup (str "result") members = Some (JObj res) /\
    lookup (str "marker") res = Some v /\ v <> JNull.

(** The claim as the specification words it: after a page that was
    processed, the loop ends exactly when the reply to that page's
    request carried no marker. *)
Definition stops_exactly_without_marker : Prop :=
  forall lo st st1 reply,
    main_page lo st = Ok st1 ->
    post (request_body ACCOUNT_TO_CHECK lo DEFAULT_LIMIT (marker st))
    = Ok reply ->
    ((exists st', main_loop 1 lo st = (Completed, st')) <->
     ~ carries_marker reply).

(** A reply without the result envelope: anything but an object with a
    [result] member. *)
Definition lacks_result (reply : json) : Prop :=
  match reply with
  | JObj members => lookup (str "result") members = None
  | _ => True
  end.

(* ------------------------------------------------------------------ *)
(** ** A small ledger and remotes to run against                        *)
(* ------------------------------------------------------------------ *)

(** A Unicode table with the Arabic-Indic digits only. *)
Definition sample_decimal (c : N) : option N :=
  if ((1632 <=? c) && (c <=? 1641))%N then Some (c - 1632)%N else None.

Definition token_amount (currency value : string) : json :=
  JObj [ (str "currency", JStr (str currency));
         (str "issuer", JStr ISSUER_ADDRESS);
         (str "value", JStr (str value)) ].

Definition memo_of (data : string) : json :=
  JObj [ (str "Memo", JObj [ (str "MemoData", JStr (str data)) ]) ].

(** An entry of an [account_tx] reply: a payment by the tracked issuer. *)
Definition payment (tx_hash : option string) (ledger : Z)
    (currency value : string) (date : option Z) (memos : list string) : json :=
  JObj [ (str "meta", JObj []);
         (str "tx",
          JObj ([ (str "TransactionType", JStr (str "Payment"));
                  (str "Account", JStr ISSUER_ADDRESS);
                  (str "Destination", JStr (str "rDestination"));
                  (str "Amount", token_amount currency value);
                  (str "ledger_index", JNum ledger);
                  (str "Memos", JArr (map memo_of memos)) ]
                ++ match tx_hash with
                   | Some h => [ (str "hash", JStr (str h)) ]
                   | None => []
                   end
                ++ match date with
                   | Some t => [ (str "date", JNum t) ]
                   | None => []
                   end)) ].

Definition offer (ledger : Z) : json :=
  JObj [ (str "meta", JObj []);
         (str "tx",
          JObj [ (str "TransactionType", JStr (str "OfferCreate"));
                 (str "Account", JStr ISSUER_ADDRESS);
                 (str "hash", JStr (str "0FFE"));
                 (str "ledger_index", JNum ledger) ]) ].

Local Open Scope string_scope.

Definition sample_ledger : list json :=
  [ payment (Some "AA01") 5 "PFT" "123.99" (Some 0) ["48656c6c6f"];
    payment (Some "AA02") 5 "USD" "10" (Some 10) [];
    payment None 7 "PFT" "abc" None [];
    payment None 8 "PFT" "7" (Some 86400) ["SGk="; "plain text"];
    offer 9 ].

Definition overflow_ledger : list json :=
  [ payment (Some "AA01") 5 "PFT" "1" (Some 0) [];
    payment (Some "AA03") 6 "PFT" "1e999" (Some 0) [] ].

Local Close Scope string_scope.

Definition request_param (req : json) (key : string) : option json :=
  match req with
  | JObj m =>
      match lookup (str "params") m with
      | Some (JArr (JObj p :: _)) => lookup (str key) p
      | _ => None
      end
  | _ => None
  end.

Definition entry_ledger (e : json) : Z :=
  match e with
  | JObj m =>
      match lookup (str "tx") m with
      | Some (JObj t) =>
          match lookup (str "ledger_index") t with
          | Some (JNum n) => n
          | _ => 0
          end
      | _ => 0
      end
  | _ => 0
  end.

(** The entries of [ledger] from ledger index [lo] on. *)
Definition served_from (ledger : list json) (lo : Z) : list json :=
  filter (fun e => lo <=? entry_ledger e) ledger.

(** The marker after [k] entries: none before the first page. *)
Definition marker_of (k : nat) : json :=
  match k with
  | O => JNull
  | S _ => JNum (Z.of_nat k)
  end.

(** The page a range remote serves after [k] entries, and the marker it
    sends with it. *)
Definition page_at (ledger : list json) (page_size : nat) (lo : Z) (k : nat)
  : list json :=
  firstn page_size (skipn k (served_from ledger lo)).

Definition marker_after (ledger : list json) (page_size : nat) (lo : Z)
    (k : nat) : json :=
  match skipn page_size (skipn k (served_from ledger lo)) with
  | [] => JNull
  | _ :: _ => JNum (Z.of_nat (k + page_size))
  end.

(** A remote that holds [ledger] and answers a request with the entries
    from [ledger_index_min] on, [page_size] at a time; the marker is the
    number of entries already served. *)
Definition ledger_server (ledger : list json) (page_size : nat) (req : json)
  : result json :=
  let lo := match request_param req "ledger_index_min" with
            | Some (JNum n) => n
            | _ => 0
            end in
  let served := match request_param req "marker" with
                | Some (JNum k) => Z.to_nat k
                | _ => O
                end in
  let rest := skipn served (served_from ledger lo) in
  let more := match skipn page_size rest with
              | [] => []
              | _ :: _ => [ (str "marker", JNum (Z.of_nat (served + page_size))) ]
              end in
  Ok (JObj [ (str "result",
              JObj ((str "transactions", JArr (firstn page_size rest)) :: more)) ]).

(** A remote that serves its first page and then loses the envelope. *)
Definition failing_server (ledger : list json) (page_size : nat) (req : json)
  : result json :=
  match request_param req "marker" with
  | Some _ => Ok (JObj [ (str "error", JStr (str "slowDown")) ])
  | None => ledger_server ledger page_size req
  end.

(** A remote whose only page comes with an empty marker. *)
Definition empty_marker_server (req : json) : result json :=
  Ok (JObj [ (str "result",
              JObj [ (str "transactions", JArr []);
                     (str "marker", JObj []) ]) ]).

(* ------------------------------------------------------------------ *)
(** ** Vocabulary of the further properties                             *)
(* ------------------------------------------------------------------ *)

(** The ledger index [main] reads off an entry, when it is a number. *)
Definition entry_index (e : json) : option Z :=
  match (tx <- py_get e (str "tx") (JObj []) ;;
         py_get tx (str "ledger_index") (JNum 0)) with
  | Ok v => int_value v
  | Raise _ => None
  end.

(** What [highest_ledger_this_run] is after the entries [es], having been
    [h] before them. *)
Definition highest_of (h : Z) (es : list json) (h' : Z) : Prop :=
  h <= h' /\
  (forall e n, In e es -> entry_index e = Some n -> n <= h') /\
  (h' = h \/ exists e, In e es /\ entry_index e = Some h').


Local Open Scope N_scope.

(** The hexadecimal digit for [d], in the chosen letter case. *)
Definition hex_char (upper : bool) (d : N) : N :=
  if d <? 10 then 48 + d else (if upper then 55 else 87) + d.

(** Bytes written as hexadecimal text, two digits a byte. *)
Fixpoint hexlify (upper : bool) (b : bytes) : pystr :=
  match b with
  | [] => []
  | x :: rest =>
      hex_char upper (x / 16) :: hex_char upper (x mod 16)
      :: hexlify upper rest
  end.

(** UTF-8 of one code point, and of a text. *)
Definition utf8_encode_char (c : N) : bytes :=
  if c <? 128 then [c]
  else if c <? 2048 then [192 + c / 64; 128 + c mod 64]
  else if c <? 65536 then
    [224 + c / 4096; 128 + (c / 64) mod 64; 128 + c mod 64]
  else
    [240 + c / 262144; 128 + (c / 4096) mod 64; 128 + (c / 64) mod 64;
     128 + c mod 64].

Definition utf8_encode (s : pystr) : bytes := flat_map utf8_encode_char s.

(** A Unicode scalar value: a code point that is no surrogate. *)
Definition is_scalar (c : N) : bool :=
  (c <? 55296) || ((57344 <=? c) && (c <=? 1114111)).

Local Close Scope N_scope.

(** A memo entry and the data string it contributes: its [MemoData], or
    the empty string when the entry has no [Memo] or the memo no
    [MemoData]. *)
Definition memo_entry_data (e : json) (s : pystr) : Prop :=
  exists em,
    e = JObj em /\
    match lookup (str "Memo") em with
    | None => s = []
    | Some (JObj mm) =>
        match lookup (str "MemoData") mm with
        | None => s = []
        | Some (JStr d) => s = d
        | Some _ => False
        end
    | Some _ => False
    end.

(* ------------------------------------------------------------------ *)
(** ** The posting script [twitterbot.py]: the tweet text               *)
(* ------------------------------------------------------------------ *)

Local Open Scope N_scope.

(** Decimal digits of [n], most significant first; [fuel] bounds their
    number. *)
Fixpoint nat_digits (fuel : nat) (n : N) : pystr :=
  match fuel with
  | O => []
  | S fuel' =>
      if n <? 10 then [48 + n]
      else nat_digits fuel' (n / 10) ++ [48 + n mod 10]
  end.

Local Close Scope N_scope.

(** [str(z)] of an integer, as an f-string writes it. *)
Definition py_str_int (z : Z) : pystr :=
  match z with
  | Z0 => [48%N]
  | Zpos p => nat_digits (S (N.to_nat (N.log2 (Npos p)))) (Npos p)
  | Zneg p => 45%N :: nat_digits (S (N.to_nat (N.log2 (Npos p)))) (Npos p)
  end.

(** The text [create_tweet] assembles.  The emoji are single code
    points: U+1F680, U+2728, U+2705 and U+1F525. *)
Definition tweet_text (initiations tasks_completed pft_sum : Z) : pystr :=
  (128640%N :: str " Daily PFT Update!") ++ [10; 10]%N
  ++ (10024%N :: str " ") ++ py_str_int initiations
  ++ str " new initiations yesterday." ++ [10%N]
  ++ (9989%N :: str " ") ++ py_str_int tasks_completed
  ++ str " tasks were completed." ++ [10; 10]%N
  ++ (128293%N :: str " Total PFT for Completed Tasks: ")
  ++ py_str_int pft_sum ++ [10; 10]%N.

(** [create_tweet]: the numbers are integers, two counts and a sum the
    query has rounded. *)
Definition create_tweet (initiations tasks_completed : Z)
    (leaderboard_text : pystr) (pft_sum : Z) : pystr :=
  let tweet := tweet_text initiations tasks_completed pft_sum in
  if (280 <? length tweet)%nat then
    let excess_length := Z.of_nat (length tweet) - 280 in
    let buffer := 3 in
    let truncated_leaderboard_length :=
      Z.of_nat (length leaderboard_text) - excess_length - buffer in
    let tweet :=
      if 0 <? truncated_leaderboard_length then
        let truncated_leaderboard :=
          firstn (Z.to_nat truncated_leaderboard_length) leaderboard_text
          ++ str "..." in
        tweet_text initiations tasks_completed pft_sum
      else tweet in
    if (280 <? length tweet)%nat then firstn 277 tweet ++ str "..."
    else tweet
  else tweet.

(* ------------------------------------------------------------------ *)
(** ** The posting script: secrets, queries and the handler             *)
(* ------------------------------------------------------------------ *)

(** Exceptions of the posting script: the built-in ones of [exn], those
    of the libraries it calls, and a plain [Exception] with its text. *)
Inductive bot_exn : Type :=
| PyError (e : exn)
| ClientError
| TweepyException
| Forbidden
| PlainException (message : pystr).

Inductive attempt (A : Type) : Type :=
| Returned (a : A)
| Raised (e : bot_exn).
#[global] Arguments Returned {A} a.
#[global] Arguments Raised {A} e.

(** [except tweepy.TweepyException]: [Forbidden] is one of its
    subclasses. *)
Definition is_tweepy (e : bot_exn) : bool :=
  match e with
  | TweepyException | Forbidden => true
  | _ => false
  end.

Definition is_forbidden (e : bot_exn) : bool :=
  match e with
  | Forbidden => true
  | _ => false
  end.

Definition is_value_error (e : bot_exn) : bool :=
  match e with
  | PyError ValueError => true
  | _ => false
  end.

Definition of_result {A : Type} (r : result A) : attempt A :=
  match r with
  | Ok a => Returned a
  | Raise e => Raised (PyError e)
  end.

(** What Secrets Manager answers: the secret as a string or as bytes. *)
Record secret_response : Type := mk_secret_response {
  SecretString : option pystr;
  SecretBinary : option bytes
}.

(** A row of the leaderboard query. *)
Record leader : Type := mk_leader {
  user : option pystr;
  leader_tasks : Z;
  leader_pft : option Z
}.

(** What the three queries give: the count and the rounded sum of the
    first, the rows of the second, the count of the third. *)
Record answers : Type := mk_answers {
  q1_tasks_completed : Z;
  q1_pft : option Z;
  top_rows : list leader;
  q3_initiations : Z
}.

(** The services the script talks to.  Each call returns or raises.
    [connect_and_cursor] is [psycopg2.connect] followed by [conn.cursor],
    [run_queries] the three [execute] and fetch calls with the members
    read off their rows, [close] is [cursor.close()] followed by
    [conn.close()], [get_me] and [client_create_tweet] give the [errors]
    member of the client's response. *)
Record services : Type := mk_services {
  get_secret_value : pystr -> attempt secret_response;
  json_loads : pystr -> attempt json;
  connect_and_cursor : json -> attempt unit;
  run_queries : attempt answers;
  close : attempt unit;
  get_me : attempt json;
  client_create_tweet : pystr -> attempt json
}.

Local Open Scope N_scope.

(** [b.decode('utf-8')] without an error handler: the text, or [None]
    for its [UnicodeDecodeError]. *)
Fixpoint utf8_decode_strict (b : bytes) : option pystr :=
  let more (c : N) (r : bytes) :=
    match utf8_decode_strict r with
    | Some s => Some (c :: s)
    | None => None
    end in
  match b with
  | [] => Some []
  | b0 :: r =>
      if b0 <? 128 then more b0 r
      else if (194 <=? b0) && (b0 <=? 223) then
        match r with
        | b1 :: r1 =>
            if is_cont b1 then more ((b0 - 192) * 64 + (b1 - 128)) r1
            else None
        | [] => None
        end
      else if (224 <=? b0) && (b0 <=? 239) then
        match r with
        | b1 :: b2 :: r2 =>
            if second_ok b0 b1 && is_cont b2
            then more ((b0 - 224) * 4096 + (b1 - 128) * 64 + (b2 - 128)) r2
            else None
        | _ => None
        end
      else if (240 <=? b0) && (b0 <=? 244) then
        match r with
        | b1 :: b2 :: b3 :: r3 =>
            if second_ok b0 b1 && is_cont b2 && is_cont b3
            then more ((b0 - 240) * 262144 + (b1 - 128) * 4096
                       + (b2 - 128) * 64 + (b3 - 128)) r3
            else None
        | _ => None
        end
      else None
  end.

Local Close Scope N_scope.

Definition get_secret (sv : services) (secret_name : pystr) : attempt json :=
  match get_secret_value sv secret_name with
  | Raised e => Raised e
  | Returned get_secret_value_response =>
      match SecretString get_secret_value_response with
      | Some secret => json_loads sv secret
      | None =>
          match SecretBinary get_secret_value_response with
          | None => Raised (PyError KeyError)
          | Some binary =>
              match utf8_decode_strict binary with
              | Some decoded_binary_secret =>
                  json_loads sv decoded_binary_secret
              | None => Raised (PyError ValueError)
              end
          end
      end
  end.

(** The credentials as the script has them. *)
Definition consumer_key : pystr := [].
Definition consumer_secret : pystr := [].
Definition access_token : pystr := [].
Definition access_token_secret : pystr := [].

(** [authenticate_twitter]: the client is the unit value.  Both
    handlers raise again what they caught. *)
Definition authenticate_twitter (sv : services) : attempt unit :=
  let attempted :=
    if negb (forallb py_truthy
               [JStr consumer_key; JStr consumer_secret; JStr access_token;
                JStr access_token_secret])
    then Raised (PyError ValueError)
    else
      match get_me sv with
      | Raised e => Raised e
      | Returned errors =>
          if py_truthy errors
          then Raised (PlainException (str "Authentication failed"))
          else Returned tt
      end in
  match attempted with
  | Returned client => Returned client
  | Raised e =>
      if is_tweepy e then Raised e
      else if is_value_error e then Raised e
      else Raised e
  end.

(** [post_tweet], with the texts handed to the client so far. *)
Definition post_tweet (sv : services) (client : unit) (tweet_content : pystr)
  : attempt unit * list pystr :=
  let attempted :=
    match client_create_tweet sv tweet_content with
    | Raised e => Raised e
    | Returned errors =>
        if py_truthy errors
        then Raised (PlainException (str "Tweet posting failed"))
        else Returned tt
    end in
  (match attempted with
   | Returned u => Returned u
   | Raised e =>
       if is_forbidden e then Raised e
       else if is_tweepy e then Raised e
       else Raised e
   end, [tweet_content]).

(** What the handler returns. *)
Record response : Type := mk_response {
  statusCode : Z;
  body : pystr
}.

Definition NEON_SECRET_NAME : pystr := str "neon_db_pf".

(** [x if x else 0] on a count or a sum that may be NULL. *)
Definition or_zero (v : option Z) : Z :=
  match v with
  | Some n => if n =? 0 then 0 else n
  | None => 0
  end.

(** How an f-string writes a value that may be [None]. *)
Definition format_text (v : option pystr) : pystr :=
  match v with
  | Some s => s
  | None => str "None"
  end.

Definition format_number (v : option Z) : pystr :=
  match v with
  | Some n => py_str_int n
  | None => str "None"
  end.

Fixpoint leaderboard_lines (rank : Z) (rows : list leader) : list pystr :=
  match rows with
  | [] => []
  | row :: rest =>
      (py_str_int rank ++ str ") @" ++ format_text (user row)
       ++ str " | tasks: " ++ py_str_int (leader_tasks row)
       ++ str ", pft: " ++ format_number (leader_pft row))
      :: leaderboard_lines (rank + 1) rest
  end.

(** [lambda_handler]: the response or the exception that escapes, and
    the texts handed to the client for posting. *)
Definition lambda_handler (sv : services) : attempt response * list pystr :=
  match get_secret sv NEON_SECRET_NAME with
  | Raised _ =>
      (Returned (mk_response 500 (str "Secrets retrieval error")), [])
  | Returned neon_secrets =>
      match of_result (py_get neon_secrets (str "DB_CONN_STRING") JNull) with
      | Raised e => (Raised e, [])
      | Returned connection_string =>
          if negb (py_truthy connection_string) then
            (Returned (mk_response 500 (str "Invalid database secrets")), [])
          else
            match connect_and_cursor sv connection_string with
            | Raised _ =>
                (Returned (mk_response 500 (str "Database connection error")),
                 [])
            | Returned _ =>
                match run_queries sv with
                | Raised _ =>
                    match close sv with
                    | Raised e => (Raised e, [])
                    | Returned _ =>
                        (Returned
                           (mk_response 500 (str "Query execution error")),
                         [])
                    end
                | Returned rows =>
                    match close sv with
                    | Raised e => (Raised e, [])
                    | Returned _ =>
                    let tasks_completed :=
                      or_zero (Some (q1_tasks_completed rows)) in
                    let pft_sum := or_zero (q1_pft rows) in
                    let initiations :=
                      or_zero (Some (q3_initiations rows)) in
                    let leaderboard_text :=
                      join_newline (leaderboard_lines 1 (top_rows rows)) in
                    let tweet_text :=
                      create_tweet initiations tasks_completed
                                   leaderboard_text pft_sum in
                    match authenticate_twitter sv with
                    | Raised _ =>
                        (Returned
                           (mk_response 500
                              (str "Twitter authentication error")), [])
                    | Returned twitter_client =>
                        match post_tweet sv twitter_client tweet_text with
                        | (Returned _, posted) =>
                            (Returned
                               (mk_response 200
                                  (str "Tweet posted successfully")), posted)
                        | (Raised e, posted) =>
                            if is_forbidden e then
                              (Returned
                                 (mk_response 403
                                    (str "Forbidden: Insufficient permissions to post tweets.")),
                               posted)
                            else if is_tweepy e then
                              (Returned
                                 (mk_response 500 (str "Error posting tweet")),
                               posted)
                            else (Raised e, posted)
                        end
                    end
                    end
                end
            end
      end
  end.

(* ------------------------------------------------------------------ *)
(** ** Sample remotes and services                                      *)
(* ------------------------------------------------------------------ *)

(** A remote that answers every request with an error inside the
    envelope, as the ledger does for an account it does not know. *)
Definition error_reply_server (req : json) : result json :=
  Ok (JObj [ (str "result",
              JObj [ (str "error", JStr (str "actNotFound"));
                     (str "status", JStr (str "error")) ]) ]).

(** Services in which everything works: the secret is held as bytes,
    the loader reads every text as the object with that connection
    string, and the queries found two tasks. *)
Definition sample_services : services :=
  mk_services
    (fun _ => Returned (mk_secret_response None
                          (Some (utf8_encode (str "postgres://db")))))
    (fun text => Returned (JObj [ (str "DB_CONN_STRING", JStr text) ]))
    (fun _ => Returned tt)
    (Returned (mk_answers 2 (Some 300)
                 [ mk_leader (Some (str "rUser")) 2 (Some 300) ] 1))
    (Returned tt)
    (Returned JNull)
    (fun _ => Returned JNull).

(* ================================================================== *)
(** * Properties                                                        *)
(* ================================================================== *)

Lemma pystr_eqb_eq (a b : pystr) : pystr_eqb a b = true <-> a = b.
Proof.
  revert b; induction a as [|x a IH]; intros [|y b]; simpl;
    try (split; (discriminate || reflexivity)).
  rewrite andb_true_iff, N.eqb_eq, IH. split.
  - intros [-> ->]; reflexivity.
  - intros E; injection E; auto.
Qed.

Lemma pystr_eqb_refl (a : pystr) : pystr_eqb a a = true.
Proof. apply pystr_eqb_eq; reflexivity. Qed.

Lemma py_eq_str_true (v : json) (s : pystr) :
  py_eq_str v s = true <-> v = JStr s.
Proof.
  destruct v; simpl; try (split; (discriminate || reflexivity)).
  rewrite pystr_eqb_eq. split; [intros ->; reflexivity | intros E; injection E; auto].
Qed.

(** ** The payment filter *)

Lemma is_token_payment_true (tx : json) (c i : pystr) :
  is_token_payment tx c i = Ok true <-> token_payment tx c i.
Proof.
  unfold is_token_payment, token_payment. split.
  - destruct tx as [| | | | |members]; simpl; try discriminate.
    destruct (lookup (str "TransactionType") members) as [ty|] eqn:Ety;
      [|simpl; discriminate].
    destruct (py_eq_str ty (str "Payment")) eqn:Epay; simpl; [|discriminate].
    apply py_eq_str_true in Epay; subst ty.
    destruct (lookup (str "Amount") members) as [[| | | | |amount]|] eqn:Eam;
      simpl; try discriminate.
    destruct (lookup (str "issuer") amount) as [iss|] eqn:Eiss;
      [|simpl; discriminate].
    destruct (lookup (str "currency") amount) as [cur|] eqn:Ecur;
      [|rewrite andb_false_r; discriminate].
    destruct (py_eq_str iss i) eqn:E1; [|simpl; discriminate].
    destruct (py_eq_str cur c) eqn:E2; [|simpl; discriminate].
    apply py_eq_str_true in E1, E2; subst.
    intros _. exists members, amount. auto.
  - intros (members & amount & -> & Ety & Eam & Eiss & Ecur). simpl.
    rewrite Ety. simpl. rewrite ?pystr_eqb_refl. simpl.
    rewrite Eam. simpl. rewrite Eiss, Ecur. simpl.
    rewrite ?pystr_eqb_refl. reflexivity.
Qed.

Lemma is_token_payment_total (members : list (pystr * json)) (c i : pystr) :
  exists b, is_token_payment (JObj members) c i = Ok b.
Proof.
  unfold is_token_payment. simpl.
  destruct (negb _); [eauto|].
  destruct (match lookup (str "Amount") members with Some v => v | None => JNull end);
    simpl; eauto.
  destruct (_ && _); eauto.
Qed.

(** ** The loop body, factored *)

Lemma main_entry_eq (conn : connection) (h : Z) (entry : json) :
  main_entry conn h entry =
  (eff <- entry_effect entry ;; Ok (apply_effect conn eff, new_highest h entry)).
Proof.
  unfold main_entry, entry_effect, new_highest, tx_row, insert_transaction.
  destruct (py_get entry (str "tx") (JObj [])) as [tx|]; simpl; [|reflexivity].
  destruct (py_get entry (str "meta") (JObj [])); simpl; [|reflexivity].
  destruct (py_get tx (str "ledger_index") (JNum 0)) as [li|]; simpl; [|reflexivity].
  unfold py_gt_int. destruct (int_value li) as [n|]; simpl; [|reflexivity].
  destruct (is_token_payment tx CURRENCY_CODE ISSUER_ADDRESS) as [[|]|]; simpl;
    try reflexivity.
  destruct (py_get tx (str "Account") (JStr [])); simpl; [|reflexivity].
  destruct (py_get tx (str "Destination") (JStr [])); simpl; [|reflexivity].
  destruct (py_get tx (str "hash") (JStr [])); simpl; [|reflexivity].
  destruct (py_get tx (str "Amount") (JObj [])) as [am|]; simpl; [|reflexivity].
  destruct (if isinstance_dict am then _ else _); simpl; [|reflexivity].
  destruct (convert_amount _); simpl; [|reflexivity].
  destruct (py_get tx (str "date") JNull) as [rt|]; simpl; [|reflexivity].
  destruct (match rt with JNull => _ | _ => _ end); simpl; [|reflexivity].
  destruct (extract_memos tx); simpl; [|reflexivity].
  destruct (bind_row _ _ _ _ _ _ _); simpl; [|reflexivity].
  unfold insert_row. destruct (has_hash _ _); reflexivity.
Qed.

(** ** Batches and the loop *)

Lemma apply_effect_committed (c : connection) (eff : option row) :
  committed (apply_effect c eff) = committed c.
Proof.
  destruct eff as [r|]; simpl; [|reflexivity].
  unfold insert_row. destruct (has_hash _ _); reflexivity.
Qed.

Lemma main_batch_cons (c : connection) (h : Z) (e : json) (es : list json) :
  main_batch c h (e :: es) =
  (eff <- entry_effect e ;;
   main_batch (apply_effect c eff) (new_highest h e) es).
Proof.
  simpl. rewrite main_entry_eq. destruct (entry_effect e); reflexivity.
Qed.

(** A relation between the table before and after, indexed by the entries
    processed in between, that single entries establish and that composes,
    holds of a whole batch. *)
Section Relating.

Variable R : list json -> table -> table -> Prop.
Hypothesis R_nil : forall t, R [] t t.
Hypothesis R_app : forall es1 es2 t1 t2 t3,
  R es1 t1 t2 -> R es2 t2 t3 -> R (es1 ++ es2) t1 t3.
Hypothesis R_more : forall es es' t1 t2, R es t1 t2 -> R (es ++ es') t1 t2.
Hypothesis R_entry : forall e c eff,
  entry_effect e = Ok eff ->
  R [e] (session c) (session (apply_effect c eff)).

Lemma main_batch_rel (es : list json) :
  forall c h c' h',
    main_batch c h es = Ok (c', h') ->
    R es (session c) (session c') /\ committed c' = committed c.
Proof.
  induction es as [|e es IH]; intros c h c' h' H.
  - simpl in H. injection H as <- <-. split; [apply R_nil | reflexivity].
  - rewrite main_batch_cons in H.
    destruct (entry_effect e) as [eff|] eqn:Ee; [|discriminate].
    simpl in H. apply IH in H. destruct H as [HR Hc].
    split.
    + change (e :: es) with ([e] ++ es).
      eapply R_app; [apply R_entry; exact Ee | exact HR].
    + rewrite Hc. apply apply_effect_committed.
Qed.

Lemma main_loop_rel (fuel : nat) (lo : Z) :
  forall st,
    synced st ->
    R (fetched fuel lo (marker st)) (session (conn st))
      (storage_after (main_loop fuel lo st))
    /\ synced (snd (main_loop fuel lo st)).
Proof.
  induction fuel as [|fuel IH]; intros st Hs.
  - simpl. unfold storage_after. simpl. rewrite <- Hs.
    split; [apply R_nil | exact Hs].
  - simpl.
    destruct (fetch_account_transactions ACCOUNT_TO_CHECK lo DEFAULT_LIMIT
                (marker st)) as [[batch next]|e] eqn:Ef.
    + destruct (py_iter batch) as [es|e] eqn:Ei; simpl.
      * destruct (main_batch (conn st) (highest_ledger_this_run st) es)
          as [[c' h']|e] eqn:Eb.
        -- apply main_batch_rel in Eb. destruct Eb as [HR Hc].
           destruct (py_truthy next) eqn:Et; simpl.
           ++ specialize (IH (mk_state (commit c') next h'
                                (posted st ++
                                 [request_body ACCOUNT_TO_CHECK lo
                                    DEFAULT_LIMIT (marker st)]))).
              simpl in IH. destruct (IH eq_refl) as [HR' Hs'].
              split; [|exact Hs'].
              eapply R_app; [exact HR | exact HR'].
           ++ unfold storage_after, synced. simpl.
              split; [|reflexivity].
              rewrite app_nil_r. exact HR.
        -- unfold storage_after, synced. simpl. split; [|reflexivity].
           rewrite <- Hs.
           change (R ([] ++ (es ++ (if py_truthy next
                                    then fetched fuel lo next else [])))
                     (session (conn st)) (session (conn st))).
           apply R_more, R_nil.
      * unfold storage_after, synced. simpl. split; [|reflexivity].
        rewrite <- Hs. apply R_nil.
    + unfold storage_after, synced. simpl. split; [|reflexivity].
      rewrite <- Hs. apply R_nil.
Qed.

End Relating.

Lemma entry_effect_some (e : json) (r : row) :
  entry_effect e = Ok (Some r) ->
  exists tx,
    py_get e (str "tx") (JObj []) = Ok tx /\
    is_token_payment tx CURRENCY_CODE ISSUER_ADDRESS = Ok true /\
    tx_row tx = Ok r.
Proof.
  unfold entry_effect. intros H.
  destruct (py_get e (str "tx") (JObj [])) as [tx|]; simpl in H; [|discriminate].
  destruct (py_get e (str "meta") (JObj [])); simpl in H; [|discriminate].
  destruct (py_get tx (str "ledger_index") (JNum 0)); simpl in H; [|discriminate].
  destruct (py_gt_int _ 0); simpl in H; [|discriminate].
  destruct (is_token_payment tx CURRENCY_CODE ISSUER_ADDRESS) as [[|]|] eqn:Ep;
    simpl in H; try discriminate.
  destruct (tx_row tx) eqn:Er; simpl in H; [|discriminate].
  injection H as <-. eauto.
Qed.

Lemma entry_effect_unmatched (e tx : json) (eff : option row) :
  py_get e (str "tx") (JObj []) = Ok tx ->
  is_token_payment tx CURRENCY_CODE ISSUER_ADDRESS <> Ok true ->
  entry_effect e = Ok eff -> eff = None.
Proof.
  unfold entry_effect. intros Htx Hno H. rewrite Htx in H. simpl in H.
  destruct (py_get e (str "meta") (JObj [])); simpl in H; [|discriminate].
  destruct (py_get tx (str "ledger_index") (JNum 0)); simpl in H; [|discriminate].
  destruct (py_gt_int _ 0); simpl in H; [|discriminate].
  destruct (is_token_payment tx CURRENCY_CODE ISSUER_ADDRESS) as [[|]|] eqn:Ep;
    simpl in H; try discriminate; [congruence|].
  injection H as <-. reflexivity.
Qed.

Lemma main_entry_ok (c : connection) (h : Z) (e : json) (c' : connection) (h' : Z) :
  main_entry c h e = Ok (c', h') ->
  exists eff, entry_effect e = Ok eff /\ c' = apply_effect c eff.
Proof.
  rewrite main_entry_eq. intros H.
  destruct (entry_effect e) as [eff|]; simpl in H; [|discriminate].
  injection H as <- <-. eauto.
Qed.

Lemma session_insert_row (c : connection) (r x : row) :
  In x (session (insert_row c r)) -> In x (session c) \/ x = r.
Proof.
  unfold insert_row. destruct (has_hash _ _); simpl; [auto|].
  rewrite in_app_iff. simpl. intuition.
Qed.

Lemma provenance_run (fuel : nat) (lo : Z) (st : loop_state) :
  synced st ->
  provenance (fetched fuel lo (marker st)) (session (conn st))
             (storage_after (main_loop fuel lo st)).
Proof.
  intros Hs. apply (main_loop_rel provenance); unfold provenance; auto.
  - intros es1 es2 t1 t2 t3 H1 H2 r Hr.
    destruct (H2 r Hr) as [Hin|(e & tx & He & Hrest)].
    + destruct (H1 r Hin) as [|(e & tx & He & Hrest)]; [auto|].
      right. exists e, tx. rewrite in_app_iff. auto.
    + right. exists e, tx. rewrite in_app_iff. auto.
  - intros es es' t1 t2 H r Hr.
    destruct (H r Hr) as [|(e & tx & He & Hrest)]; [auto|].
    right. exists e, tx. rewrite in_app_iff. auto.
  - intros e c [r0|] He r Hr; simpl in Hr; [|auto].
    apply session_insert_row in Hr. destruct Hr as [Hr | ->]; [auto|].
    right. apply entry_effect_some in He. destruct He as (tx & Htx & Hp & Hrow).
    exists e, tx. simpl. rewrite <- is_token_payment_true. auto.
Qed.

(** C2. Filter precision: the filter answers true exactly on a payment
    whose amount is a dictionary with the tracked issuer and currency
    code; an entry whose transaction fails that leaves the connection as
    it was, in particular a payment in another currency of the same
    issuer; and every row a run leaves in storage was there before or was
    built from a served transaction that passes the filter. *)
Theorem filter_precision (fuel : nat) (storage : table) :
  (forall tx currency_code issuer,
      is_token_payment tx currency_code issuer = Ok true <->
      token_payment tx currency_code issuer)
  /\ (forall c h entry tx c' h',
        py_get entry (str "tx") (JObj []) = Ok tx ->
        ~ token_payment tx CURRENCY_CODE ISSUER_ADDRESS ->
        main_entry c h entry = Ok (c', h') -> c' = c)
  /\ (forall c h entry members amount code c' h',
        py_get entry (str "tx") (JObj []) = Ok (JObj members) ->
        lookup (str "Amount") members = Some (JObj amount) ->
        lookup (str "issuer") amount = Some (JStr ISSUER_ADDRESS) ->
        lookup (str "currency") amount = Some (JStr code) ->
        code <> CURRENCY_CODE ->
        main_entry c h entry = Ok (c', h') -> c' = c)
  /\ (forall r,
        In r (storage_after (main fuel storage)) ->
        In r storage \/
        exists e tx,
          In e (fetched fuel (lower_bound storage) JNull) /\
          py_get e (str "tx") (JObj []) = Ok tx /\
          token_payment tx CURRENCY_CODE ISSUER_ADDRESS /\
          tx_row tx = Ok r).
Proof.
  assert (Hdrop : forall c h entry tx c' h',
             py_get entry (str "tx") (JObj []) = Ok tx ->
             ~ token_payment tx CURRENCY_CODE ISSUER_ADDRESS ->
             main_entry c h entry = Ok (c', h') -> c' = c).
  { intros c h entry tx c' h' Htx Hno H.
    apply main_entry_ok in H. destruct H as (eff & He & ->).
    rewrite (entry_effect_unmatched entry tx eff Htx); [reflexivity| |exact He].
    intros Ht. apply Hno, is_token_payment_true, Ht. }
  split; [intros; apply is_token_payment_true|].
  split; [exact Hdrop|].
  split.
  - intros c h entry members amount code c' h' Htx Ham Hiss Hcur Hne.
    apply (Hdrop c h entry (JObj members) c' h' Htx).
    intros (m & a & Em & _ & Ea & _ & Ec).
    injection Em as <-. rewrite Ham in Ea. injection Ea as <-.
    rewrite Hcur in Ec. injection Ec as ->. apply Hne; reflexivity.
  - intros r Hr.
    exact (provenance_run fuel (lower_bound storage)
             (mk_state (connect storage) JNull (lower_bound storage) [])
             eq_refl r Hr).
Qed.

(** ** Hashes in a table *)

Lemma has_hash_In (h : pystr) (t : table) :
  has_hash h t = true <-> In h (map transaction_hash t).
Proof.
  unfold has_hash. rewrite existsb_exists, in_map_iff. split.
  - intros (r & Hr & E). apply pystr_eqb_eq in E. eauto.
  - intros (r & E & Hr). exists r. rewrite pystr_eqb_eq. auto.
Qed.

Lemma has_hash_app (h : pystr) (t u : table) :
  has_hash h (t ++ u) = has_hash h t || has_hash h u.
Proof. unfold has_hash. apply existsb_app. Qed.

Lemma has_hash_apply_mono (c : connection) (eff : option row) (x : pystr) :
  has_hash x (session c) = true ->
  has_hash x (session (apply_effect c eff)) = true.
Proof.
  destruct eff as [r|]; simpl; [|auto]. unfold insert_row.
  destruct (has_hash (transaction_hash r) (session c)); simpl; [auto|].
  intros H. rewrite has_hash_app, H. reflexivity.
Qed.

Lemma has_hash_insert_row_self (c : connection) (r : row) :
  has_hash (transaction_hash r) (session (insert_row c r)) = true.
Proof.
  unfold insert_row.
  destruct (has_hash (transaction_hash r) (session c)) eqn:E; simpl; [exact E|].
  rewrite has_hash_app. simpl. rewrite pystr_eqb_refl, orb_true_r. reflexivity.
Qed.

Lemma insert_row_unique (c : connection) (r : row) :
  unique_hashes (session c) -> unique_hashes (session (insert_row c r)).
Proof.
  unfold insert_row, unique_hashes.
  destruct (has_hash (transaction_hash r) (session c)) eqn:E; simpl; [auto|].
  intros H. rewrite map_app. simpl.
  apply NoDup_app; [exact H | repeat constructor; simpl; tauto |].
  intros x Hx [<-|[]].
  apply has_hash_In in Hx. congruence.
Qed.

Lemma unique_hashes_count (t : table) (h : pystr) :
  unique_hashes t ->
  (length (filter (fun r => pystr_eqb (transaction_hash r) h) t) <= 1)%nat.
Proof.
  unfold unique_hashes. induction t as [|r t IH]; simpl; intros H; [lia|].
  inversion H as [|? ? Hnotin Hnd]; subst.
  destruct (pystr_eqb (transaction_hash r) h) eqn:E; simpl; [|auto].
  apply pystr_eqb_eq in E. subst h.
  assert (Hz : filter (fun r0 => pystr_eqb (transaction_hash r0) (transaction_hash r)) t = []).
  { clear - Hnotin. induction t as [|x t IH]; simpl; [reflexivity|].
    simpl in Hnotin.
    destruct (pystr_eqb (transaction_hash x) (transaction_hash r)) eqn:E.
    - apply pystr_eqb_eq in E. tauto.
    - apply IH. tauto. }
  rewrite Hz. simpl. lia.
Qed.

Lemma unique_hashes_run (fuel : nat) (lo : Z) (st : loop_state) :
  synced st ->
  unique_hashes (session (conn st)) ->
  unique_hashes (storage_after (main_loop fuel lo st)).
Proof.
  intros Hs.
  apply (main_loop_rel (fun _ t t' => unique_hashes t -> unique_hashes t'));
    auto.
  intros e c [r|] _; simpl; [apply insert_row_unique | auto].
Qed.

Lemma main_loop_synced (fuel : nat) (lo : Z) (st : loop_state) :
  synced st -> synced (snd (main_loop fuel lo st)).
Proof.
  intros Hs.
  apply (main_loop_rel (fun _ _ _ => True)); auto.
Qed.

(** ** Runs that repeat *)

Lemma main_batch_absorbs (es : list json) :
  forall c h c' h',
    main_batch c h es = Ok (c', h') ->
    (forall x, has_hash x (session c) = true -> has_hash x (session c') = true)
    /\ (forall e, In e es -> absorbed (session c') e).
Proof.
  induction es as [|e es IH]; intros c h c' h' H.
  - simpl in H. injection H as <- <-. split; [auto | intros e []].
  - rewrite main_batch_cons in H.
    destruct (entry_effect e) as [eff|] eqn:Ee; [|discriminate].
    simpl in H. apply IH in H. destruct H as [Hmono Habs].
    split.
    + intros x Hx. apply Hmono, has_hash_apply_mono, Hx.
    + intros e' [<-|Hin]; [|auto].
      exists eff. split; [exact Ee|].
      intros r ->. apply Hmono. simpl. apply has_hash_insert_row_self.
Qed.

Lemma absorbed_mono (t t' : table) (e : json) :
  (forall x, has_hash x t = true -> has_hash x t' = true) ->
  absorbed t e -> absorbed t' e.
Proof. intros Hm (eff & He & Hr). exists eff. split; auto. Qed.

Lemma main_loop_absorbs (fuel : nat) (lo : Z) :
  forall st st',
    main_loop fuel lo st = (Completed, st') ->
    (forall x, has_hash x (session (conn st)) = true ->
               has_hash x (session (conn st')) = true)
    /\ (forall e, In e (fetched fuel lo (marker st)) ->
                  absorbed (session (conn st')) e).
Proof.
  induction fuel as [|fuel IH]; intros st st' H; [discriminate|].
  simpl in H |- *.
  destruct (fetch_account_transactions ACCOUNT_TO_CHECK lo DEFAULT_LIMIT
              (marker st)) as [[batch next]|e]; [|discriminate].
  destruct (py_iter batch) as [es|e]; simpl in H; [|discriminate].
  destruct (main_batch (conn st) (highest_ledger_this_run st) es)
    as [[c' h']|e] eqn:Eb; [|discriminate].
  apply main_batch_absorbs in Eb. destruct Eb as [Hmono Habs].
  destruct (py_truthy next); simpl in H.
  - apply IH in H. simpl in H. destruct H as [Hmono' Habs'].
    split; [auto|].
    intros e Hin. apply in_app_or in Hin. destruct Hin as [Hin|Hin]; [|auto].
    apply (absorbed_mono (session c')); auto.
  - injection H as <-. simpl. split; [exact Hmono|].
    intros e Hin. rewrite app_nil_r in Hin. auto.
Qed.

Lemma main_batch_noop (es : list json) :
  forall c h c' h',
    (forall e, In e es -> absorbed (session c) e) ->
    main_batch c h es = Ok (c', h') -> c' = c.
Proof.
  induction es as [|e es IH]; intros c h c' h' Habs H.
  - simpl in H. injection H as <- _. reflexivity.
  - rewrite main_batch_cons in H.
    destruct (Habs e (or_introl eq_refl)) as (eff & He & Hr).
    rewrite He in H. simpl in H.
    assert (Ea : apply_effect c eff = c).
    { destruct eff as [r|]; simpl; [|reflexivity].
      unfold insert_row. rewrite (Hr r eq_refl). reflexivity. }
    rewrite Ea in H. apply IH in H; [exact H|].
    intros e' Hin. apply Habs. right. exact Hin.
Qed.

Lemma commit_synced (c : connection) :
  session c = committed c -> commit c = c /\ rollback c = c.
Proof.
  destruct c as [cm se]; unfold commit, rollback; simpl.
  intros ->; split; reflexivity.
Qed.

Lemma main_loop_noop (fuel : nat) (lo : Z) :
  forall st,
    synced st ->
    (forall e, In e (fetched fuel lo (marker st)) ->
               absorbed (session (conn st)) e) ->
    conn (snd (main_loop fuel lo st)) = conn st.
Proof.
  induction fuel as [|fuel IH]; intros st Hs Habs; [reflexivity|].
  simpl in Habs |- *.
  destruct (commit_synced (conn st) Hs) as [Hcommit Hroll].
  destruct (fetch_account_transactions ACCOUNT_TO_CHECK lo DEFAULT_LIMIT
              (marker st)) as [[batch next]|e]; [|exact Hroll].
  destruct (py_iter batch) as [es|e]; simpl; [|exact Hroll].
  destruct (main_batch (conn st) (highest_ledger_this_run st) es)
    as [[c' h']|e] eqn:Eb; [|exact Hroll].
  apply main_batch_noop in Eb;
    [|intros e Hin; apply Habs, in_or_app; left; exact Hin].
  subst c'. rewrite Hcommit.
  destruct (py_truthy next); simpl; [|reflexivity].
  rewrite IH; simpl; [reflexivity | exact Hs |].
  intros e Hin. apply Habs, in_or_app. right. exact Hin.
Qed.

Lemma rerun_changes_nothing (fuel1 fuel2 : nat) (storage : table)
    (st1 : loop_state) :
  main fuel1 storage = (Completed, st1) ->
  incl (fetched fuel2 (lower_bound (storage_after (main fuel1 storage))) JNull)
       (fetched fuel1 (lower_bound storage) JNull) ->
  storage_after (main fuel2 (storage_after (main fuel1 storage)))
  = storage_after (main fuel1 storage).
Proof.
  intros H1 Hincl.
  rewrite H1 in *. unfold storage_after at 2 3. simpl.
  unfold main in H1.
  pose proof (main_loop_synced fuel1 (lower_bound storage)
                (mk_state (connect storage) JNull (lower_bound storage) [])
                eq_refl) as Hs1.
  unfold lower_bound in Hs1 at 1 2. rewrite H1 in Hs1. simpl in Hs1.
  apply main_loop_absorbs in H1. simpl in H1. destruct H1 as [_ Habs].
  unfold storage_after in Hincl |- *. simpl in Hincl.
  unfold main.
  rewrite main_loop_noop; simpl; [reflexivity | reflexivity |].
  intros e Hin. apply Hincl in Hin. apply Habs in Hin.
  unfold synced in Hs1. rewrite <- Hs1. exact Hin.
Qed.

(** C1. Idempotent, insert-only persistence keyed on the transaction
    hash: inserting a row whose hash is stored changes nothing and raises
    nothing, a new hash appends the row; hence a second run against the
    same remote source, which serves it nothing the completed first run
    was not served, leaves storage exactly as the first run left it. *)
Theorem idempotent_persistence :
  (forall c ledger_index tx_hash from_address to_address memo amount_int
          tx_datetime r,
      bind_row ledger_index tx_hash from_address to_address memo amount_int
               tx_datetime = Some r ->
      (has_hash (transaction_hash r) (session c) = true ->
       insert_transaction c ledger_index tx_hash from_address to_address
                          memo amount_int tx_datetime = Ok c)
      /\ (has_hash (transaction_hash r) (session c) = false ->
          insert_transaction c ledger_index tx_hash from_address to_address
                             memo amount_int tx_datetime
          = Ok (mk_connection (committed c) (session c ++ [r]))))
  /\ (forall fuel1 fuel2 storage st1,
        main fuel1 storage = (Completed, st1) ->
        incl (fetched fuel2 (lower_bound (storage_after (main fuel1 storage)))
                      JNull)
             (fetched fuel1 (lower_bound storage) JNull) ->
        storage_after (main fuel2 (storage_after (main fuel1 storage)))
        = storage_after (main fuel1 storage)).
Proof.
  split.
  - intros c li h f t m a ts r Hb. unfold insert_transaction. rewrite Hb.
    split; intros ->; reflexivity.
  - apply rerun_changes_nothing.
Qed.

(** ** What a stored row holds *)

Lemma bind_row_fields li h f t m a ts r :
  bind_row li h f t m a ts = Some r ->
  sql_integer li = Some (ledger_index r) /\
  sql_text h = Some (transaction_hash r) /\
  sql_text f = Some (from_address r) /\
  sql_text t = Some (to_address r) /\
  memo r = m /\ amount r = a /\ transaction_timestamp r = ts /\
  bigint a = true.
Proof.
  unfold bind_row.
  destruct (sql_integer li); [|discriminate].
  destruct (sql_text h); [|discriminate].
  destruct (sql_text f); [|discriminate].
  destruct (sql_text t); [|discriminate].
  destruct (sql_text (JStr m)) eqn:Em; [|discriminate].
  destruct (bigint a) eqn:Eb; [|discriminate].
  intros E; injection E as <-. simpl.
  simpl in Em. destruct (forallb storable_char m); [|discriminate].
  injection Em as <-. repeat split; reflexivity.
Qed.

Lemma tx_row_fields (tx : json) (r : row) :
  tx_row tx = Ok r ->
  exists li h f t am v rt m,
    py_get tx (str "ledger_index") (JNum 0) = Ok li /\
    py_get tx (str "Account") (JStr []) = Ok f /\
    py_get tx (str "Destination") (JStr []) = Ok t /\
    py_get tx (str "hash") (JStr []) = Ok h /\
    py_get tx (str "Amount") (JObj []) = Ok am /\
    value_of am = Ok v /\
    convert_amount v = Ok (amount r) /\
    py_get tx (str "date") JNull = Ok rt /\
    datetime_of rt = Ok (transaction_timestamp r) /\
    extract_memos tx = Ok m /\
    bind_row li h f t m (amount r) (transaction_timestamp r) = Some r.
Proof.
  unfold tx_row. intros H.
  destruct (py_get tx (str "ledger_index") (JNum 0)) as [li|]; simpl in H; [|discriminate].
  destruct (py_get tx (str "Account") (JStr [])) as [f|]; simpl in H; [|discriminate].
  destruct (py_get tx (str "Destination") (JStr [])) as [t|]; simpl in H; [|discriminate].
  destruct (py_get tx (str "hash") (JStr [])) as [h|]; simpl in H; [|discriminate].
  destruct (py_get tx (str "Amount") (JObj [])) as [am|]; simpl in H; [|discriminate].
  fold (value_of am) in H.
  destruct (value_of am) as [v|] eqn:Ev; simpl in H; [|discriminate].
  destruct (convert_amount v) as [a|] eqn:Ea; simpl in H; [|discriminate].
  destruct (py_get tx (str "date") JNull) as [rt|]; simpl in H; [|discriminate].
  fold (datetime_of rt) in H.
  destruct (datetime_of rt) as [ts|] eqn:Ets; simpl in H; [|discriminate].
  destruct (extract_memos tx) as [m|]; simpl in H; [|discriminate].
  destruct (bind_row li h f t m a ts) as [r'|] eqn:Eb; [|discriminate].
  injection H as ->.
  destruct (bind_row_fields _ _ _ _ _ _ _ _ Eb) as (_ & _ & _ & _ & _ & <- & <- & _).
  exists li, h, f, t, am, v, rt, m. repeat split; auto.
Qed.

Lemma main_entry_inserted (c : connection) (h : Z) (e : json)
    (c' : connection) (h' : Z) (r : row) :
  main_entry c h e = Ok (c', h') ->
  session c' = session c ++ [r] ->
  exists tx,
    py_get e (str "tx") (JObj []) = Ok tx /\
    token_payment tx CURRENCY_CODE ISSUER_ADDRESS /\
    tx_row tx = Ok r.
Proof.
  intros H Hs. apply main_entry_ok in H. destruct H as ([r0|] & He & ->).
  - simpl in Hs. unfold insert_row in Hs.
    destruct (has_hash _ _); simpl in Hs.
    + exfalso. apply (f_equal (@length row)) in Hs.
      rewrite length_app in Hs. simpl in Hs. lia.
    + apply app_inv_head in Hs. injection Hs as ->.
      apply entry_effect_some in He. destruct He as (tx & Htx & Hp & Hrow).
      exists tx. rewrite <- is_token_payment_true. auto.
  - simpl in Hs. exfalso. apply (f_equal (@length row)) in Hs.
    rewrite length_app in Hs. simpl in Hs. lia.
Qed.

(** C10. A matching transaction without a [hash] member is handed to the
    database under the empty hash: the row is appended when no row has
    the empty hash yet, and the entry is dropped without error when one
    has; so a table with unique hashes never holds more than one such
    row, whatever a run adds to it. *)
Theorem hashless_record (fuel : nat) (storage : table) :
  (forall c h entry members c' h',
      py_get entry (str "tx") (JObj []) = Ok (JObj members) ->
      lookup (str "hash") members = None ->
      token_payment (JObj members) CURRENCY_CODE ISSUER_ADDRESS ->
      main_entry c h entry = Ok (c', h') ->
      has_hash [] (session c') = true
      /\ (has_hash [] (session c) = true -> c' = c)
      /\ (has_hash [] (session c) = false ->
          exists r, transaction_hash r = [] /\
                    tx_row (JObj members) = Ok r /\
                    session c' = session c ++ [r]))
  /\ (unique_hashes storage ->
      unique_hashes (storage_after (main fuel storage))
      /\ (length (filter hashless (storage_after (main fuel storage))) <= 1)%nat).
Proof.
  split.
  - intros c h entry members c' h' Htx Hno Hpay H.
    apply main_entry_ok in H. destruct H as (eff & He & ->).
    apply is_token_payment_true in Hpay.
    unfold entry_effect in He. rewrite Htx in He. simpl in He.
    destruct (py_get entry (str "meta") (JObj [])); simpl in He; [|discriminate].
    destruct (py_gt_int _ 0); simpl in He; [|discriminate].
    rewrite Hpay in He. simpl in He.
    destruct (tx_row (JObj members)) as [r|] eqn:Er; simpl in He; [|discriminate].
    injection He as <-.
    assert (Hh : transaction_hash r = []).
    { destruct (tx_row_fields _ _ Er)
        as (li & hh & f & t & am & v & rt & m & _ & _ & _ & Hhash & _ & _ & _ & _ & _ & _ & Hb).
      simpl in Hhash. rewrite Hno in Hhash. injection Hhash as <-.
      apply bind_row_fields in Hb.
      destruct Hb as (_ & Hb & _). simpl in Hb. congruence. }
    simpl. split; [|split].
    + rewrite <- Hh. apply has_hash_insert_row_self.
    + intros Hex. unfold insert_row. rewrite Hh, Hex. reflexivity.
    + intros Hex. exists r. unfold insert_row. rewrite Hh, Hex. auto.
  - intros Hu.
    assert (Hu' : unique_hashes (storage_after (main fuel storage))).
    { apply unique_hashes_run; [reflexivity | exact Hu]. }
    split; [exact Hu'|].
    apply (unique_hashes_count _ [] Hu').
Qed.

(** ** Memo decoding *)

Lemma decode_is_decoded_text (s : pystr) :
  decode_hex_or_base64 (JStr s) = Ok (decoded_text s).
Proof.
  unfold decode_hex_or_base64, decoded_text.
  destruct s as [|c s]; [reflexivity|]. simpl py_truthy. cbv iota beta.
  simpl negb. cbv iota.
  destruct (fromhex (c :: s)); [reflexivity|].
  destruct (b64decode (c :: s)); reflexivity.
Qed.

Lemma decode_memos_entries (entries : list json) (datas : list pystr) :
  Forall2 memo_entry_with entries datas ->
  decode_memos entries = Ok (map decoded_text datas).
Proof.
  induction 1 as [|e s entries datas (em & mm & -> & Hm & Hd) _ IH];
    [reflexivity|].
  simpl. rewrite Hm. simpl. rewrite Hd. simpl.
  rewrite decode_is_decoded_text. simpl. rewrite IH. reflexivity.
Qed.

(** C3. The data string of a memo is decoded as hexadecimal if
    [bytes.fromhex] takes it, whether or not it is base64 as well, else as
    base64 if [b64decode] takes it, else it is returned as it is; the
    bytes become text with replacement of what is not UTF-8, and no
    string makes the decoder raise.  The decoded entries of a
    transaction are joined by line feeds, and a missing or empty memo
    list gives the empty string. *)
Theorem decoder_fallback (s : pystr) :
  (forall b, fromhex s = Some b ->
             decode_hex_or_base64 (JStr s) = Ok (utf8_decode_replace b))
  /\ (forall b, fromhex s = None -> b64decode s = Some b ->
                decode_hex_or_base64 (JStr s) = Ok (utf8_decode_replace b))
  /\ (fromhex s = None -> b64decode s = None ->
      decode_hex_or_base64 (JStr s) = Ok s)
  /\ (exists t, decode_hex_or_base64 (JStr s) = Ok t)
  /\ (fromhex (str "4142") = Some [65; 66]%N /\
      b64decode (str "4142") = Some [227; 94; 54]%N /\
      decode_hex_or_base64 (JStr (str "4142")) = Ok (str "AB"))
  /\ (forall members entries datas,
        lookup (str "Memos") members = Some (JArr entries) ->
        Forall2 memo_entry_with entries datas ->
        extract_memos (JObj members)
        = Ok (join_newline (map decoded_text datas)))
  /\ (forall members,
        lookup (str "Memos") members = None \/
        lookup (str "Memos") members = Some (JArr []) ->
        extract_memos (JObj members) = Ok []).
Proof.
  pose proof (decode_is_decoded_text s) as Hd. unfold decoded_text in Hd.
  repeat split.
  - intros b Hb. rewrite Hb in Hd. exact Hd.
  - intros b Hh Hb. rewrite Hh, Hb in Hd. exact Hd.
  - intros Hh Hb. rewrite Hh, Hb in Hd. exact Hd.
  - eauto.
  - intros members entries datas Hm HF. unfold extract_memos. simpl.
    rewrite Hm. destruct HF as [|e d entries datas He HF].
    + reflexivity.
    + simpl py_truthy. cbv iota. simpl negb. cbv iota. simpl py_iter.
      unfold bind at 1 2.
      rewrite (decode_memos_entries (e :: entries) (d :: datas));
        [reflexivity | constructor; assumption].
  - intros members [Hm|Hm]; unfold extract_memos; simpl; rewrite Hm; reflexivity.
Qed.

(** ** The resumption cursor *)

Lemma select_max_spec (t : table) :
  match select_max_ledger_index t with
  | None => t = []
  | Some m =>
      (exists r, In r t /\ ledger_index r = m) /\
      (forall r, In r t -> ledger_index r <= m)
  end.
Proof.
  induction t as [|r t IH]; simpl; [reflexivity|].
  destruct (select_max_ledger_index t) as [m|].
  - destruct IH as [(r0 & Hin & E) Hle]. split.
    + destruct (Z.max_spec (ledger_index r) m) as [[_ ->]|[_ ->]]; eauto.
    + intros x [<-|Hx]; [lia|]. specialize (Hle x Hx). lia.
  - subst t. split; [eauto|]. intros x [<-|[]]. lia.
Qed.

Lemma main_loop_posted (fuel : nat) (lo : Z) :
  forall st req,
    In req (posted (snd (main_loop fuel lo st))) ->
    In req (posted st) \/
    exists mk, req = request_body ACCOUNT_TO_CHECK lo DEFAULT_LIMIT mk.
Proof.
  induction fuel as [|fuel IH]; intros st req; simpl; [auto|].
  assert (Hnew : In req (posted st ++
                  [request_body ACCOUNT_TO_CHECK lo DEFAULT_LIMIT (marker st)]) ->
                 In req (posted st) \/
                 exists mk, req = request_body ACCOUNT_TO_CHECK lo DEFAULT_LIMIT mk).
  { rewrite in_app_iff. simpl. intros [H|[<-|[]]]; eauto. }
  destruct (fetch_account_transactions _ _ _ _) as [[batch next]|e];
    [|exact Hnew].
  destruct (bind (py_iter batch) _) as [[c' h']|e]; [|exact Hnew].
  destruct (py_truthy next); simpl; [|exact Hnew].
  intros H. apply IH in H. simpl in H. destruct H as [H|H]; auto.
Qed.

Lemma main_loop_posted_grows (fuel : nat) (lo : Z) :
  forall st, exists rest,
    posted (snd (main_loop fuel lo st)) = posted st ++ rest.
Proof.
  induction fuel as [|fuel IH]; intros st; simpl.
  - exists []. rewrite app_nil_r. reflexivity.
  - destruct (fetch_account_transactions _ _ _ _) as [[batch next]|e];
      [|eexists; reflexivity].
    destruct (bind (py_iter batch) _) as [[c' h']|e]; [|eexists; reflexivity].
    destruct (py_truthy next); simpl; [|eexists; reflexivity].
    destruct (IH (mk_state (commit c') next h'
                (posted st ++
                 [request_body ACCOUNT_TO_CHECK lo DEFAULT_LIMIT (marker st)])))
      as (rest & E).
    rewrite E. simpl. rewrite <- app_assoc. eexists; reflexivity.
Qed.

Lemma main_loop_first_request (fuel : nat) (lo : Z) (st : loop_state) :
  exists rest,
    posted (snd (main_loop (S fuel) lo st))
    = posted st ++
      request_body ACCOUNT_TO_CHECK lo DEFAULT_LIMIT (marker st) :: rest.
Proof.
  cbn [main_loop].
  destruct (fetch_account_transactions _ _ _ _) as [[batch next]|e];
    [|exists []; reflexivity].
  destruct (bind (py_iter batch) _) as [[c' h']|e]; [|exists []; reflexivity].
  destruct (py_truthy next); cbn [negb]; [|exists []; reflexivity].
  destruct (main_loop_posted_grows fuel lo
              (mk_state (commit c') next h'
                (posted st ++
                 [request_body ACCOUNT_TO_CHECK lo DEFAULT_LIMIT (marker st)])))
    as (rest & E).
  rewrite E. cbn [posted]. rewrite <- app_assoc. exists rest. reflexivity.
Qed.

(** C4. The cursor query answers -1 on an empty table and the largest
    stored ledger index otherwise; a run asks the remote for ledgers from
    that answer plus one on, in its first request and in every other
    (so from 0 on when nothing is stored). *)
Theorem resumption_cursor (storage : table) :
  (storage = [] -> get_last_stored_ledger_index (connect storage) = -1)
  /\ (storage <> [] ->
      (exists r, In r storage /\
                 ledger_index r = get_last_stored_ledger_index (connect storage))
      /\ (forall r, In r storage ->
            ledger_index r <= get_last_stored_ledger_index (connect storage)))
  /\ (forall fuel,
        exists rest,
          posted (snd (main (S fuel) storage))
          = request_body ACCOUNT_TO_CHECK
              (get_last_stored_ledger_index (connect storage) + 1)
              DEFAULT_LIMIT JNull :: rest)
  /\ (forall fuel req,
        In req (posted (snd (main fuel storage))) ->
        exists mk,
          req = request_body ACCOUNT_TO_CHECK
                  (get_last_stored_ledger_index (connect storage) + 1)
                  DEFAULT_LIMIT mk)
  /\ (storage = [] -> lower_bound storage = 0).
Proof.
  unfold get_last_stored_ledger_index, lower_bound. simpl.
  pose proof (select_max_spec storage) as Hm.
  split; [|split; [|split; [|split]]].
  - intros ->. reflexivity.
  - intros Hne. destruct (select_max_ledger_index storage) as [m|];
      [exact Hm | contradiction].
  - intros fuel. unfold main.
    destruct (main_loop_first_request fuel
                (get_last_stored_ledger_index (connect storage) + 1)
                (mk_state (connect storage) JNull
                   (get_last_stored_ledger_index (connect storage) + 1) []))
      as (rest & E).
    exists rest. exact E.
  - intros fuel req H. unfold main in H.
    apply main_loop_posted in H. simpl in H. destruct H as [[]|H]. exact H.
  - intros ->. reflexivity.
Qed.

(** ** Amounts *)

Lemma quot_truncates (m d : Z) :
  0 < d ->
  Z.abs (Z.quot m d) * d <= Z.abs m < (Z.abs (Z.quot m d) + 1) * d /\
  0 <= Z.quot m d * m.
Proof.
  intros Hd.
  pose proof (Z.quot_rem' m d) as E.
  pose proof (Z.rem_bound_pos (Z.abs m) d (Z.abs_nonneg m) Hd) as Hr.
  destruct (Z_le_gt_dec 0 m) as [Hm|Hm].
  - pose proof (Z.quot_pos m d Hm Hd) as Hq.
    rewrite (Z.abs_eq m) in * by lia. rewrite (Z.abs_eq (Z.quot m d)) by lia.
    nia.
  - assert (Hq : Z.quot m d <= 0).
    { replace m with (- (- m)) by lia. rewrite Z.quot_opp_l by lia.
      pose proof (Z.quot_pos (- m) d ltac:(lia) Hd). lia. }
    replace (Z.abs m) with (- m) in * by lia.
    replace (Z.abs (Z.quot m d)) with (- Z.quot m d) by lia.
    rewrite Z.rem_opp_l in Hr by lia.
    nia.
Qed.

Lemma py_int_truncates (m e : Z) :
  exists a, py_int (FFinite m e) = Ok a /\ truncation_of m e a.
Proof.
  simpl. eexists; split; [reflexivity|].
  unfold truncation_of. destruct (0 <=? e) eqn:E.
  - apply Z.leb_le in E. split; [reflexivity | lia].
  - apply Z.leb_gt in E. split; [lia|]. intros _.
    apply quot_truncates. apply Z.pow_pos_nonneg; lia.
Qed.

Lemma py_get_object (v : json) (k : pystr) (d x : json) :
  py_get v k d = Ok x -> exists members, v = JObj members.
Proof. destruct v; simpl; try discriminate. eauto. Qed.

Lemma token_payment_amount (tx : json) :
  token_payment tx CURRENCY_CODE ISSUER_ADDRESS ->
  exists amount, py_get tx (str "Amount") (JObj []) = Ok (JObj amount).
Proof.
  intros (members & amount & -> & _ & Ha & _). exists amount.
  simpl. rewrite Ha. reflexivity.
Qed.

(** C5. The amount of a stored row is [int(float(value))] of the value
    in the transaction's amount: a string that [float] refuses gives 0
    without an error, a string that [float] reads as a finite number gives
    that number with its fraction cut off, not rounded; so 123.99 is
    stored as 123 and abc as 0. *)
Theorem amount_conversion :
  (forall s, float_of_str s = None -> convert_amount (JStr s) = Ok 0)
  /\ (forall s m e,
        float_of_str s = Some (FFinite m e) ->
        exists a, convert_amount (JStr s) = Ok a /\ truncation_of m e a)
  /\ convert_amount (JStr (str "123.99")) = Ok 123
  /\ convert_amount (JStr (str "-123.99")) = Ok (-123)
  /\ convert_amount (JStr (str "abc")) = Ok 0
  /\ (forall c h entry c' h' r,
        main_entry c h entry = Ok (c', h') ->
        session c' = session c ++ [r] ->
        exists tx amt value,
          py_get entry (str "tx") (JObj []) = Ok tx /\
          py_get tx (str "Amount") (JObj []) = Ok (JObj amt) /\
          py_get (JObj amt) (str "value") (JStr (str "0")) = Ok value /\
          convert_amount value = Ok (amount r)).
Proof.
  split; [|split; [|split; [|split; [|split]]]].
  - intros s H. unfold convert_amount. simpl. rewrite H. reflexivity.
  - intros s m e H. unfold convert_amount. simpl. rewrite H.
    destruct (py_int_truncates m e) as (a & Ha & Ht).
    exists a. unfold bind. rewrite Ha. auto.
  - reflexivity.
  - reflexivity.
  - reflexivity.
  - intros c h entry c' h' r H Hs.
    destruct (main_entry_inserted _ _ _ _ _ _ H Hs) as (tx & Htx & Hp & Hrow).
    destruct (token_payment_amount tx Hp) as (amt & Ha).
    destruct (tx_row_fields tx r Hrow)
      as (li & hh & f & t & am & v & rt & m & _ & _ & _ & _ & Ham & Hv & Hc & _).
    rewrite Ha in Ham. injection Ham as <-.
    exists tx, amt, v. auto.
Qed.

Lemma convert_amount_infinite (s : pystr) (negative : bool) :
  float_of_str s = Some (FInf negative) ->
  convert_amount (JStr s) = Raise OverflowError.
Proof.
  intros H. unfold convert_amount. simpl. rewrite H. reflexivity.
Qed.

Lemma entry_effect_raises_in_amount (entry : json)
    (members amt : list (pystr * json)) (value : json) (e : exn) :
  py_get entry (str "tx") (JObj []) = Ok (JObj members) ->
  token_payment (JObj members) CURRENCY_CODE ISSUER_ADDRESS ->
  (exists n, py_gt_int (match lookup (str "ledger_index") members with
                        | Some v => v
                        | None => JNum 0
                        end) 0 = Ok n) ->
  lookup (str "Amount") members = Some (JObj amt) ->
  lookup (str "value") amt = Some value ->
  convert_amount value = Raise e ->
  entry_effect entry = Raise e.
Proof.
  intros Htx Hp (n & Hn) Ha Hv Hc.
  apply is_token_payment_true in Hp.
  destruct (py_get_object _ _ _ _ Htx) as (em & ->).
  unfold entry_effect. rewrite Htx. simpl.
  rewrite Hn. simpl. rewrite Hp. simpl.
  unfold tx_row. simpl. rewrite Ha. simpl. rewrite Hv. simpl.
  rewrite Hc. reflexivity.
Qed.

Lemma main_batch_raises (pre : list json) :
  forall c h c1 h1 entry rest e,
    main_batch c h pre = Ok (c1, h1) ->
    main_entry c1 h1 entry = Raise e ->
    main_batch c h (pre ++ entry :: rest) = Raise e.
Proof.
  induction pre as [|x pre IH]; intros c h c1 h1 entry rest e Hpre He.
  - simpl in Hpre. injection Hpre as <- <-. simpl. rewrite He. reflexivity.
  - simpl in Hpre |- *.
    destruct (main_entry c h x) as [[c2 h2]|]; simpl in Hpre |- *;
      [|discriminate].
    eapply IH; eassumption.
Qed.

(** C9. The fallback of the amount conversion catches [ValueError]
    only.  A string that [float] reads as an infinity, such as 1e999,
    makes [int] raise [OverflowError]; nothing catches it, so a page that
    holds a matching transaction with such a value ends the run, and the
    rows of that page are not committed. *)
Theorem amount_overflow_aborts
    (fuel : nat) (lo : Z) (st : loop_state) (batch next : json)
    (pre rest : list json) (entry : json) (members amt : list (pystr * json))
    (s : pystr) (negative : bool) (c1 : connection) (h1 : Z) (n : bool) :
  fetch_account_transactions ACCOUNT_TO_CHECK lo DEFAULT_LIMIT (marker st)
  = Ok (batch, next) ->
  py_iter batch = Ok (pre ++ entry :: rest) ->
  main_batch (conn st) (highest_ledger_this_run st) pre = Ok (c1, h1) ->
  py_get entry (str "tx") (JObj []) = Ok (JObj members) ->
  token_payment (JObj members) CURRENCY_CODE ISSUER_ADDRESS ->
  py_gt_int (match lookup (str "ledger_index") members with
             | Some v => v
             | None => JNum 0
             end) 0 = Ok n ->
  lookup (str "Amount") members = Some (JObj amt) ->
  lookup (str "value") amt = Some (JStr s) ->
  float_of_str s = Some (FInf negative) ->
  float_of_str (str "1e999") = Some (FInf false)
  /\ convert_amount (JStr (str "1e999")) = Raise OverflowError
  /\ convert_amount (JStr s) = Raise OverflowError
  /\ main_entry c1 h1 entry = Raise OverflowError
  /\ main_loop (S fuel) lo st
     = (Aborted OverflowError,
        mk_state (rollback (conn st)) (marker st) (highest_ledger_this_run st)
          (posted st ++
           [request_body ACCOUNT_TO_CHECK lo DEFAULT_LIMIT (marker st)])).
Proof.
  intros Hf Hi Hpre Htx Hp Hn Ha Hv Hs.
  pose proof (convert_amount_infinite s negative Hs) as Hc.
  assert (He : main_entry c1 h1 entry = Raise OverflowError).
  { rewrite main_entry_eq.
    rewrite (entry_effect_raises_in_amount entry members amt (JStr s)
               OverflowError Htx Hp (ex_intro _ n Hn) Ha Hv Hc).
    reflexivity. }
  split; [reflexivity|]. split; [reflexivity|]. split; [exact Hc|].
  split; [exact He|].
  cbn [main_loop]. rewrite Hf, Hi. unfold bind at 1.
  rewrite (main_batch_raises pre _ _ c1 h1 entry rest OverflowError Hpre He).
  reflexivity.
Qed.

(** ** Timestamps *)

Lemma all_from_spec (p : Z -> bool) (k : nat) :
  forall z, all_from k z p = true ->
  forall i, z <= i < z + Z.of_nat k -> p i = true.
Proof.
  induction k as [|k IH]; intros z H i Hi; [lia|].
  simpl in H. apply andb_true_iff in H. destruct H as [Hz Hrest].
  destruct (Z.eq_dec i z) as [->|Hne]; [exact Hz|].
  apply (IH (z + 1) Hrest). lia.
Qed.

Lemma cycle_days_ok : all_from (Z.to_nat DI400Y) 0 cycle_day_ok = true.
Proof. vm_compute. reflexivity. Qed.

Lemma is_leap_shift (y q : Z) : is_leap (y + 400 * q) = is_leap y.
Proof.
  unfold is_leap.
  replace (y + 400 * q) with (y + (100 * q) * 4) at 1 by lia.
  replace (y + 400 * q) with (y + (4 * q) * 100) at 1 by lia.
  replace (y + 400 * q) with (y + q * 400) by lia.
  rewrite !Z.mod_add by lia. reflexivity.
Qed.

Lemma ymd2ord_shift (y m d q : Z) :
  ymd2ord (y + 400 * q) m d = ymd2ord y m d + DI400Y * q.
Proof.
  unfold ymd2ord, days_before_month, days_before_year, DI400Y.
  rewrite is_leap_shift.
  replace (y + 400 * q - 1) with (y - 1 + (100 * q) * 4) at 2 by lia.
  replace (y + 400 * q - 1) with (y - 1 + (4 * q) * 100) at 2 by lia.
  replace (y + 400 * q - 1) with (y - 1 + q * 400) at 2 by lia.
  rewrite !Z.div_add by lia. lia.
Qed.

Lemma days_in_month_shift (y m q : Z) :
  days_in_month (y + 400 * q) m = days_in_month y m.
Proof. unfold days_in_month. rewrite is_leap_shift. reflexivity. Qed.

Lemma ord2ymd_shift (n : Z) :
  ord2ymd n =
  let '(y, m, d) := ord2ymd ((n - 1) mod DI400Y + 1) in
  (y + 400 * ((n - 1) / DI400Y), m, d).
Proof.
  unfold ord2ymd.
  assert (Hr : 0 <= (n - 1) mod DI400Y < DI400Y)
    by (apply Z.mod_pos_bound; reflexivity).
  replace ((n - 1) mod DI400Y + 1 - 1) with ((n - 1) mod DI400Y) by lia.
  rewrite (Z.div_small ((n - 1) mod DI400Y) DI400Y) by exact Hr.
  rewrite (Z.mod_small ((n - 1) mod DI400Y) DI400Y) by exact Hr.
  cbv zeta.
  destruct (_ || _); [f_equal; f_equal; lia|].
  destruct (_ <? _); f_equal; f_equal; lia.
Qed.

Lemma ord2ymd_inverse (n : Z) :
  let '(y, m, d) := ord2ymd n in
  ymd2ord y m d = n /\ 1 <= m <= 12 /\ 1 <= d <= days_in_month y m.
Proof.
  rewrite ord2ymd_shift.
  assert (Hr : 0 <= (n - 1) mod DI400Y < DI400Y)
    by (apply Z.mod_pos_bound; reflexivity).
  pose proof (all_from_spec cycle_day_ok _ 0 cycle_days_ok
                ((n - 1) mod DI400Y)) as Hc.
  rewrite Z2Nat.id in Hc by (unfold DI400Y; lia).
  specialize (Hc ltac:(lia)). unfold cycle_day_ok in Hc.
  destruct (ord2ymd ((n - 1) mod DI400Y + 1)) as [[y m] d].
  rewrite !andb_true_iff in Hc.
  destruct Hc as ((((H1 & H2) & H3) & H4) & H5).
  apply Z.eqb_eq in H1. apply Z.leb_le in H2, H3, H4, H5.
  rewrite ymd2ord_shift, days_in_month_shift, H1.
  pose proof (Z.div_mod (n - 1) DI400Y ltac:(unfold DI400Y; lia)).
  lia.
Qed.

Lemma utcfromtimestamp_inverse (ts : Z) (dt : datetime) :
  utcfromtimestamp ts = Ok dt ->
  unix_seconds dt = ts /\ valid_datetime dt.
Proof.
  unfold utcfromtimestamp.
  destruct (_ || _); [discriminate|].
  pose proof (ord2ymd_inverse (ts / 86400 + EPOCH_ORDINAL)) as Ho.
  destruct (ord2ymd (ts / 86400 + EPOCH_ORDINAL)) as [[y m] d].
  destruct (_ || _); [discriminate|].
  destruct (_ || _); [discriminate|].
  intros E. injection E as <-.
  destruct Ho as (Hord & Hm & Hd).
  unfold unix_seconds, valid_datetime. simpl. rewrite Hord.
  repeat split; try lia; Z.div_mod_to_equations; lia.
Qed.

Lemma days_before_month_bounds (y m : Z) :
  1 <= m <= 12 -> 0 <= days_before_month y m <= 335.
Proof.
  intros Hm. unfold days_before_month.
  assert (Hc : m = 1 \/ m = 2 \/ m = 3 \/ m = 4 \/ m = 5 \/ m = 6 \/
               m = 7 \/ m = 8 \/ m = 9 \/ m = 10 \/ m = 11 \/ m = 12) by lia.
  destruct (is_leap y);
    repeat (destruct Hc as [->|Hc]; [vm_compute; split; discriminate|]);
    subst; vm_compute; split; discriminate.
Qed.

Lemma days_in_month_le (y m : Z) : days_in_month y m <= 31.
Proof.
  unfold days_in_month, DAYS_IN_MONTH.
  destruct (_ && _); [lia|].
  destruct (Z.to_nat m) as [|[|[|[|[|[|[|[|[|[|[|[|[|[|k]]]]]]]]]]]]]];
    simpl; lia.
Qed.

Lemma utcfromtimestamp_total (ts : Z) :
  -62135596800 <= ts <= 253402300799 ->
  exists dt, utcfromtimestamp ts = Ok dt.
Proof.
  intros Hts. unfold utcfromtimestamp.
  destruct ((ts <? - 2 ^ 63) || (2 ^ 63 <=? ts)) eqn:E1.
  { apply orb_true_iff in E1. destruct E1 as [E|E];
      [apply Z.ltb_lt in E | apply Z.leb_le in E]; lia. }
  pose proof (ord2ymd_inverse (ts / 86400 + EPOCH_ORDINAL)) as Ho.
  destruct (ord2ymd (ts / 86400 + EPOCH_ORDINAL)) as [[y m] d].
  destruct Ho as (Hord & Hm & Hd).
  pose proof (days_before_month_bounds y m Hm) as Hbm.
  pose proof (days_in_month_le y m) as Hdm.
  assert (Hy : 1 <= y <= 9999).
  { unfold ymd2ord, days_before_year, EPOCH_ORDINAL in Hord.
    Z.div_mod_to_equations. lia. }
  replace ((y - 1900 <? - 2 ^ 31) || (2 ^ 31 <=? y - 1900)) with false.
  2:{ symmetry. apply orb_false_iff. split;
        [apply Z.ltb_ge | apply Z.leb_gt]; lia. }
  replace ((y <? 1) || (9999 <? y)) with false.
  2:{ symmetry. apply orb_false_iff. split; apply Z.ltb_ge; lia. }
  eauto.
Qed.

(** C6. A ledger time [t] that is present is stored as the datetime
    that lies [t + 946684800] seconds after 1970-01-01T00:00:00 UTC, so
    0 becomes 2000-01-01T00:00:00; every [t] whose instant falls in the
    years 1 to 9999 is converted; a transaction without a [date] is
    stored without a timestamp. *)
Theorem timestamp_conversion :
  (forall v t dt,
      int_value v = Some t ->
      get_ripple_datetime v = Ok dt ->
      unix_seconds dt = t + 946684800 /\ valid_datetime dt)
  /\ (forall t,
        -62135596800 <= t + 946684800 <= 253402300799 ->
        exists dt, get_ripple_datetime (JNum t) = Ok dt)
  /\ ripple_to_unix_time (JNum 0) = Ok 946684800
  /\ get_ripple_datetime (JNum 0) = Ok (mk_datetime 2000 1 1 0 0 0 0)
  /\ (forall c h entry c' h' r,
        main_entry c h entry = Ok (c', h') ->
        session c' = session c ++ [r] ->
        exists members,
          py_get entry (str "tx") (JObj []) = Ok (JObj members) /\
          (lookup (str "date") members = None ->
           transaction_timestamp r = None) /\
          (forall t, lookup (str "date") members = Some (JNum t) ->
             exists dt, transaction_timestamp r = Some dt /\
                        unix_seconds dt = t + 946684800)).
Proof.
  assert (Hconv : forall v t dt,
             int_value v = Some t ->
             get_ripple_datetime v = Ok dt ->
             unix_seconds dt = t + 946684800 /\ valid_datetime dt).
  { intros v t dt Hv H. unfold get_ripple_datetime, ripple_to_unix_time in H.
    rewrite Hv in H. simpl in H. apply utcfromtimestamp_inverse, H. }
  split; [exact Hconv|]. split; [|split; [|split]].
  - intros t Ht. unfold get_ripple_datetime. simpl.
    apply utcfromtimestamp_total, Ht.
  - reflexivity.
  - reflexivity.
  - intros c h entry c' h' r H Hs.
    destruct (main_entry_inserted _ _ _ _ _ _ H Hs) as (tx & Htx & Hp & Hrow).
    destruct Hp as (members & amt & -> & _).
    exists members. split; [exact Htx|].
    destruct (tx_row_fields _ r Hrow)
      as (li & hh & f & t & am & v & rt & m & _ & _ & _ & _ & _ & _ & _
          & Hrt & Hdt & _).
    simpl in Hrt. split.
    + intros Hno. rewrite Hno in Hrt. injection Hrt as <-.
      simpl in Hdt. congruence.
    + intros t0 Hd. rewrite Hd in Hrt. injection Hrt as <-.
      unfold datetime_of in Hdt.
      destruct (get_ripple_datetime (JNum t0)) as [dt|] eqn:Eg;
        simpl in Hdt; [|discriminate].
      exists dt. split; [congruence|].
      apply (Hconv (JNum t0) t0 dt eq_refl Eg).
Qed.

(** ** Pages *)

Lemma main_loop_step (fuel : nat) (lo : Z) (st : loop_state) :
  main_loop (S fuel) lo st =
  match main_page lo st with
  | Raise e => (Aborted e, failed_state lo st)
  | Ok st' =>
      if negb (py_truthy (marker st')) then (Completed, st')
      else main_loop fuel lo st'
  end.
Proof.
  cbn [main_loop]. unfold main_page, failed_state.
  destruct (fetch_account_transactions _ _ _ _) as [[batch next]|e];
    [|reflexivity].
  simpl. destruct (py_iter batch) as [es|e]; simpl; [|reflexivity].
  destruct (main_batch _ _ es) as [[c' h']|e]; reflexivity.
Qed.

Lemma main_loop_completed (fuel : nat) (lo : Z) :
  forall st st',
    main_loop fuel lo st = (Completed, st') ->
    exists n, (n <= fuel)%nat /\ paginates lo st n st'.
Proof.
  induction fuel as [|fuel IH]; intros st st' H; [discriminate|].
  rewrite main_loop_step in H.
  destruct (main_page lo st) as [st1|e] eqn:Ep; [|discriminate].
  destruct (py_truthy (marker st1)) eqn:Et; simpl in H.
  - apply IH in H. destruct H as (n & Hn & Hp).
    exists (S n). split; [lia|]. eapply paginates_more; eassumption.
  - injection H as <-. exists 1%nat. split; [lia|].
    apply paginates_last; assumption.
Qed.

Lemma paginates_completes (lo : Z) (st : loop_state) (n : nat)
    (st' : loop_state) :
  paginates lo st n st' ->
  forall fuel, (n <= fuel)%nat -> main_loop fuel lo st = (Completed, st').
Proof.
  induction 1 as [st st' Hp Ht | st st1 n st' Hp Ht _ IH]; intros fuel Hf.
  - destruct fuel as [|fuel]; [lia|].
    rewrite main_loop_step, Hp, Ht. reflexivity.
  - destruct fuel as [|fuel]; [lia|].
    rewrite main_loop_step, Hp, Ht. simpl. apply IH. lia.
Qed.

Lemma main_page_marker (lo : Z) (st st' : loop_state) :
  main_page lo st = Ok st' ->
  exists reply res,
    post (request_body ACCOUNT_TO_CHECK lo DEFAULT_LIMIT (marker st))
    = Ok reply /\
    py_getitem reply (str "result") = Ok (JObj res) /\
    marker st' = match lookup (str "marker") res with
                 | Some v => v
                 | None => JNull
                 end /\
    posted st' = posted st ++
                 [request_body ACCOUNT_TO_CHECK lo DEFAULT_LIMIT (marker st)].
Proof.
  unfold main_page, fetch_account_transactions. intros H.
  destruct (post _) as [reply|] eqn:Epost; simpl in H; [|discriminate].
  destruct (py_contains _ reply) as [[|]|]; simpl in H; try discriminate.
  destruct (py_getitem reply _) as [res|] eqn:Eres; simpl in H; [|discriminate].
  destruct res as [| | | | |res]; simpl in H; try discriminate.
  destruct (py_iter _); simpl in H; [|discriminate].
  destruct (main_batch _ _ _); simpl in H; [|discriminate].
  injection H as <-. exists reply, res. simpl. auto.
Qed.

Lemma falsy_values (v : json) :
  py_truthy v = false <->
  v = JNull \/ v = JBool false \/ v = JNum 0 \/ v = JStr [] \/
  v = JArr [] \/ v = JObj [].
Proof.
  split.
  - destruct v as [|[|]|n|[|c s]|[|x l]|[|x m]]; simpl; try discriminate;
      try (intros _; repeat ((left; reflexivity) || right); reflexivity).
    destruct (n =? 0) eqn:E; simpl; [|discriminate].
    apply Z.eqb_eq in E. subst. auto.
  - intros [->|[->|[->|[->|[->| ->]]]]]; reflexivity.
Qed.

(** C7, amended. The loop completes exactly when, after any number of
    pages that came with a truthy marker, a page comes whose marker is
    falsy: absent or null, false, 0, or an empty string, list or object.
    Each page's marker is the [marker] member of the reply's result, and a
    truthy one is sent back in the next request. *)
Theorem pagination_termination (fuel : nat) (lo : Z) (st st' : loop_state) :
  (main_loop fuel lo st = (Completed, st') <->
   exists n, (n <= fuel)%nat /\ paginates lo st n st')
  /\ (forall st1,
        main_page lo st = Ok st1 ->
        (py_truthy (marker st1) = false ->
         main_loop (S fuel) lo st = (Completed, st1))
        /\ (py_truthy (marker st1) = true ->
            main_loop (S fuel) lo st = main_loop fuel lo st1 /\
            exists params,
              request_body ACCOUNT_TO_CHECK lo DEFAULT_LIMIT (marker st1)
              = JObj [(str "method", JStr (str "account_tx"));
                      (str "params", JArr [JObj params])] /\
              lookup (str "marker") params = Some (marker st1))
        /\ exists reply res,
            post (request_body ACCOUNT_TO_CHECK lo DEFAULT_LIMIT (marker st))
            = Ok reply /\
            py_getitem reply (str "result") = Ok (JObj res) /\
            marker st1 = match lookup (str "marker") res with
                         | Some v => v
                         | None => JNull
                         end)
  /\ (forall v,
        py_truthy v = false <->
        v = JNull \/ v = JBool false \/ v = JNum 0 \/ v = JStr [] \/
        v = JArr [] \/ v = JObj []).
Proof.
  split; [|split].
  - split.
    + apply main_loop_completed.
    + intros (n & Hn & Hp). eapply paginates_completes; eassumption.
  - intros st1 Hp. split; [|split].
    + intros Ht. rewrite main_loop_step, Hp, Ht. reflexivity.
    + intros Ht. split.
      * rewrite main_loop_step, Hp, Ht. reflexivity.
      * unfold request_body. rewrite Ht. eexists. split; [reflexivity|].
        reflexivity.
    + destruct (main_page_marker lo st st1 Hp) as (reply & res & H1 & H2 & H3 & _).
      exists reply, res. auto.
  - apply falsy_values.
Qed.

(** ** Failing fetches *)

Lemma fetch_lacking_result (lo : Z) (mk reply : json) :
  post (request_body ACCOUNT_TO_CHECK lo DEFAULT_LIMIT mk) = Ok reply ->
  lacks_result reply ->
  exists e,
    fetch_account_transactions ACCOUNT_TO_CHECK lo DEFAULT_LIMIT mk = Raise e
    /\ (forall members, reply = JObj members -> e = Exception reply).
Proof.
  intros Hpost Hl. unfold fetch_account_transactions. rewrite Hpost. simpl.
  destruct reply as [| | | | |members]; simpl;
    try (exists TypeError; split; [reflexivity | discriminate]).
  - destruct (is_substring _ _); simpl; eexists;
      (split; [reflexivity | discriminate]).
  - destruct (existsb _ _); simpl; eexists;
      (split; [reflexivity | discriminate]).
  - simpl in Hl. rewrite Hl. simpl. eexists. split; [reflexivity|].
    intros m E. reflexivity.
Qed.

Lemma main_loop_resume (k : nat) (lo : Z) :
  forall st stk j,
    main_loop k lo st = (Unfinished, stk) ->
    main_loop (k + j) lo st = main_loop j lo stk.
Proof.
  induction k as [|k IH]; intros st stk j H.
  - simpl in H. injection H as <-. reflexivity.
  - change (S k + j)%nat with (S (k + j)).
    rewrite main_loop_step in H |- *.
    destruct (main_page lo st) as [st1|e]; [|discriminate].
    destruct (negb (py_truthy (marker st1))); [discriminate|].
    apply IH, H.
Qed.

(** C8. When the reply to a request has no result envelope the fetch
    raises (the [Exception] of the source, for a reply that is an
    object), the run ends there without posting the request again, and
    storage is what the pages before had committed. *)
Theorem retrieval_failure_aborts
    (k j : nat) (storage : table) (stk : loop_state) (reply : json) :
  main k storage = (Unfinished, stk) ->
  post (request_body ACCOUNT_TO_CHECK (lower_bound storage) DEFAULT_LIMIT
          (marker stk)) = Ok reply ->
  lacks_result reply ->
  exists e,
    fetch_account_transactions ACCOUNT_TO_CHECK (lower_bound storage)
                               DEFAULT_LIMIT (marker stk) = Raise e
    /\ (forall members, reply = JObj members -> e = Exception reply)
    /\ main (k + S j) storage
       = (Aborted e,
          mk_state (conn stk) (marker stk) (highest_ledger_this_run stk)
            (posted stk ++
             [request_body ACCOUNT_TO_CHECK (lower_bound storage)
                DEFAULT_LIMIT (marker stk)]))
    /\ storage_after (main (k + S j) storage) = storage_after (main k storage)
    /\ storage_after (main k storage) = session (conn stk).
Proof.
  intros Hk Hpost Hl.
  destruct (fetch_lacking_result _ _ _ Hpost Hl) as (e & Hf & He).
  pose proof (main_loop_synced k (lower_bound storage)
                (mk_state (connect storage) JNull (lower_bound storage) [])
                eq_refl) as Hs.
  unfold main in *. fold (lower_bound storage) in *.
  rewrite Hk in Hs. simpl in Hs.
  destruct (commit_synced (conn stk) Hs) as [_ Hroll].
  assert (Hrun : main_loop (k + S j) (lower_bound storage)
                   (mk_state (connect storage) JNull (lower_bound storage) [])
                 = (Aborted e,
                    mk_state (conn stk) (marker stk)
                      (highest_ledger_this_run stk)
                      (posted stk ++
                       [request_body ACCOUNT_TO_CHECK (lower_bound storage)
                          DEFAULT_LIMIT (marker stk)]))).
  { rewrite (main_loop_resume k _ _ stk (S j) Hk).
    rewrite main_loop_step. unfold main_page. rewrite Hf. simpl.
    unfold failed_state. rewrite Hroll. reflexivity. }
  exists e. split; [exact Hf|]. split; [exact He|]. split; [exact Hrun|].
  rewrite Hrun, Hk. unfold storage_after. simpl.
  split; [reflexivity | symmetry; exact Hs].
Qed.

(** ** Rows only come, and where their ledger index comes from *)

Lemma main_keeps_rows (fuel : nat) (storage : table) (r : row) :
  In r storage -> In r (storage_after (main fuel storage)).
Proof.
  intros Hin. unfold main.
  refine (proj1 (main_loop_rel (fun _ t t' => incl t t') _ _ _ _ fuel _
                   (mk_state (connect storage) JNull _ []) eq_refl) r Hin).
  - intros t x Hx. exact Hx.
  - intros es1 es2 t1 t2 t3 H1 H2 x Hx. apply H2, H1, Hx.
  - intros es es' t1 t2 H. exact H.
  - intros e c [r0|] _ x Hx; simpl; [|exact Hx].
    unfold insert_row. destruct (has_hash _ _); simpl; [exact Hx|].
    apply in_or_app. left. exact Hx.
Qed.

Lemma row_ledger_of_entry (e tx : json) (r : row) :
  py_get e (str "tx") (JObj []) = Ok tx ->
  token_payment tx CURRENCY_CODE ISSUER_ADDRESS ->
  tx_row tx = Ok r ->
  entry_ledger e = ledger_index r.
Proof.
  intros Htx (members & amt & -> & Hty & _) Hrow.
  destruct (tx_row_fields _ _ Hrow)
    as (li & hh & f & t & am & v & rt & m & Hli & _ & _ & _ & _ & _ & _ & _
        & _ & _ & Hb).
  apply bind_row_fields in Hb. destruct Hb as (Hint & _).
  destruct li; simpl in Hint; try discriminate. injection Hint as <-.
  destruct e as [| | | | |em]; simpl in Htx; try discriminate.
  unfold entry_ledger.
  destruct (lookup (str "tx") em) as [x|].
  - injection Htx as ->. simpl in Hli.
    destruct (lookup (str "ledger_index") members) as [y|].
    + injection Hli as ->. reflexivity.
    + injection Hli as <-. reflexivity.
  - injection Htx as E. subst members. simpl in Hty. discriminate.
Qed.

(* ================================================================== *)
(** * Further properties of the ingestion script                        *)
(* ================================================================== *)

(** ** Stored rows stay *)

Lemma run_appends (fuel : nat) (lo : Z) (st : loop_state) :
  synced st ->
  exists added,
    storage_after (main_loop fuel lo st) = session (conn st) ++ added.
Proof.
  intros Hs.
  apply (main_loop_rel (fun _ t t' => exists added, t' = t ++ added)); auto.
  - intros t. exists []. rewrite app_nil_r. reflexivity.
  - intros es1 es2 t1 t2 t3 (a1 & ->) (a2 & ->).
    exists (a1 ++ a2). rewrite app_assoc. reflexivity.
  - intros e c [r|] _; simpl.
    + unfold insert_row. destruct (has_hash _ _); simpl.
      * exists []. rewrite app_nil_r. reflexivity.
      * exists [r]. reflexivity.
    + exists []. rewrite app_nil_r. reflexivity.
Qed.

Lemma unique_hashes_same_row (t : table) (r r' : row) :
  unique_hashes t -> In r t -> In r' t ->
  transaction_hash r' = transaction_hash r -> r' = r.
Proof.
  unfold unique_hashes. induction t as [|x t IH]; simpl; [contradiction|].
  intros Hnd Hr Hr' E. inversion Hnd as [|? ? Hnotin Hnd']; subst.
  destruct Hr as [->|Hr], Hr' as [->|Hr']; auto.
  - exfalso. apply Hnotin. rewrite <- E. apply in_map, Hr'.
  - exfalso. apply Hnotin. rewrite E. apply in_map, Hr.
Qed.

(** X1. A run only appends: whatever its outcome, storage afterwards is
    storage before followed by the new rows, in the order they came; and
    in a table with unique hashes the row stored under a hash is still
    the same row afterwards, never a later transaction with that hash. *)
Theorem stored_rows_are_kept (fuel : nat) (storage : table) :
  (exists added, storage_after (main fuel storage) = storage ++ added)
  /\ (unique_hashes storage ->
      forall r r',
        In r storage ->
        In r' (storage_after (main fuel storage)) ->
        transaction_hash r' = transaction_hash r -> r' = r).
Proof.
  assert (Happ : exists added,
             storage_after (main fuel storage) = storage ++ added).
  { exact (run_appends fuel (lower_bound storage)
             (mk_state (connect storage) JNull (lower_bound storage) [])
             eq_refl). }
  split; [exact Happ|].
  intros Hu r r' Hr Hr' E.
  apply (unique_hashes_same_row (storage_after (main fuel storage))); auto.
  - apply unique_hashes_run; [reflexivity | exact Hu].
  - destruct Happ as (added & ->). apply in_or_app. left. exact Hr.
Qed.

(** ** Whole pages only *)

Lemma main_loop_aborted (fuel : nat) (lo : Z) :
  forall st e st',
    main_loop fuel lo st = (Aborted e, st') ->
    exists k stk,
      (k < fuel)%nat /\
      main_loop k lo st = (Unfinished, stk) /\
      main_page lo stk = Raise e /\
      st' = failed_state lo stk.
Proof.
  induction fuel as [|fuel IH]; intros st e st' H; [discriminate|].
  rewrite main_loop_step in H.
  destruct (main_page lo st) as [st1|e1] eqn:Ep.
  - destruct (py_truthy (marker st1)) eqn:Et; simpl in H; [|discriminate].
    apply IH in H. destruct H as (k & stk & Hk & Hrun & Hpage & ->).
    exists (S k), stk. split; [lia|].
    rewrite main_loop_step, Ep, Et. simpl. auto.
  - injection H as <- <-. exists O, st. split; [lia|]. auto.
Qed.

(** X2. A run that ends with an exception, whatever raised it (the
    fetch, the iteration over the page, the conversion or the insertion
    of an entry), leaves in storage exactly what the run had after the
    last page it went through completely: the failing page contributes
    nothing, the pages before it everything. *)
Theorem aborted_run_keeps_whole_pages
    (fuel : nat) (storage : table) (e : exn) (st' : loop_state) :
  main fuel storage = (Aborted e, st') ->
  exists k stk,
    (k < fuel)%nat /\
    main k storage = (Unfinished, stk) /\
    main_page (lower_bound storage) stk = Raise e /\
    storage_after (main fuel storage) = storage_after (main k storage) /\
    posted st' = posted stk ++
                 [request_body ACCOUNT_TO_CHECK (lower_bound storage)
                    DEFAULT_LIMIT (marker stk)].
Proof.
  intros H. unfold main in *. fold (lower_bound storage) in *.
  destruct (main_loop_aborted _ _ _ _ _ H) as (k & stk & Hk & Hrun & Hp & ->).
  exists k, stk. split; [exact Hk|]. split; [exact Hrun|].
  split; [exact Hp|]. split; [|reflexivity].
  rewrite H, Hrun. unfold storage_after, failed_state. simpl.
  pose proof (main_loop_synced k (lower_bound storage)
                (mk_state (connect storage) JNull (lower_bound storage) [])
                eq_refl) as Hs.
  rewrite Hrun in Hs. simpl in Hs. unfold synced in Hs. reflexivity.
Qed.

(** ** What a completed run has stored *)

Lemma entry_effect_matched (e tx : json) (eff : option row) :
  py_get e (str "tx") (JObj []) = Ok tx ->
  is_token_payment tx CURRENCY_CODE ISSUER_ADDRESS = Ok true ->
  entry_effect e = Ok eff ->
  exists r, eff = Some r /\ tx_row tx = Ok r.
Proof.
  unfold entry_effect. intros Htx Hp H. rewrite Htx in H. simpl in H.
  destruct (py_get e (str "meta") (JObj [])); simpl in H; [|discriminate].
  destruct (py_get tx (str "ledger_index") (JNum 0)); simpl in H; [|discriminate].
  destruct (py_gt_int _ 0); simpl in H; [|discriminate].
  rewrite Hp in H. simpl in H.
  destruct (tx_row tx) as [r|]; simpl in H; [|discriminate].
  injection H as <-. eauto.
Qed.

(** X3. After a run that completed, every transaction it was served
    that passes the filter has a row with its hash in storage: its own
    row, or the row that held the hash before it. *)
Theorem completed_run_stores_matches
    (fuel : nat) (storage : table) (st' : loop_state) (e tx : json) :
  main fuel storage = (Completed, st') ->
  In e (fetched fuel (lower_bound storage) JNull) ->
  py_get e (str "tx") (JObj []) = Ok tx ->
  token_payment tx CURRENCY_CODE ISSUER_ADDRESS ->
  exists r,
    tx_row tx = Ok r /\
    has_hash (transaction_hash r) (storage_after (main fuel storage)) = true.
Proof.
  intros H Hin Htx Hp. unfold main in *. fold (lower_bound storage) in *.
  pose proof (main_loop_synced fuel (lower_bound storage)
                (mk_state (connect storage) JNull (lower_bound storage) [])
                eq_refl) as Hs.
  rewrite H in *. simpl in Hs. unfold storage_after. simpl.
  apply main_loop_absorbs in H. simpl in H. destruct H as [_ Habs].
  destruct (Habs e Hin) as (eff & He & Hr).
  apply is_token_payment_true in Hp.
  destruct (entry_effect_matched e tx eff Htx Hp He) as (r & -> & Hrow).
  exists r. split; [exact Hrow|].
  unfold synced in Hs. rewrite <- Hs. apply Hr. reflexivity.
Qed.

(** ** New rows and the lower bound *)

(** X4. When the remote serves nothing below the lower bound it was
    asked for, every row a run adds lies in a ledger above all the rows
    stored before: a transaction in a ledger at or below the stored
    maximum is never added by a later run. *)
Theorem new_rows_lie_above (fuel : nat) (storage : table) :
  (forall e, In e (fetched fuel (lower_bound storage) JNull) ->
             lower_bound storage <= entry_ledger e) ->
  forall r,
    In r (storage_after (main fuel storage)) ->
    In r storage \/
    (lower_bound storage <= ledger_index r /\
     forall r0, In r0 storage -> ledger_index r0 < ledger_index r).
Proof.
  intros Hserved r Hr.
  destruct (provenance_run fuel (lower_bound storage)
              (mk_state (connect storage) JNull (lower_bound storage) [])
              eq_refl r Hr) as [Hin|(e & tx & He & Htx & Hp & Hrow)];
    [left; exact Hin|].
  right. specialize (Hserved e He).
  rewrite (row_ledger_of_entry e tx r Htx Hp Hrow) in Hserved.
  split; [exact Hserved|].
  intros r0 Hr0. unfold lower_bound, get_last_stored_ledger_index in Hserved.
  simpl in Hserved. pose proof (select_max_spec storage) as Hm.
  destruct (select_max_ledger_index storage) as [m|].
  - destruct Hm as [_ Hle]. specialize (Hle r0 Hr0). lia.
  - subst storage. destruct Hr0.
Qed.

(** ** Replies without transactions *)

(** X5. A reply whose result has neither a [transactions] nor a
    [marker] member, as an error reply inside the envelope has, is taken
    for an empty last page: the run completes without an exception and
    without touching storage.  A [transactions] member that is null is
    not covered by the default: iterating over it raises [TypeError] and
    the run ends there. *)
Theorem reply_without_transactions
    (fuel : nat) (lo : Z) (st : loop_state)
    (members res : list (pystr * json)) :
  synced st ->
  post (request_body ACCOUNT_TO_CHECK lo DEFAULT_LIMIT (marker st))
  = Ok (JObj members) ->
  lookup (str "result") members = Some (JObj res) ->
  lookup (str "marker") res = None ->
  (lookup (str "transactions") res = None ->
   main_loop (S fuel) lo st
   = (Completed,
      mk_state (conn st) JNull (highest_ledger_this_run st)
        (posted st ++
         [request_body ACCOUNT_TO_CHECK lo DEFAULT_LIMIT (marker st)])))
  /\ (lookup (str "transactions") res = Some JNull ->
      main_loop (S fuel) lo st = (Aborted TypeError, failed_state lo st)).
Proof.
  intros Hs Hpost Hres Hmk.
  destruct (commit_synced (conn st) Hs) as [Hcommit _].
  split; intros Htx; cbn [main_loop];
    unfold fetch_account_transactions; rewrite Hpost; simpl;
    rewrite Hres; simpl; rewrite Htx, Hmk; simpl.
  - rewrite Hcommit. reflexivity.
  - reflexivity.
Qed.

(** ** The highest ledger index of a run *)

Lemma new_highest_max (h : Z) (e : json) :
  new_highest h e = match entry_index e with
                    | Some n => Z.max h n
                    | None => h
                    end.
Proof.
  unfold new_highest, entry_index.
  destruct (bind _ _) as [v|]; [|reflexivity].
  destruct (int_value v) as [n|]; [|reflexivity].
  destruct (h <? n) eqn:E; [apply Z.ltb_lt in E | apply Z.ltb_ge in E]; lia.
Qed.

Lemma highest_of_app (h h1 h2 : Z) (es1 es2 : list json) :
  highest_of h es1 h1 -> highest_of h1 es2 h2 -> highest_of h (es1 ++ es2) h2.
Proof.
  intros (Hle1 & Hall1 & Hex1) (Hle2 & Hall2 & Hex2).
  split; [lia|]. split.
  - intros e n Hin He. apply in_app_or in Hin. destruct Hin as [Hin|Hin].
    + specialize (Hall1 e n Hin He). lia.
    + exact (Hall2 e n Hin He).
  - destruct Hex2 as [->|(e & Hin & He)].
    + destruct Hex1 as [->|(e & Hin & He)]; [left; reflexivity|].
      right. exists e. split; [apply in_or_app; left; exact Hin | exact He].
    + right. exists e. split; [apply in_or_app; right; exact Hin | exact He].
Qed.

Lemma main_batch_highest (es : list json) :
  forall c h c' h',
    main_batch c h es = Ok (c', h') -> highest_of h es h'.
Proof.
  induction es as [|e es IH]; intros c h c' h' H.
  - simpl in H. injection H as _ <-.
    split; [lia|]. split; [intros e n []|left; reflexivity].
  - rewrite main_batch_cons in H.
    destruct (entry_effect e) as [eff|]; [|discriminate]. simpl in H.
    apply IH in H. change (e :: es) with ([e] ++ es).
    apply (highest_of_app h (new_highest h e)); [|exact H].
    rewrite new_highest_max.
    destruct (entry_index e) as [n|] eqn:En.
    + split; [lia|]. split.
      * intros e0 n0 [<-|[]] He0. rewrite En in He0. injection He0 as <-. lia.
      * destruct (Z.max_spec h n) as [[_ ->]|[_ ->]];
          [right; exists e; simpl; auto | left; reflexivity].
    + split; [lia|]. split; [|left; reflexivity].
      intros e0 n0 [<-|[]] He0. congruence.
Qed.

Lemma main_loop_highest (fuel : nat) (lo : Z) :
  forall st st',
    main_loop fuel lo st = (Completed, st') ->
    highest_of (highest_ledger_this_run st) (fetched fuel lo (marker st))
               (highest_ledger_this_run st').
Proof.
  induction fuel as [|fuel IH]; intros st st' H; [discriminate|].
  cbn [main_loop fetched] in H |- *.
  destruct (fetch_account_transactions ACCOUNT_TO_CHECK lo DEFAULT_LIMIT
              (marker st)) as [[batch next]|e]; [|discriminate].
  destruct (py_iter batch) as [es|e]; simpl in H; [|discriminate].
  destruct (main_batch (conn st) (highest_ledger_this_run st) es)
    as [[c' h']|e] eqn:Eb; [|discriminate].
  apply main_batch_highest in Eb.
  destruct (py_truthy next); simpl in H.
  - apply IH in H. simpl in H. eapply highest_of_app; eassumption.
  - injection H as <-. simpl. rewrite app_nil_r. exact Eb.
Qed.

(** X6. The ledger index a completed run reports as the last one
    processed is the largest of its lower bound and the ledger indices
    of all the entries it was served, matching or not; when it was
    served nothing above the bound it reports the bound itself, a ledger
    it has not processed. *)
Theorem highest_ledger_is_maximum
    (fuel : nat) (storage : table) (st' : loop_state) :
  main fuel storage = (Completed, st') ->
  lower_bound storage <= highest_ledger_this_run st'
  /\ (forall e n,
        In e (fetched fuel (lower_bound storage) JNull) ->
        entry_index e = Some n -> n <= highest_ledger_this_run st')
  /\ (highest_ledger_this_run st' = lower_bound storage \/
      exists e,
        In e (fetched fuel (lower_bound storage) JNull) /\
        entry_index e = Some (highest_ledger_this_run st')).
Proof.
  intros H. unfold main in H. fold (lower_bound storage) in H.
  exact (main_loop_highest _ _ _ _ H).
Qed.

End Interpreter.

(* ================================================================== *)
(** * A remote that answers by ledger range                             *)
(* ================================================================== *)

Section LedgerServer.

Variable unicode_decimal : N -> option N.
Variable ledger : list json.
Variable page_size : nat.
Hypothesis page_size_positive : (0 < page_size)%nat.

Let remote := ledger_server ledger page_size.

Lemma request_param_min (a : pystr) (lo lim : Z) (mk : json) :
  request_param (request_body a lo lim mk) "ledger_index_min"
  = Some (JNum lo).
Proof.
  unfold request_param, request_body. destruct (py_truthy mk); reflexivity.
Qed.

Lemma request_param_marker (a : pystr) (lo lim : Z) (mk : json) :
  request_param (request_body a lo lim mk) "marker"
  = if py_truthy mk then Some mk else None.
Proof.
  unfold request_param, request_body. destruct (py_truthy mk); reflexivity.
Qed.

Lemma marker_of_served (a : pystr) (lo lim : Z) (k : nat) :
  match request_param (request_body a lo lim (marker_of k)) "marker" with
  | Some (JNum z) => Z.to_nat z
  | _ => O
  end = k.
Proof.
  rewrite request_param_marker. destruct k as [|k]; [reflexivity|].
  unfold marker_of. simpl py_truthy.
  replace (Z.of_nat (S k) =? 0) with false
    by (symmetry; apply Z.eqb_neq; lia).
  change (Z.to_nat (Z.of_nat (S k)) = S k). apply Nat2Z.id.
Qed.

Lemma fetch_ledger_server (lo : Z) (k : nat) :
  fetch_account_transactions remote ACCOUNT_TO_CHECK lo DEFAULT_LIMIT
    (marker_of k)
  = Ok (JArr (page_at ledger page_size lo k),
        marker_after ledger page_size lo k).
Proof.
  unfold fetch_account_transactions, remote, ledger_server.
  rewrite request_param_min, marker_of_served.
  unfold page_at, marker_after.
  destruct (skipn page_size (skipn k (served_from ledger lo))); reflexivity.
Qed.

Lemma marker_after_cases (lo : Z) (k : nat) :
  (skipn page_size (skipn k (served_from ledger lo)) = [] /\
   marker_after ledger page_size lo k = JNull)
  \/ (skipn page_size (skipn k (served_from ledger lo)) <> [] /\
      marker_after ledger page_size lo k = marker_of (k + page_size) /\
      py_truthy (marker_after ledger page_size lo k) = true).
Proof.
  unfold marker_after.
  destruct (skipn page_size (skipn k (served_from ledger lo))) as [|x l];
    [left; auto|].
  right. split; [discriminate|].
  destruct (k + page_size)%nat as [|n] eqn:E; [lia|].
  split; reflexivity.
Qed.

Lemma firstn_incl {A : Type} (n : nat) (l : list A) : incl (firstn n l) l.
Proof.
  revert l. induction n as [|n IH]; intros [|y l] x Hx; simpl in Hx;
    try contradiction.
  destruct Hx as [->|Hx]; [left; reflexivity | right; apply IH, Hx].
Qed.

Lemma skipn_incl {A : Type} (n : nat) (l : list A) : incl (skipn n l) l.
Proof.
  revert l. induction n as [|n IH]; intros [|y l] x Hx; simpl in Hx;
    try contradiction; try exact Hx.
  right. apply IH, Hx.
Qed.

Lemma page_at_in_range (lo : Z) (k : nat) :
  incl (page_at ledger page_size lo k) (served_from ledger lo).
Proof.
  unfold page_at. intros x Hx.
  apply (skipn_incl k), (firstn_incl page_size), Hx.
Qed.

Lemma fetched_in_range (lo : Z) (fuel : nat) :
  forall k, incl (fetched remote fuel lo (marker_of k)) (served_from ledger lo).
Proof.
  induction fuel as [|fuel IH]; intros k; [intros x []|].
  cbn [fetched]. rewrite fetch_ledger_server. cbn [py_iter].
  apply incl_app; [apply page_at_in_range|].
  destruct (marker_after_cases lo k) as [[_ ->]|(_ & -> & _)].
  - intros x [].
  - destruct (py_truthy _); [apply IH | intros x []].
Qed.

Lemma fetched_complete (lo : Z) (fuel : nat) :
  forall k st st',
    marker st = marker_of k ->
    main_loop unicode_decimal remote fuel lo st = (Completed, st') ->
    fetched remote fuel lo (marker_of k) = skipn k (served_from ledger lo).
Proof.
  induction fuel as [|fuel IH]; intros k st st' Hm H; [discriminate|].
  cbn [main_loop fetched] in H |- *. rewrite Hm in H.
  rewrite fetch_ledger_server in H |- *. cbn [py_iter] in H |- *.
  unfold bind at 1 in H.
  destruct (main_batch unicode_decimal (conn st) (highest_ledger_this_run st)
              (page_at ledger page_size lo k)) as [[c' h']|e];
    [|discriminate].
  unfold page_at.
  destruct (marker_after_cases lo k) as [[Hnil Hmk]|(Hne & Hmk & Ht)].
  - rewrite Hmk. simpl. rewrite app_nil_r.
    rewrite <- (firstn_skipn page_size (skipn k (served_from ledger lo))) at 2.
    rewrite Hnil, app_nil_r. reflexivity.
  - rewrite Ht in H |- *. simpl negb in H. cbv iota in H.
    rewrite Hmk in H |- *.
    pose proof (fun E => IH (k + page_size)%nat _ st' E H) as IH'.
    simpl in IH'. rewrite (IH' eq_refl).
    rewrite <- (firstn_skipn page_size (skipn k (served_from ledger lo))) at 2.
    rewrite skipn_skipn, (Nat.add_comm page_size k). reflexivity.
Qed.

Lemma served_from_narrows (lo lo' : Z) :
  lo <= lo' -> incl (served_from ledger lo') (served_from ledger lo).
Proof.
  intros Hle x. unfold served_from. rewrite !filter_In.
  intros [Hin Hx]. split; [exact Hin|].
  apply Z.leb_le in Hx. apply Z.leb_le. lia.
Qed.

Lemma lower_bound_grows (fuel : nat) (storage : table) :
  lower_bound storage
  <= lower_bound (storage_after (main unicode_decimal remote fuel storage)).
Proof.
  unfold lower_bound at 2. unfold get_last_stored_ledger_index. simpl.
  pose proof (select_max_spec
                (storage_after (main unicode_decimal remote fuel storage)))
    as Hnew.
  pose proof (main_keeps_rows unicode_decimal remote fuel storage) as Hkeep.
  pose proof (select_max_spec storage) as Hold.
  destruct (select_max_ledger_index
              (storage_after (main unicode_decimal remote fuel storage)))
    as [m1|].
  - destruct Hnew as [(r1 & Hr1 & <-) Hle].
    unfold lower_bound, get_last_stored_ledger_index. simpl.
    destruct (select_max_ledger_index storage) as [m0|].
    + destruct Hold as [(r0 & Hr0 & <-) _].
      specialize (Hle r0 (Hkeep r0 Hr0)). lia.
    + subst storage.
      pose proof (provenance_run unicode_decimal remote fuel (lower_bound [])
                    (mk_state (connect []) JNull (lower_bound []) [])
                    eq_refl r1 Hr1) as Hp.
      destruct Hp as [[]|(e & tx & He & Htx & Hpay & Hrow)].
      apply (fetched_in_range _ _ O) in He.
      unfold served_from in He. apply filter_In in He.
      destruct He as [_ He]. apply Z.leb_le in He.
      rewrite (row_ledger_of_entry unicode_decimal e tx r1 Htx Hpay Hrow) in He.
      change (lower_bound []) with 0 in He. lia.
  - unfold lower_bound, get_last_stored_ledger_index. simpl.
    destruct (select_max_ledger_index storage) as [m0|]; [|lia].
    destruct Hold as [(r0 & Hr0 & _) _].
    rewrite Hnew in Hkeep. destruct (Hkeep r0 Hr0).
Qed.

(** Against a remote that answers by ledger range, whatever ledger it
    holds and however it cuts it into pages, a second run leaves storage
    as the completed first run left it. *)
Lemma ledger_server_rerun (fuel1 fuel2 : nat) (storage : table)
    (st1 : loop_state) :
  main unicode_decimal remote fuel1 storage = (Completed, st1) ->
  storage_after
    (main unicode_decimal remote fuel2
       (storage_after (main unicode_decimal remote fuel1 storage)))
  = storage_after (main unicode_decimal remote fuel1 storage).
Proof.
  intros H1. apply (rerun_changes_nothing _ _ fuel1 fuel2 storage st1 H1).
  intros x Hx.
  apply (fetched_in_range _ _ O) in Hx.
  apply (served_from_narrows (lower_bound storage)) in Hx;
    [|apply lower_bound_grows].
  unfold main in H1.
  pose proof (fun E => fetched_complete (lower_bound storage) fuel1 O _ st1
                         E H1) as Hall.
  simpl in Hall. rewrite (Hall eq_refl). exact Hx.
Qed.

End LedgerServer.

(* ================================================================== *)
(** * The properties on the sample ledger                               *)
(* ================================================================== *)

Lemma idempotent_persistence_witness :
  fst (main sample_decimal (ledger_server sample_ledger 2) 5 []) = Completed
  /\ length (storage_after
               (main sample_decimal (ledger_server sample_ledger 2) 5 [])) = 2%nat
  /\ storage_after
       (main sample_decimal (ledger_server sample_ledger 2) 5
          (storage_after
             (main sample_decimal (ledger_server sample_ledger 2) 5 [])))
     = storage_after (main sample_decimal (ledger_server sample_ledger 2) 5 []).
Proof.
  split; [vm_compute; reflexivity|]. split; [vm_compute; reflexivity|].
  apply (proj2 (idempotent_persistence sample_decimal
                  (ledger_server sample_ledger 2))
           5%nat 5%nat []
           (snd (main sample_decimal (ledger_server sample_ledger 2) 5 []))).
  - vm_compute. reflexivity.
  - intros a Ha. vm_compute in Ha |- *. tauto.
Defined.

Lemma filter_precision_witness :
  main_entry sample_decimal (connect []) 0
    (payment (Some "AA02"%string) 5 "USD" "10" (Some 10) [])
  = Ok (connect [], 5)
  /\ connect [] = connect [].
Proof.
  split; [vm_compute; reflexivity|].
  eapply (proj1 (proj2 (proj2 (filter_precision sample_decimal
                                 (ledger_server sample_ledger 2) 0 [])))
            (connect []) 0
            (payment (Some "AA02"%string) 5 "USD" "10" (Some 10) [])
            _ _ (str "USD") (connect []) 5).
  - vm_compute. reflexivity.
  - vm_compute. reflexivity.
  - vm_compute. reflexivity.
  - vm_compute. reflexivity.
  - vm_compute. discriminate.
  - vm_compute. reflexivity.
Defined.

Lemma decoder_fallback_witness :
  fromhex (str "4142") = Some [65; 66]%N
  /\ decode_hex_or_base64 (JStr (str "4142"))
     = Ok (utf8_decode_replace [65; 66]%N).
Proof.
  split; [vm_compute; reflexivity|].
  apply (proj1 (decoder_fallback (str "4142")) [65; 66]%N).
  vm_compute. reflexivity.
Defined.

Lemma resumption_cursor_witness :
  exists rest,
    posted (snd (main sample_decimal (ledger_server sample_ledger 2) 1
                   (storage_after
                      (main sample_decimal (ledger_server sample_ledger 2)
                         5 []))))
    = request_body ACCOUNT_TO_CHECK 8 DEFAULT_LIMIT JNull :: rest.
Proof.
  exact (proj1 (proj2 (proj2 (resumption_cursor sample_decimal
                                (ledger_server sample_ledger 2)
                                (storage_after
                                   (main sample_decimal
                                      (ledger_server sample_ledger 2) 5 [])))))
           0%nat).
Defined.

Lemma amount_conversion_witness :
  float_of_str sample_decimal (str "123.99")
  = Some (FFinite 8725020590588559 (-46))
  /\ exists a,
       convert_amount sample_decimal (JStr (str "123.99")) = Ok a /\
       truncation_of 8725020590588559 (-46) a.
Proof.
  split; [vm_compute; reflexivity|].
  apply (proj1 (proj2 (amount_conversion sample_decimal)) (str "123.99")).
  vm_compute. reflexivity.
Defined.

Lemma timestamp_conversion_witness :
  get_ripple_datetime (JNum 86400) = Ok (mk_datetime 2000 1 2 0 0 0 0)
  /\ unix_seconds (mk_datetime 2000 1 2 0 0 0 0) = 86400 + 946684800
  /\ valid_datetime (mk_datetime 2000 1 2 0 0 0 0).
Proof.
  split; [vm_compute; reflexivity|].
  apply (proj1 (timestamp_conversion sample_decimal) (JNum 86400) 86400).
  - reflexivity.
  - vm_compute. reflexivity.
Defined.

Lemma pagination_termination_witness :
  exists n, (n <= 5)%nat /\
    paginates sample_decimal (ledger_server sample_ledger 2) 0
      (mk_state (connect []) JNull 0 []) n
      (snd (main sample_decimal (ledger_server sample_ledger 2) 5 [])).
Proof.
  apply (proj1 (proj1 (pagination_termination sample_decimal
                         (ledger_server sample_ledger 2) 5 0
                         (mk_state (connect []) JNull 0 [])
                         (snd (main sample_decimal
                                 (ledger_server sample_ledger 2) 5 []))))).
  vm_compute. reflexivity.
Defined.

(** C7 as stated fails: a reply whose marker is the empty object carries
    a marker, and the loop ends after it. *)
Lemma pagination_counterexample :
  ~ stops_exactly_without_marker sample_decimal empty_marker_server.
Proof.
  intros H.
  assert (Hpage : exists st1,
             main_page sample_decimal empty_marker_server 0
               (mk_state (connect []) JNull 0 []) = Ok st1).
  { eexists. vm_compute. reflexivity. }
  destruct Hpage as (st1 & Hpage).
  apply (proj1 (H 0 (mk_state (connect []) JNull 0 []) st1
                  (JObj [ (str "result",
                           JObj [ (str "transactions", JArr []);
                                  (str "marker", JObj []) ]) ])
                  Hpage eq_refl)).
  - eexists. vm_compute. reflexivity.
  - eexists _, _, (JObj []).
    split; [reflexivity|]. split; [vm_compute; reflexivity|].
    split; [vm_compute; reflexivity | discriminate].
Qed.

Lemma retrieval_failure_witness :
  length (storage_after
            (main sample_decimal (failing_server sample_ledger 2) 1 [])) = 1%nat
  /\ exists e,
       main sample_decimal (failing_server sample_ledger 2) 2 []
       = (Aborted e,
          mk_state
            (conn (snd (main sample_decimal (failing_server sample_ledger 2) 1 [])))
            (JNum 2) 5
            (posted (snd (main sample_decimal (failing_server sample_ledger 2) 1 []))
             ++ [request_body ACCOUNT_TO_CHECK 0 DEFAULT_LIMIT (JNum 2)]))
       /\ storage_after
            (main sample_decimal (failing_server sample_ledger 2) 2 [])
          = storage_after
              (main sample_decimal (failing_server sample_ledger 2) 1 []).
Proof.
  split; [vm_compute; reflexivity|].
  destruct (retrieval_failure_aborts sample_decimal
              (failing_server sample_ledger 2) 1 0 []
              (snd (main sample_decimal (failing_server sample_ledger 2) 1 []))
              (JObj [ (str "error", JStr (str "slowDown")) ]))
    as (e & _ & _ & Hrun & Hstore & _).
  - vm_compute. reflexivity.
  - vm_compute. reflexivity.
  - vm_compute. reflexivity.
  - exists e. split; [exact Hrun | exact Hstore].
Defined.

Lemma amount_overflow_witness :
  main_loop sample_decimal (ledger_server overflow_ledger 2) 5 0
    (mk_state (connect []) JNull 0 [])
  = (Aborted OverflowError,
     mk_state (connect []) JNull 0
       [request_body ACCOUNT_TO_CHECK 0 DEFAULT_LIMIT JNull]).
Proof.
  refine (proj2 (proj2 (proj2 (proj2
    (amount_overflow_aborts sample_decimal (ledger_server overflow_ledger 2)
       4 0 (mk_state (connect []) JNull 0 [])
       (JArr overflow_ledger) JNull
       [payment (Some "AA01"%string) 5 "PFT" "1" (Some 0) []] []
       (payment (Some "AA03"%string) 6 "PFT" "1e999" (Some 0) [])
       _ _ (str "1e999") false _ _ true _ _ _ _ _ _ _ _ _))))).
  - vm_compute. reflexivity.
  - vm_compute. reflexivity.
  - vm_compute. reflexivity.
  - vm_compute. reflexivity.
  - eexists _, _. repeat split; vm_compute; reflexivity.
  - vm_compute. reflexivity.
  - vm_compute. reflexivity.
  - vm_compute. reflexivity.
  - vm_compute. reflexivity.
Defined.

Lemma hashless_record_witness :
  unique_hashes []
  /\ length (filter hashless
               (storage_after
                  (main sample_decimal (ledger_server sample_ledger 2) 5 [])))
     = 1%nat
  /\ (length (filter hashless
                (storage_after
                   (main sample_decimal (ledger_server sample_ledger 2) 5 [])))
      <= 1)%nat.
Proof.
  split; [constructor|]. split; [vm_compute; reflexivity|].
  apply (proj2 (hashless_record sample_decimal
                  (ledger_server sample_ledger 2) 5 [])).
  constructor.
Defined.

(* ================================================================== *)
(** * Memos written as hexadecimal UTF-8                                *)
(* ================================================================== *)

Local Open Scope N_scope.

Lemma hex_char_digit (upper : bool) (d : N) :
  d < 16 ->
  hex_digit (hex_char upper d) = Some d /\ py_isspace (hex_char upper d) = false.
Proof.
  intros Hd.
  assert (Hc : d = 0 \/ d = 1 \/ d = 2 \/ d = 3 \/ d = 4 \/ d = 5 \/ d = 6 \/
               d = 7 \/ d = 8 \/ d = 9 \/ d = 10 \/ d = 11 \/ d = 12 \/
               d = 13 \/ d = 14 \/ d = 15) by lia.
  destruct upper;
    repeat (destruct Hc as [->|Hc]; [split; reflexivity|]);
    subst; split; reflexivity.
Qed.

Lemma fromhex_hexlify (upper : bool) (b : bytes) :
  Forall (fun x => x < 256) b -> fromhex (hexlify upper b) = Some b.
Proof.
  induction 1 as [|x b Hx _ IH]; [reflexivity|]. cbv beta in Hx.
  cbn [hexlify fromhex].
  destruct (hex_char_digit upper (x / 16)) as [H1 H2];
    [apply N.Div0.div_lt_upper_bound; lia|].
  destruct (hex_char_digit upper (x mod 16)) as [H3 _];
    [apply N.mod_lt; lia|].
  rewrite H2, H1, H3, IH. f_equal. f_equal.
  symmetry. apply N.div_mod'.
Qed.


(** Names the quotient and the remainder of [c] by [d], with the facts
    that tie them, so that linear arithmetic can go on. *)
Ltac name_divmod c d :=
  let q := fresh "q" in
  let r := fresh "r" in
  pose proof (N.div_mod' c d);
  pose proof (N.mod_lt c d ltac:(lia));
  set (q := c / d) in *; set (r := c mod d) in *;
  clearbody q r.

Ltac decide_cond :=
  repeat match goal with
         | |- context [?a <? ?b] =>
             first [ replace (a <? b) with true
                       by (symmetry; apply N.ltb_lt; lia)
                   | replace (a <? b) with false
                       by (symmetry; apply N.ltb_ge; lia) ]
         | |- context [?a <=? ?b] =>
             first [ replace (a <=? b) with true
                       by (symmetry; apply N.leb_le; lia)
                   | replace (a <=? b) with false
                       by (symmetry; apply N.leb_gt; lia) ]
         | |- context [?a =? ?b] =>
             first [ replace (a =? b) with true
                       by (symmetry; apply N.eqb_eq; lia)
                   | replace (a =? b) with false
                       by (symmetry; apply N.eqb_neq; lia) ]
         end.

Ltac split_eqb a b :=
  let E := fresh "E" in
  destruct (a =? b) eqn:E; [apply N.eqb_eq in E | apply N.eqb_neq in E].

Lemma utf8_decode_encoded_char (c : N) (rest : bytes) :
  is_scalar c = true ->
  utf8_decode_replace (utf8_encode_char c ++ rest)
  = c :: utf8_decode_replace rest.
Proof.
  unfold is_scalar, utf8_encode_char. intros Hs.
  assert (Hc : c < 55296 \/ 57344 <= c <= 1114111).
  { apply orb_true_iff in Hs. destruct Hs as [H|H].
    - left. apply N.ltb_lt, H.
    - right. apply andb_true_iff in H. destruct H as [H1 H2].
      apply N.leb_le in H1, H2. lia. }
  clear Hs.
  destruct (c <? 128) eqn:E1.
  { apply N.ltb_lt in E1. cbn [app utf8_decode_replace].
    decide_cond. reflexivity. }
  apply N.ltb_ge in E1.
  destruct (c <? 2048) eqn:E2.
  { apply N.ltb_lt in E2. name_divmod c 64. cbn [app].
    remember (128 + r :: rest) as l1 eqn:El1.
    cbn [utf8_decode_replace]. decide_cond. cbn [andb].
    subst l1. unfold is_cont. decide_cond. cbn [andb]. f_equal. lia. }
  apply N.ltb_ge in E2.
  destruct (c <? 65536) eqn:E3.
  { apply N.ltb_lt in E3.
    replace (c / 4096) with (c / 64 / 64)
      by (rewrite N.Div0.div_div; reflexivity).
    name_divmod c 64. name_divmod q 64. cbn [app].
    remember (128 + r :: rest) as l2 eqn:El2.
    remember (128 + r0 :: l2) as l1 eqn:El1.
    cbn [utf8_decode_replace]. decide_cond. cbn [andb].
    subst l1. unfold second_ok, second_lo, second_hi.
    split_eqb (224 + q0) 224; split_eqb (224 + q0) 237;
      split_eqb (224 + q0) 240; split_eqb (224 + q0) 244;
      try lia; decide_cond; cbn [andb];
      subst l2; unfold is_cont; decide_cond; cbn [andb]; f_equal; lia. }
  apply N.ltb_ge in E3.
  replace (c / 262144) with (c / 64 / 64 / 64)
    by (rewrite !N.Div0.div_div; reflexivity).
  replace (c / 4096) with (c / 64 / 64)
    by (rewrite N.Div0.div_div; reflexivity).
  name_divmod c 64. name_divmod q 64. name_divmod q0 64. cbn [app].
  remember (128 + r :: rest) as l3 eqn:El3.
  remember (128 + r0 :: l3) as l2 eqn:El2.
  remember (128 + r1 :: l2) as l1 eqn:El1.
  cbn [utf8_decode_replace]. decide_cond. cbn [andb].
  subst l1. unfold second_ok, second_lo, second_hi.
  split_eqb (240 + q1) 224; split_eqb (240 + q1) 237;
    split_eqb (240 + q1) 240; split_eqb (240 + q1) 244;
    try lia; decide_cond; cbn [andb];
    subst l2; unfold is_cont; decide_cond; cbn [andb];
    subst l3; decide_cond; cbn [andb]; f_equal; lia.
Qed.

Lemma utf8_decode_encode (s : pystr) :
  forallb is_scalar s = true ->
  utf8_decode_replace (utf8_encode s) = s.
Proof.
  induction s as [|c s IH]; [reflexivity|].
  cbn [forallb utf8_encode flat_map]. intros H.
  apply andb_true_iff in H. destruct H as [Hc Hs].
  rewrite utf8_decode_encoded_char by exact Hc.
  fold (utf8_encode s). rewrite IH by exact Hs. reflexivity.
Qed.

Lemma utf8_encode_char_bytes (c : N) :
  c <= 1114111 -> Forall (fun x => x < 256) (utf8_encode_char c).
Proof.
  intros Hc. unfold utf8_encode_char.
  destruct (c <? 128) eqn:E1; [apply N.ltb_lt in E1; repeat constructor; lia|].
  destruct (c <? 2048) eqn:E2.
  { apply N.ltb_lt in E2. name_divmod c 64. repeat constructor; lia. }
  destruct (c <? 65536) eqn:E3.
  { apply N.ltb_lt in E3.
    replace (c / 4096) with (c / 64 / 64)
      by (rewrite N.Div0.div_div; reflexivity).
    name_divmod c 64. name_divmod q 64. repeat constructor; lia. }
  replace (c / 262144) with (c / 64 / 64 / 64)
    by (rewrite !N.Div0.div_div; reflexivity).
  replace (c / 4096) with (c / 64 / 64)
    by (rewrite N.Div0.div_div; reflexivity).
  name_divmod c 64. name_divmod q 64. name_divmod q0 64.
  repeat constructor; lia.
Qed.


Lemma utf8_encode_bytes (s : pystr) :
  forallb is_scalar s = true -> Forall (fun x => x < 256) (utf8_encode s).
Proof.
  induction s as [|c s IH]; [constructor|].
  cbn [forallb utf8_encode flat_map]. intros H.
  apply andb_true_iff in H. destruct H as [Hc Hs].
  apply Forall_app. split; [|apply IH, Hs].
  apply utf8_encode_char_bytes. unfold is_scalar in Hc.
  apply orb_true_iff in Hc. destruct Hc as [H|H].
  - apply N.ltb_lt in H. lia.
  - apply andb_true_iff in H. destruct H as [_ H]. apply N.leb_le, H.
Qed.

Local Close Scope N_scope.

Lemma extract_memos_entries (members : list (pystr * json))
    (entries : list json) (datas : list pystr) :
  lookup (str "Memos") members = Some (JArr entries) ->
  Forall2 memo_entry_with entries datas ->
  extract_memos (JObj members) = Ok (join_newline (map decoded_text datas)).
Proof.
  intros Hm HF. unfold extract_memos. simpl. rewrite Hm.
  destruct HF as [|e d entries datas He HF]; [reflexivity|].
  simpl py_truthy. cbv iota. simpl negb. cbv iota. simpl py_iter.
  unfold bind at 1 2.
  rewrite (decode_memos_entries (e :: entries) (d :: datas));
    [reflexivity | constructor; assumption].
Qed.

(** X7. A memo written the way the ledger carries text, as the
    hexadecimal digits (in either letter case) of its UTF-8 bytes, is
    decoded to exactly that text, whatever the text is; and the memos of a
    transaction that are all written so give the texts joined by line
    feeds. *)
Theorem hex_memo_round_trip (upper : bool) :
  (forall text,
      forallb is_scalar text = true ->
      decode_hex_or_base64 (JStr (hexlify upper (utf8_encode text)))
      = Ok text)
  /\ (forall members entries texts,
        Forall (fun text => forallb is_scalar text = true) texts ->
        lookup (str "Memos") members = Some (JArr entries) ->
        Forall2 memo_entry_with entries
                (map (fun text => hexlify upper (utf8_encode text)) texts) ->
        extract_memos (JObj members) = Ok (join_newline texts)).
Proof.
  assert (Htext : forall text,
             forallb is_scalar text = true ->
             decoded_text (hexlify upper (utf8_encode text)) = text).
  { intros text Hs. unfold decoded_text.
    rewrite fromhex_hexlify by (apply utf8_encode_bytes, Hs).
    apply utf8_decode_encode, Hs. }
  split.
  - intros text Hs. rewrite decode_is_decoded_text, Htext by exact Hs.
    reflexivity.
  - intros members entries texts Hs Hm HF.
    rewrite (extract_memos_entries members entries _ Hm HF).
    rewrite map_map. f_equal. f_equal. clear Hm HF.
    induction Hs as [|t ts Ht _ IH]; [reflexivity|].
    simpl. rewrite Htext by exact Ht. f_equal. exact IH.
Qed.

(* ================================================================== *)
(** * Memo lists with gaps, and memo lists that are no lists            *)
(* ================================================================== *)

Lemma decode_memos_data (entries : list json) (datas : list pystr) :
  Forall2 memo_entry_data entries datas ->
  decode_memos entries = Ok (map decoded_text datas).
Proof.
  induction 1 as [|e s entries datas (em & -> & He) _ IH]; [reflexivity|].
  cbn [decode_memos py_get].
  destruct (lookup (str "Memo") em) as [[| | | | |mm]|]; try contradiction.
  - cbn [bind py_get].
    destruct (lookup (str "MemoData") mm) as [[| | |d| |]|];
      try contradiction; subst s; cbn [bind];
      rewrite decode_is_decoded_text; cbn [bind]; rewrite IH; reflexivity.
  - subst s. cbn [bind py_get lookup].
    rewrite decode_is_decoded_text. cbn [bind]. rewrite IH. reflexivity.
Qed.

Lemma decode_memos_stops (pre : list json) (datas : list pystr) (e : json)
    (rest : list json) :
  Forall2 memo_entry_data pre datas ->
  (forall em, e <> JObj em) ->
  decode_memos (pre ++ e :: rest) = Raise AttributeError.
Proof.
  intros HF He. induction HF as [|x s pre datas Hx HF IH].
  - simpl. destruct e; try reflexivity. exfalso. eapply He. reflexivity.
  - pose proof (decode_memos_data [x] [s]
                  (Forall2_cons _ _ Hx (Forall2_nil _))) as H1.
    cbn [decode_memos] in H1. cbn [app decode_memos].
    destruct (py_get x (str "Memo") (JObj [])) as [memo|]; [|discriminate].
    cbn [bind] in H1 |- *.
    destruct (py_get memo (str "MemoData") (JStr [])) as [d|]; [|discriminate].
    cbn [bind] in H1 |- *.
    destruct (decode_hex_or_base64 d); [|discriminate].
    cbn [bind]. rewrite IH. reflexivity.
Qed.

(** X8. Memo entries need not be complete: an entry without [Memo], or
    a memo without [MemoData], contributes an empty line, and the result
    still has one line per entry.  What is no object among the entries
    ends the extraction with [AttributeError] when its turn comes; a
    [Memos] member that is a non-empty string does the same, and one that
    is a number other than 0 raises [TypeError]; none of these is caught
    by the caller. *)
Theorem memo_gaps_and_errors (members : list (pystr * json)) :
  (forall entries datas,
      lookup (str "Memos") members = Some (JArr entries) ->
      Forall2 memo_entry_data entries datas ->
      extract_memos (JObj members) = Ok (join_newline (map decoded_text datas)))
  /\ (forall pre datas e rest,
        lookup (str "Memos") members = Some (JArr (pre ++ e :: rest)) ->
        Forall2 memo_entry_data pre datas ->
        (forall em, e <> JObj em) ->
        extract_memos (JObj members) = Raise AttributeError)
  /\ (forall c s,
        lookup (str "Memos") members = Some (JStr (c :: s)) ->
        extract_memos (JObj members) = Raise AttributeError)
  /\ (forall n,
        n <> 0 ->
        lookup (str "Memos") members = Some (JNum n) ->
        extract_memos (JObj members) = Raise TypeError).
Proof.
  split; [|split; [|split]].
  - intros entries datas Hm HF. unfold extract_memos. cbn [py_get bind].
    rewrite Hm. destruct HF as [|e d entries datas He HF]; [reflexivity|].
    cbn [py_truthy negb py_iter bind].
    rewrite (decode_memos_data (e :: entries) (d :: datas));
      [reflexivity | constructor; assumption].
  - intros pre datas e rest Hm HF He. unfold extract_memos.
    cbn [py_get bind]. rewrite Hm.
    replace (py_truthy (JArr (pre ++ e :: rest))) with true
      by (destruct pre; reflexivity).
    cbn [negb py_iter bind].
    rewrite (decode_memos_stops pre datas e rest HF He). reflexivity.
  - intros c s Hm. unfold extract_memos. cbn [py_get bind]. rewrite Hm.
    reflexivity.
  - intros n Hn Hm. unfold extract_memos. cbn [py_get bind]. rewrite Hm.
    cbn [py_truthy]. replace (n =? 0) with false
      by (symmetry; apply Z.eqb_neq, Hn).
    reflexivity.
Qed.

(* ================================================================== *)
(** * Ledger times                                                      *)
(* ================================================================== *)

Lemma utcfromtimestamp_day (ts : Z) (dt : datetime) :
  utcfromtimestamp ts = Ok dt ->
  ymd2ord (year dt) (month dt) (day dt) = ts / 86400 + EPOCH_ORDINAL.
Proof.
  intros H. apply utcfromtimestamp_inverse in H.
  destruct H as (Hs & _ & _ & Hh & Hm & Hsec & _).
  unfold unix_seconds in Hs. Z.div_mod_to_equations. lia.
Qed.

Lemma year_length (y : Z) :
  days_before_year (y + 1)
  = days_before_year y + 365 + (if is_leap y then 1 else 0).
Proof.
  unfold days_before_year, is_leap.
  replace (y + 1 - 1) with y by lia.
  destruct (y mod 4 =? 0) eqn:E4;
    [apply Z.eqb_eq in E4 | apply Z.eqb_neq in E4];
    (destruct (y mod 100 =? 0) eqn:E100;
     [apply Z.eqb_eq in E100 | apply Z.eqb_neq in E100]);
    (destruct (y mod 400 =? 0) eqn:E400;
     [apply Z.eqb_eq in E400 | apply Z.eqb_neq in E400]);
    cbn [andb orb negb]; Z.div_mod_to_equations; lia.
Qed.

Lemma month_table (leap : bool) (m : Z) :
  1 <= m <= 12 ->
  0 <= DAYS_BEFORE_MONTH m + (if (2 <? m) && leap then 1 else 0)
  /\ DAYS_BEFORE_MONTH m + (if (2 <? m) && leap then 1 else 0)
     + (if (m =? 2) && leap then 29 else DAYS_IN_MONTH m)
     <= 365 + (if leap then 1 else 0).
Proof.
  intros Hm.
  assert (Hc : m = 1 \/ m = 2 \/ m = 3 \/ m = 4 \/ m = 5 \/ m = 6 \/
               m = 7 \/ m = 8 \/ m = 9 \/ m = 10 \/ m = 11 \/ m = 12) by lia.
  destruct leap;
    repeat (destruct Hc as [->|Hc]; [vm_compute; split; discriminate|]);
    subst; vm_compute; split; discriminate.
Qed.

Lemma day_of_year_bounds (y m d : Z) :
  1 <= m <= 12 -> 1 <= d <= days_in_month y m ->
  1 <= days_before_month y m + d <= 365 + (if is_leap y then 1 else 0).
Proof.
  intros Hm. unfold days_before_month, days_in_month.
  pose proof (month_table (is_leap y) m Hm). lia.
Qed.

(** X9. Every ledger time the ledger can express, an unsigned 32-bit
    number of seconds, is converted, to a datetime in the years 2000 to
    2136 that lies that many seconds after 2000-01-01T00:00:00; and two
    different ledger times never give the same datetime. *)
Theorem ledger_times_convert (t : Z) :
  0 <= t < 2 ^ 32 ->
  (exists dt,
      get_ripple_datetime (JNum t) = Ok dt /\
      2000 <= year dt <= 2136 /\
      unix_seconds dt = t + 946684800 /\ valid_datetime dt)
  /\ (forall t' dt,
        get_ripple_datetime (JNum t) = Ok dt ->
        get_ripple_datetime (JNum t') = Ok dt -> t' = t).
Proof.
  intros Ht. split.
  - destruct (utcfromtimestamp_total (t + 946684800)) as (dt & Hdt); [lia|].
    exists dt. split; [exact Hdt|].
    pose proof (utcfromtimestamp_day _ _ Hdt) as Hday.
    destruct (utcfromtimestamp_inverse _ _ Hdt) as (Hs & Hv).
    split; [|split; assumption].
    destruct Hv as (Hm & Hd & _).
    pose proof (day_of_year_bounds _ _ _ Hm Hd) as Hdoy.
    pose proof (year_length (year dt)) as Hlen.
    unfold ymd2ord, EPOCH_ORDINAL in Hday.
    destruct (is_leap (year dt));
      unfold days_before_year in *; Z.div_mod_to_equations; lia.
  - intros t' dt H1 H2. unfold get_ripple_datetime in H1, H2. simpl in H1, H2.
    apply utcfromtimestamp_inverse in H1, H2.
    destruct H1 as [H1 _], H2 as [H2 _]. lia.
Qed.

(* ================================================================== *)
(** * The tweet text                                                    *)
(* ================================================================== *)

Lemma nat_digits_length (fuel : nat) :
  forall (n : N) (k : nat),
    (n < 10 ^ N.of_nat (S k))%N ->
    (length (nat_digits fuel n) <= S k)%nat.
Proof.
  induction fuel as [|fuel IH]; intros n k Hn; [simpl; lia|].
  cbn [nat_digits]. destruct (n <? 10)%N eqn:E; [simpl; lia|].
  apply N.ltb_ge in E. rewrite length_app. cbn [length].
  destruct k as [|k]; [change (10 ^ N.of_nat 1)%N with 10%N in Hn; lia|].
  specialize (IH (n / 10)%N k).
  assert (Hq : (n / 10 < 10 ^ N.of_nat (S k))%N).
  { apply N.Div0.div_lt_upper_bound.
    rewrite <- N.pow_succ_r'. rewrite <- Nat2N.inj_succ. exact Hn. }
  specialize (IH Hq). lia.
Qed.

Lemma py_str_int_length (z : Z) (k : nat) :
  Z.abs z < 10 ^ Z.of_nat (S k) ->
  (length (py_str_int z) <= S (S k))%nat.
Proof.
  intros Hz.
  assert (Hn : forall p, Z.pos p < 10 ^ Z.of_nat (S k) ->
                         (N.pos p < 10 ^ N.of_nat (S k))%N).
  { intros p Hp. apply N2Z.inj_lt. rewrite N2Z.inj_pow, nat_N_Z. exact Hp. }
  destruct z as [|p|p]; cbn [py_str_int length].
  - lia.
  - pose proof (nat_digits_length (S (N.to_nat (N.log2 (N.pos p)))) _ k
                  (Hn p Hz)). lia.
  - pose proof (nat_digits_length (S (N.to_nat (N.log2 (N.pos p)))) _ k
                  (Hn p Hz)). lia.
Qed.

Lemma digits_value_snoc (ds : list N) (d : N) :
  digits_value (ds ++ [d]) = 10 * digits_value ds + Z.of_N d.
Proof. unfold digits_value. rewrite fold_left_app. reflexivity. Qed.

Lemma nat_digits_value (fuel : nat) :
  forall n,
    (n < 2 ^ N.of_nat fuel)%N ->
    digits_value (map (fun c => c - 48)%N (nat_digits fuel n)) = Z.of_N n.
Proof.
  induction fuel as [|fuel IH]; intros n Hn.
  - change (2 ^ N.of_nat 0)%N with 1%N in Hn.
    replace n with 0%N by lia. reflexivity.
  - cbn [nat_digits]. destruct (n <? 10)%N eqn:E.
    + apply N.ltb_lt in E. cbn [map]. unfold digits_value. cbn [fold_left].
      lia.
    + apply N.ltb_ge in E. rewrite map_app. cbn [map].
      rewrite digits_value_snoc, IH.
      * pose proof (N.div_mod' n 10). pose proof (N.mod_lt n 10 ltac:(lia)).
        set (q := (n / 10)%N) in *. set (r := (n mod 10)%N) in *.
        clearbody q r. lia.
      * apply N.Div0.div_lt_upper_bound.
        rewrite Nat2N.inj_succ, N.pow_succ_r' in Hn.
        pose proof (N.pow_nonzero 2 (N.of_nat fuel) ltac:(lia)). lia.
Qed.

Lemma py_str_int_value (p : positive) :
  digits_value (map (fun c => c - 48)%N (py_str_int (Z.pos p))) = Z.pos p
  /\ py_str_int (Z.neg p) = 45%N :: py_str_int (Z.pos p).
Proof.
  split; [|reflexivity]. cbn [py_str_int].
  rewrite nat_digits_value; [reflexivity|].
  rewrite Nat2N.inj_succ, N2Nat.id.
  apply N.log2_spec. reflexivity.
Qed.

Lemma tweet_text_length (i t p : Z) :
  length (tweet_text i t p)
  = (112 + length (py_str_int i) + length (py_str_int t)
     + length (py_str_int p))%nat.
Proof.
  unfold tweet_text. repeat (rewrite length_app || cbn [length]).
  change (length (str " Daily PFT Update!")) with 18%nat.
  change (length (str " ")) with 1%nat.
  change (length (str " new initiations yesterday.")) with 27%nat.
  change (length (str " tasks were completed.")) with 22%nat.
  change (length (str " Total PFT for Completed Tasks: ")) with 32%nat.
  lia.
Qed.

(** X10. The tweet [create_tweet] returns never exceeds 280 characters
    and never depends on the leaderboard it is given: the leaderboard is
    measured but not written.  With numbers below [10^50] in size
    nothing is cut off, and the tweet is the heading and the three lines
    that carry the numbers. *)
Theorem tweet_ignores_leaderboard
    (initiations tasks_completed pft_sum : Z) (leaderboard_text : pystr) :
  (length (create_tweet initiations tasks_completed leaderboard_text pft_sum)
   <= 280)%nat
  /\ (forall other,
        create_tweet initiations tasks_completed other pft_sum
        = create_tweet initiations tasks_completed leaderboard_text pft_sum)
  /\ (Z.abs initiations < 10 ^ 50 ->
      Z.abs tasks_completed < 10 ^ 50 ->
      Z.abs pft_sum < 10 ^ 50 ->
      create_tweet initiations tasks_completed leaderboard_text pft_sum
      = tweet_text initiations tasks_completed pft_sum).
Proof.
  assert (Hform : forall l,
             create_tweet initiations tasks_completed l pft_sum
             = let tweet := tweet_text initiations tasks_completed pft_sum in
               if (280 <? length tweet)%nat
               then firstn 277 tweet ++ str "..." else tweet).
  { intros l. unfold create_tweet. cbv zeta.
    destruct (280 <? length (tweet_text initiations tasks_completed pft_sum))%nat
      eqn:E; [|reflexivity].
    destruct (0 <? _); rewrite E; reflexivity. }
  split; [|split].
  - rewrite Hform. cbv zeta.
    destruct (280 <? length (tweet_text initiations tasks_completed pft_sum))%nat
      eqn:E.
    + rewrite length_app, length_firstn. change (length (str "...")) with 3%nat.
      lia.
    + apply Nat.ltb_ge in E. exact E.
  - intros other. rewrite !Hform. reflexivity.
  - intros Hi Ht Hp. rewrite Hform. cbv zeta.
    replace (280 <? length (tweet_text initiations tasks_completed pft_sum))%nat
      with false; [reflexivity|].
    symmetry. apply Nat.ltb_ge. rewrite tweet_text_length.
    pose proof (py_str_int_length initiations 49 Hi).
    pose proof (py_str_int_length tasks_completed 49 Ht).
    pose proof (py_str_int_length pft_sum 49 Hp). lia.
Qed.

(* ================================================================== *)
(** * Secrets held as bytes                                             *)
(* ================================================================== *)

Local Open Scope N_scope.

Lemma utf8_decode_strict_encoded_char (c : N) (rest : bytes) :
  is_scalar c = true ->
  utf8_decode_strict (utf8_encode_char c ++ rest)
  = match utf8_decode_strict rest with
    | Some s => Some (c :: s)
    | None => None
    end.
Proof.
  unfold is_scalar, utf8_encode_char. intros Hs.
  assert (Hc : c < 55296 \/ 57344 <= c <= 1114111).
  { apply orb_true_iff in Hs. destruct Hs as [H|H].
    - left. apply N.ltb_lt, H.
    - right. apply andb_true_iff in H. destruct H as [H1 H2].
      apply N.leb_le in H1, H2. lia. }
  clear Hs.
  destruct (c <? 128) eqn:E1.
  { apply N.ltb_lt in E1. cbn [app utf8_decode_strict].
    decide_cond. reflexivity. }
  apply N.ltb_ge in E1.
  destruct (c <? 2048) eqn:E2.
  { apply N.ltb_lt in E2. name_divmod c 64. cbn [app].
    cbn [utf8_decode_strict]. decide_cond. cbn [andb].
    unfold is_cont. decide_cond. cbn [andb].
    replace ((192 + q - 192) * 64 + (128 + r - 128)) with c by lia.
    reflexivity. }
  apply N.ltb_ge in E2.
  destruct (c <? 65536) eqn:E3.
  { apply N.ltb_lt in E3.
    replace (c / 4096) with (c / 64 / 64)
      by (rewrite N.Div0.div_div; reflexivity).
    name_divmod c 64. name_divmod q 64. cbn [app].
    cbn [utf8_decode_strict]. decide_cond. cbn [andb].
    unfold second_ok, second_lo, second_hi, is_cont.
    split_eqb (224 + q0) 224; split_eqb (224 + q0) 237;
      split_eqb (224 + q0) 240; split_eqb (224 + q0) 244;
      try lia; decide_cond; cbn [andb];
      (replace ((224 + q0 - 224) * 4096 + (128 + r0 - 128) * 64
                + (128 + r - 128)) with c by lia);
      reflexivity. }
  apply N.ltb_ge in E3.
  replace (c / 262144) with (c / 64 / 64 / 64)
    by (rewrite !N.Div0.div_div; reflexivity).
  replace (c / 4096) with (c / 64 / 64)
    by (rewrite N.Div0.div_div; reflexivity).
  name_divmod c 64. name_divmod q 64. name_divmod q0 64. cbn [app].
  cbn [utf8_decode_strict]. decide_cond. cbn [andb].
  unfold second_ok, second_lo, second_hi, is_cont.
  split_eqb (240 + q1) 224; split_eqb (240 + q1) 237;
    split_eqb (240 + q1) 240; split_eqb (240 + q1) 244;
    try lia; decide_cond; cbn [andb];
    (replace ((240 + q1 - 240) * 262144 + (128 + r1 - 128) * 4096
              + (128 + r0 - 128) * 64 + (128 + r - 128)) with c by lia);
    reflexivity.
Qed.

Lemma second_ok_cont (lead b : N) : second_ok lead b = true -> b <= 191.
Proof.
  unfold second_ok, second_hi. intros H.
  apply andb_true_iff in H. destruct H as [_ H]. apply N.leb_le in H.
  destruct (lead =? 237); [lia|]. destruct (lead =? 244); lia.
Qed.

Lemma is_cont_le (b : N) : is_cont b = true -> b <= 191.
Proof.
  unfold is_cont. intros H. apply andb_true_iff in H.
  destruct H as [_ H]. apply N.leb_le, H.
Qed.

(** A byte from 245 on occurs in no UTF-8: bytes that hold one are
    refused, wherever it stands. *)
Lemma utf8_decode_strict_refuses (x : N) :
  245 <= x ->
  forall (n : nat) (b : bytes),
    (length b <= n)%nat -> In x b -> utf8_decode_strict b = None.
Proof.
  intros Hx. induction n as [|n IH]; intros b Hlen Hin;
    destruct b as [|b0 r]; try (destruct Hin; fail);
    cbn [length] in Hlen; [lia|].
  assert (Hrec : forall (c : N) (r' : bytes),
             (length r' <= n)%nat -> In x r' ->
             match utf8_decode_strict r' with
             | Some s => Some (c :: s)
             | None => None
             end = None).
  { intros c r' Hl Hi. rewrite (IH r' Hl Hi). reflexivity. }
  cbn [utf8_decode_strict].
  destruct (b0 <? 128) eqn:E0.
  { apply N.ltb_lt in E0. destruct Hin as [->|Hin]; [lia|].
    apply Hrec; [lia | exact Hin]. }
  destruct ((194 <=? b0) && (b0 <=? 223)) eqn:E1.
  { apply andb_true_iff in E1. destruct E1 as [_ E1]. apply N.leb_le in E1.
    destruct r as [|b1 r1]; [reflexivity|].
    destruct (is_cont b1) eqn:C1; [|reflexivity]. apply is_cont_le in C1.
    destruct Hin as [->|[->|Hin]]; try lia.
    apply Hrec; [cbn [length] in Hlen; lia | exact Hin]. }
  destruct ((224 <=? b0) && (b0 <=? 239)) eqn:E2.
  { apply andb_true_iff in E2. destruct E2 as [_ E2]. apply N.leb_le in E2.
    destruct r as [|b1 [|b2 r2]]; try reflexivity.
    destruct (second_ok b0 b1) eqn:C1; [|reflexivity].
    destruct (is_cont b2) eqn:C2; [|reflexivity]. cbn [andb].
    apply second_ok_cont in C1. apply is_cont_le in C2.
    destruct Hin as [->|[->|[->|Hin]]]; try lia.
    apply Hrec; [cbn [length] in Hlen; lia | exact Hin]. }
  destruct ((240 <=? b0) && (b0 <=? 244)) eqn:E3; [|reflexivity].
  apply andb_true_iff in E3. destruct E3 as [_ E3]. apply N.leb_le in E3.
  destruct r as [|b1 [|b2 [|b3 r3]]]; try reflexivity.
  destruct (second_ok b0 b1) eqn:C1; [|reflexivity].
  destruct (is_cont b2) eqn:C2; [|reflexivity].
  destruct (is_cont b3) eqn:C3; [|reflexivity]. cbn [andb].
  apply second_ok_cont in C1. apply is_cont_le in C2, C3.
  destruct Hin as [->|[->|[->|[->|Hin]]]]; try lia.
  apply Hrec; [cbn [length] in Hlen; lia | exact Hin].
Qed.

Lemma utf8_decode_strict_encode (s : pystr) :
  forallb is_scalar s = true ->
  utf8_decode_strict (utf8_encode s) = Some s.
Proof.
  induction s as [|c s IH]; [reflexivity|].
  cbn [forallb utf8_encode flat_map]. intros H.
  apply andb_true_iff in H. destruct H as [Hc Hs].
  rewrite utf8_decode_strict_encoded_char by exact Hc.
  fold (utf8_encode s). rewrite IH by exact Hs. reflexivity.
Qed.

Local Close Scope N_scope.

(** X11. A secret held as bytes is read like one held as a string:
    bytes that are the UTF-8 of a text are loaded as that text is.  When
    the response has both members the string is the one loaded.  Bytes
    with a byte from 245 on are no UTF-8 and raise [ValueError], a
    response with neither member raises [KeyError], and the handler
    answers every failure of the retrieval with the same 500, without
    connecting to the database. *)
Theorem binary_secret_reads_as_text (sv : services) (secret_name : pystr) :
  (forall text,
      forallb is_scalar text = true ->
      get_secret_value sv secret_name
      = Returned (mk_secret_response None (Some (utf8_encode text))) ->
      get_secret sv secret_name = json_loads sv text)
  /\ (forall text binary,
        get_secret_value sv secret_name
        = Returned (mk_secret_response (Some text) binary) ->
        get_secret sv secret_name = json_loads sv text)
  /\ (forall binary x,
        get_secret_value sv secret_name
        = Returned (mk_secret_response None (Some binary)) ->
        In x binary -> (245 <= x)%N ->
        get_secret sv secret_name = Raised (PyError ValueError))
  /\ (get_secret_value sv secret_name
      = Returned (mk_secret_response None None) ->
      get_secret sv secret_name = Raised (PyError KeyError))
  /\ (forall e,
        get_secret sv NEON_SECRET_NAME = Raised e ->
        lambda_handler sv
        = (Returned (mk_response 500 (str "Secrets retrieval error")), [])).
Proof.
  split; [|split; [|split; [|split]]].
  - intros text Hs H. unfold get_secret. rewrite H. cbn [SecretString
      SecretBinary]. rewrite utf8_decode_strict_encode by exact Hs.
    reflexivity.
  - intros text binary H. unfold get_secret. rewrite H. reflexivity.
  - intros binary x H Hin Hx. unfold get_secret. rewrite H.
    cbn [SecretString SecretBinary].
    rewrite (utf8_decode_strict_refuses x Hx (length binary) binary
               (Nat.le_refl _) Hin).
    reflexivity.
  - intros H. unfold get_secret. rewrite H. reflexivity.
  - intros e H. unfold lambda_handler. rewrite H. reflexivity.
Qed.

(* ================================================================== *)
(** * The posting script as it stands                                   *)
(* ================================================================== *)

Lemma authenticate_twitter_raises (sv : services) :
  authenticate_twitter sv = Raised (PyError ValueError).
Proof. reflexivity. Qed.

(** X12. With the credentials the script carries, which are empty
    strings, [authenticate_twitter] raises [ValueError] before it asks
    Twitter anything.  So the handler never hands a text to the client
    and never answers 200 or 403: every response is a 500, the one for
    failed authentication whenever the secret, the connection, the
    queries and the closing were fine; and the only exceptions that
    escape it are the [AttributeError] of a secret that is no object and
    what closing the connection raised. *)
Theorem handler_never_posts (sv : services) :
  authenticate_twitter sv = Raised (PyError ValueError)
  /\ snd (lambda_handler sv) = []
  /\ (forall r, fst (lambda_handler sv) = Returned r -> statusCode r = 500)
  /\ (forall e, fst (lambda_handler sv) = Raised e ->
                e = PyError AttributeError \/ close sv = Raised e)
  /\ (forall secrets connection_string rows,
        get_secret sv NEON_SECRET_NAME = Returned (JObj secrets) ->
        lookup (str "DB_CONN_STRING") secrets = Some connection_string ->
        py_truthy connection_string = true ->
        connect_and_cursor sv connection_string = Returned tt ->
        run_queries sv = Returned rows ->
        close sv = Returned tt ->
        fst (lambda_handler sv)
        = Returned (mk_response 500 (str "Twitter authentication error"))).
Proof.
  split; [reflexivity|].
  unfold lambda_handler. rewrite authenticate_twitter_raises.
  split; [|split; [|split]].
  - destruct (get_secret sv NEON_SECRET_NAME) as [s|]; [|reflexivity].
    destruct (of_result _) as [cs|]; [|reflexivity].
    destruct (negb (py_truthy cs)); [reflexivity|].
    destruct (connect_and_cursor sv cs); [|reflexivity].
    destruct (run_queries sv); destruct (close sv); reflexivity.
  - intros r.
    destruct (get_secret sv NEON_SECRET_NAME) as [s|];
      [|intros H; injection H as <-; reflexivity].
    destruct (of_result _) as [cs|]; [|discriminate].
    destruct (negb (py_truthy cs));
      [intros H; injection H as <-; reflexivity|].
    destruct (connect_and_cursor sv cs);
      [|intros H; injection H as <-; reflexivity].
    destruct (run_queries sv); destruct (close sv);
      try discriminate; intros H; injection H as <-; reflexivity.
  - intros e.
    destruct (get_secret sv NEON_SECRET_NAME) as [s|]; [|discriminate].
    destruct s; cbn [py_get of_result fst];
      try (intros H; injection H as <-; left; reflexivity).
    destruct (negb (py_truthy _)); [discriminate|].
    destruct (connect_and_cursor sv _); [|discriminate].
    destruct (run_queries sv); destruct (close sv); try discriminate;
      intros H; injection H as <-; right; reflexivity.
  - intros secrets cs rows Hs Hl Ht Hc Hq Hcl.
    rewrite Hs. cbn [py_get of_result]. rewrite Hl, Ht. cbn [negb].
    rewrite Hc, Hq, Hcl. reflexivity.
Qed.

(* ================================================================== *)
(** * Sample runs of the further properties                             *)
(* ================================================================== *)

Lemma stored_rows_are_kept_witness :
  unique_hashes
    (storage_after (main sample_decimal (ledger_server sample_ledger 2) 5 []))
  /\ forall r r',
       In r (storage_after
               (main sample_decimal (ledger_server sample_ledger 2) 5 [])) ->
       In r' (storage_after
                (main sample_decimal (ledger_server sample_ledger 2) 5
                   (storage_after
                      (main sample_decimal (ledger_server sample_ledger 2)
                         5 [])))) ->
       transaction_hash r' = transaction_hash r -> r' = r.
Proof.
  assert (Hu : unique_hashes
                 (storage_after
                    (main sample_decimal (ledger_server sample_ledger 2) 5 []))).
  { apply unique_hashes_run; [reflexivity | constructor]. }
  split; [exact Hu|].
  exact (proj2 (stored_rows_are_kept sample_decimal
                  (ledger_server sample_ledger 2) 5
                  (storage_after
                     (main sample_decimal (ledger_server sample_ledger 2)
                        5 []))) Hu).
Defined.

Lemma aborted_run_keeps_whole_pages_witness :
  fst (main sample_decimal (failing_server sample_ledger 2) 2 [])
  = Aborted (Exception (JObj [ (str "error", JStr (str "slowDown")) ]))
  /\ exists k stk,
       (k < 2)%nat /\
       main sample_decimal (failing_server sample_ledger 2) k []
       = (Unfinished, stk) /\
       storage_after (main sample_decimal (failing_server sample_ledger 2) 2 [])
       = storage_after
           (main sample_decimal (failing_server sample_ledger 2) k []).
Proof.
  split; [vm_compute; reflexivity|].
  destruct (aborted_run_keeps_whole_pages sample_decimal
              (failing_server sample_ledger 2) 2 []
              (Exception (JObj [ (str "error", JStr (str "slowDown")) ]))
              (snd (main sample_decimal (failing_server sample_ledger 2) 2 [])))
    as (k & stk & Hk & Hrun & _ & Hstore & _).
  - vm_compute. reflexivity.
  - exists k, stk. split; [exact Hk|]. split; [exact Hrun | exact Hstore].
Defined.

Lemma completed_run_stores_matches_witness :
  exists r,
    tx_row sample_decimal
      (JObj [ (str "TransactionType", JStr (str "Payment"));
              (str "Account", JStr ISSUER_ADDRESS);
              (str "Destination", JStr (str "rDestination"));
              (str "Amount", token_amount "PFT" "123.99");
              (str "ledger_index", JNum 5);
              (str "Memos", JArr [memo_of "48656c6c6f"]);
              (str "hash", JStr (str "AA01"));
              (str "date", JNum 0) ])
    = Ok r
    /\ has_hash (transaction_hash r)
         (storage_after
            (main sample_decimal (ledger_server sample_ledger 2) 5 []))
       = true.
Proof.
  apply (completed_run_stores_matches sample_decimal
           (ledger_server sample_ledger 2) 5 []
           (snd (main sample_decimal (ledger_server sample_ledger 2) 5 []))
           (payment (Some "AA01"%string) 5 "PFT" "123.99" (Some 0)
              ["48656c6c6f"%string])).
  - vm_compute. reflexivity.
  - vm_compute. left. reflexivity.
  - vm_compute. reflexivity.
  - eexists _, _. repeat split; vm_compute; reflexivity.
Defined.

Lemma new_rows_lie_above_witness :
  length (storage_after
            (main sample_decimal (ledger_server sample_ledger 2) 5 [])) = 2%nat
  /\ forall r,
       In r (storage_after
               (main sample_decimal (ledger_server sample_ledger 2) 5 [])) ->
       In r [] \/
       (lower_bound [] <= ledger_index r /\
        forall r0, In r0 [] -> ledger_index r0 < ledger_index r).
Proof.
  split; [vm_compute; reflexivity|].
  apply (new_rows_lie_above sample_decimal (ledger_server sample_ledger 2)
           5 []).
  intros e He. vm_compute in He.
  repeat (destruct He as [<-|He]; [vm_compute; discriminate|]).
  destruct He.
Defined.

Lemma reply_without_transactions_witness :
  main_loop sample_decimal error_reply_server 1 0
    (mk_state (connect []) JNull 0 [])
  = (Completed,
     mk_state (connect []) JNull 0
       [request_body ACCOUNT_TO_CHECK 0 DEFAULT_LIMIT JNull]).
Proof.
  apply (proj1 (reply_without_transactions sample_decimal error_reply_server
                  0 0 (mk_state (connect []) JNull 0 [])
                  [ (str "result",
                     JObj [ (str "error", JStr (str "actNotFound"));
                            (str "status", JStr (str "error")) ]) ]
                  [ (str "error", JStr (str "actNotFound"));
                    (str "status", JStr (str "error")) ]
                  eq_refl eq_refl eq_refl eq_refl)).
  reflexivity.
Defined.

Lemma highest_ledger_is_maximum_witness :
  highest_ledger_this_run
    (snd (main sample_decimal (ledger_server sample_ledger 2) 5 [])) = 9
  /\ forall e n,
       In e (fetched (ledger_server sample_ledger 2) 5 (lower_bound []) JNull) ->
       entry_index e = Some n ->
       n <= highest_ledger_this_run
              (snd (main sample_decimal (ledger_server sample_ledger 2) 5 [])).
Proof.
  split; [vm_compute; reflexivity|].
  apply (highest_ledger_is_maximum sample_decimal
           (ledger_server sample_ledger 2) 5 []
           (snd (main sample_decimal (ledger_server sample_ledger 2) 5 []))).
  vm_compute. reflexivity.
Defined.

Lemma hex_memo_round_trip_witness :
  decode_hex_or_base64
    (JStr (hexlify false (utf8_encode [72; 233; 8364; 128640]%N)))
  = Ok [72; 233; 8364; 128640]%N.
Proof.
  apply (proj1 (hex_memo_round_trip false) [72; 233; 8364; 128640]%N).
  vm_compute. reflexivity.
Defined.

Lemma memo_gaps_and_errors_witness :
  extract_memos
    (JObj [ (str "Memos",
             JArr [ memo_of "4869"; JObj [];
                    JObj [ (str "Memo", JObj []) ] ]) ])
  = Ok (join_newline [str "Hi"; []; []]).
Proof.
  apply (proj1 (memo_gaps_and_errors
                  [ (str "Memos",
                     JArr [ memo_of "4869"; JObj [];
                            JObj [ (str "Memo", JObj []) ] ]) ])
           [ memo_of "4869"; JObj []; JObj [ (str "Memo", JObj []) ] ]
           [str "4869"; []; []]).
  - reflexivity.
  - repeat constructor; eexists; (split; [reflexivity|]); vm_compute;
      reflexivity.
Defined.

Lemma ledger_times_convert_witness :
  exists dt,
    get_ripple_datetime (JNum 86400) = Ok dt /\
    2000 <= year dt <= 2136 /\
    unix_seconds dt = 86400 + 946684800 /\ valid_datetime dt.
Proof.
  apply (proj1 (ledger_times_convert 86400 ltac:(lia))).
Defined.

Lemma tweet_ignores_leaderboard_witness :
  create_tweet 1 2 (str "1) @rUser | tasks: 2, pft: 300") 300
  = tweet_text 1 2 300.
Proof.
  apply (proj2 (proj2 (tweet_ignores_leaderboard 1 2 300
                         (str "1) @rUser | tasks: 2, pft: 300"))));
    vm_compute; reflexivity.
Defined.

Lemma binary_secret_reads_as_text_witness :
  get_secret sample_services NEON_SECRET_NAME
  = Returned (JObj [ (str "DB_CONN_STRING", JStr (str "postgres://db")) ]).
Proof.
  apply (proj1 (binary_secret_reads_as_text sample_services NEON_SECRET_NAME)
           (str "postgres://db")).
  - vm_compute. reflexivity.
  - reflexivity.
Defined.

Lemma handler_never_posts_witness :
  fst (lambda_handler sample_services)
  = Returned (mk_response 500 (str "Twitter authentication error")).
Proof.
  apply (proj2 (proj2 (proj2 (proj2 (handler_never_posts sample_services))))
           [ (str "DB_CONN_STRING", JStr (str "postgres://db")) ]
           (JStr (str "postgres://db"))
           (mk_answers 2 (Some 300)
              [ mk_leader (Some (str "rUser")) 2 (Some 300) ] 1)).
  - vm_compute. reflexivity.
  - vm_compute. reflexivity.
  - vm_compute. reflexivity.
  - reflexivity.
  - reflexivity.
  - reflexivity.
Defined.
